(** * The MediaProxy dispatcher (mediaproxy/dispatcher.py)

    A shallow embedding of the dispatcher's session router, of the relay
    protocol handler and of the relay registry, with the properties of the
    design document proved (or refuted) against it.

    Conventions of the embedding.
    - Python dictionaries are [gmap]s; objects that are shared and mutated
      (relay protocol instances, [DeferredList]s) live in a store indexed by
      an object id.
    - A method that mutates [self] and may raise is a function
      [DState -> outcome A * DState]: the state reached when an exception
      propagates is kept, as in Python.
    - What the process does to the outside world (bytes written to a relay,
      replies to a client, calls of the OpenSIPS management interface, calls
      of the accounting modules, log lines, timers armed or cancelled) is
      appended to the [trace] of the state, in program order.
    - A Twisted [Deferred] that waits for a relay is represented by the chain
      of callbacks the program attaches to it ([waiter]).
    - An identifier that names no object of the store does not occur in a
      state that the program reaches; a method called on one does nothing.
    - An OpenSIPS or management connection is known by its client id only:
      what the dispatcher says to it is the [Reply] of the trace, and the
      bookkeeping of the connection itself ([in_progress], [_decrement]) is
      not part of the state. *)

From Stdlib Require Import ZArith Ascii String List Permutation Lia.
From stdpp Require Import base tactics option list strings pretty gmap fin_maps.

Set Warnings "-register-all".
Open Scope string_scope.

(** ** Strings, as the program uses them *)

Module PyStr.

(** [s.startswith(p)], returning what follows the prefix. *)
Fixpoint strip_prefix (p s : string) : option string :=
  match p, s with
  | EmptyString, _ => Some s
  | String a p', String b s' =>
      if Ascii.eqb a b then strip_prefix p' s' else None
  | String _ _, EmptyString => None
  end.

(** [s.split(sep, 1)] for a non-empty separator: [Some (a, b)] stands for
    the two-element list [[a, b]] cut at the leftmost occurrence of [sep],
    [None] for the one-element list [[s]]. *)
Fixpoint split1 (sep s : string) : option (string * string) :=
  match strip_prefix sep s with
  | Some rest => Some (EmptyString, rest)
  | None =>
      match s with
      | EmptyString => None
      | String c s' =>
          match split1 sep s' with
          | Some (a, b) => Some (String c a, b)
          | None => None
          end
      end
  end.

(** [sep.join(l)] *)
Fixpoint join (sep : string) (l : list string) : string :=
  match l with
  | [] => EmptyString
  | [x] => x
  | x :: rest => x ++ sep ++ join sep rest
  end.

(** [s[:-1]] *)
Fixpoint drop_last (s : string) : string :=
  match s with
  | EmptyString => EmptyString
  | String c EmptyString => EmptyString
  | String c s' => String c (drop_last s')
  end.

(** [s[1:-1]] *)
Definition strip_ends (s : string) : string :=
  match s with
  | EmptyString => EmptyString
  | String _ s' => drop_last s'
  end.

End PyStr.

(** ** JSON values, as [cjson.decode] returns them *)

Inductive json :=
| JNull
| JBool (b : bool)
| JNum (z : Z)
| JStr (s : string)
| JArr (items : list json)
| JObj (fields : list (string * json)).

(** Python exceptions that the modelled code can raise. *)
Inductive relay_error :=
| RelayNoLongerConnected (relay : string)
    (* 'Relay for this session (%s) is no longer connected' *)
| NoSuitableRelay
    (* 'No suitable relay found' *)
| UnknownSession (name : string) (call_id : string)
    (* 'Got %r command from OpenSIPS for unknown session with call-id %s' *)
| RelayTimedOut (name : string) (ip : string)
    (* '%r command failed: relay at %s timed out' *)
| RelayReturnedError (ip : string) (name : string)
    (* 'Received error from relay at %s in response to %r command' *)
| RelayShuttingDown (ip : string)
    (* 'Relay at %s is shutting down' *)
| RelayDisconnected (name : string) (ip : string).
    (* '%r command failed: relay at %s disconnected' *)

Inductive command_error :=
| CouldNotParseHeaders      (* 'Could not parse command headers' *)
| MissingCallId.            (* 'Request from OpenSIPS is missing the call_id header' *)

Inductive exn :=
| RelayError (e : relay_error)
| CommandError (e : command_error)
| KeyError (key : json)
| IndexError
| AttributeError
| TypeError
| DecodeError.

Inductive outcome (A : Type) :=
| Ret (a : A)
| Raise (e : exn).
Arguments Ret {A} a.
Arguments Raise {A} e.

Module PyDict.

(** [d[k]] and [d.get(k)] on a decoded JSON object *)
Fixpoint get (k : string) (d : list (string * json)) : option json :=
  match d with
  | [] => None
  | (k', v) :: d' => if String.eqb k k' then Some v else get k d'
  end.

(** [d[k] = v] *)
Definition set (k : string) (v : json) (d : list (string * json))
  : list (string * json) :=
  match get k d with
  | Some _ =>
      map (fun kv => if String.eqb k (fst kv) then (fst kv, v) else kv) d
  | None => d ++ [(k, v)]
  end.

End PyDict.

(** [value[key]] for a string key on an arbitrary decoded value: a dictionary
    is looked up (KeyError when the key is missing), every other JSON value
    refuses a string subscript (TypeError). *)
Definition subscript (v : json) (key : string) : outcome json :=
  match v with
  | JObj d =>
      match PyDict.get key d with
      | Some x => Ret x
      | None => Raise (KeyError (JStr key))
      end
  | _ => Raise TypeError
  end.

(** [value[key] = x]: only a dictionary (or a list, with an integer index)
    supports item assignment. *)
Definition set_item (v : json) (key : string) (x : json) : outcome json :=
  match v with
  | JObj d => Ret (JObj (PyDict.set key x d))
  | _ => Raise TypeError
  end.

(** Iterating over a decoded value ([for x in value]): a list yields its
    items, a dictionary its keys, a string its characters; the other JSON
    values are not iterable. *)
Definition py_iter (v : json) : outcome (list json) :=
  match v with
  | JArr items => Ret items
  | JObj d => Ret (map (λ kv, JStr (fst kv)) d)
  | JStr s => Ret (map (λ c, JStr (String c EmptyString)) (list_ascii_of_string s))
  | _ => Raise TypeError
  end.

(** [value == s] for a string [s] *)
Definition json_eq_str (v : json) (s : string) : bool :=
  match v with
  | JStr t => String.eqb t s
  | _ => false
  end.

(** [[f(x) for x in l]], stopping at the first exception *)
Fixpoint comprehension {A B} (f : A → outcome B) (l : list A) : outcome (list B) :=
  match l with
  | [] => Ret []
  | x :: rest =>
      match f x with
      | Raise e => Raise e
      | Ret y =>
          match comprehension f rest with
          | Raise e => Raise e
          | Ret ys => Ret (y :: ys)
          end
      end
  end.

(** [all(x['status'] == 'unselected ICE candidate' for x in l)]: [all] stops
    at the first false item, so later items are not subscripted. *)
Fixpoint all_unselected_ice (l : list json) : outcome bool :=
  match l with
  | [] => Ret true
  | stream_info :: rest =>
      match subscript stream_info "status" with
      | Raise e => Raise e
      | Ret status =>
          if json_eq_str status "unselected ICE candidate"
          then all_unselected_ice rest
          else Ret false
      end
  end.

(** A value used as a key of the session table, whose keys are strings:
    [Ret (Some k)] for a string, [Ret None] for a hashable value that equals
    no string, TypeError for an unhashable value (list, dictionary). *)
Definition session_key (v : json) : outcome (option string) :=
  match v with
  | JStr k => Ret (Some k)
  | JArr _ | JObj _ => Raise TypeError
  | _ => Ret None
  end.

Definition json_of_option (o : option string) : json :=
  match o with
  | Some s => JStr s
  | None => JNull
  end.

(** ** [random.shuffle] *)

Module PyRandom.

(** [x[i], x[j] = x[j], x[i]] *)
Definition swap {A} (i j : nat) (x : list A) : list A :=
  match x !! i, x !! j with
  | Some a, Some b => <[j := a]> (<[i := b]> x)
  | _, _ => x
  end.

(** The loop of [shuffle] for [i] from [n] down to 1:
    [j = int(random() * (i+1)); x[i], x[j] = x[j], x[i]].  The random
    source [rnd] gives a natural number for every [i], reduced to the
    range [0..i] of [int(random() * (i+1))]. *)
Fixpoint shuffle_from {A} (rnd : nat → nat) (n : nat) (x : list A) : list A :=
  match n with
  | 0 => x
  | S n' => shuffle_from rnd n' (swap n (rnd n `mod` S n) x)
  end.

(** [random.shuffle(x)]: [for i in reversed(xrange(1, len(x)))] *)
Definition shuffle {A} (rnd : nat → nat) (x : list A) : list A :=
  shuffle_from rnd (length x - 1) x.

End PyRandom.

(** ** Commands *)

Record Command := mkCommand {
  name : string;
  headers : list string;
  parsed_headers : gmap string string
}.

(** [dict(pairs)]: a later pair overrides an earlier one with the same key. *)
Definition dict_of_pairs (l : list (string * string)) : gmap string string :=
  fold_left (fun m kv => <[kv.1 := kv.2]> m) l ∅.

(** [Command.__init__]: every header must split at [': '] into two parts,
    otherwise building the dictionary fails and CommandError is raised. *)
Definition Command_init (nm : string) (hdrs : list string) : outcome Command :=
  match mapM (PyStr.split1 ": ") hdrs with
  | Some pairs => Ret (mkCommand nm hdrs (dict_of_pairs pairs))
  | None => Raise (CommandError CouldNotParseHeaders)
  end.

(** [Command.call_id] *)
Definition call_id (c : Command) : option string := parsed_headers c !! "call_id".

(** ** Sessions, relay connections and the dispatcher state *)

(** Python objects are referred to by an identifier. *)
Abbreviation conn_id := nat (only parsing).     (* a RelayServerProtocol *)
Abbreviation client_id := nat (only parsing).   (* a ControlProtocol *)
Abbreviation gather_id := nat (only parsing).   (* a DeferredList *)
Abbreviation timer_id := nat (only parsing).    (* a DelayedCall *)

(** [class RelaySession]; [expire_time] is a reading of [time()]. *)
Record RelaySession := mkSession {
  relay_ip : string;
  dialog_id : option string;
  expire_time : option Z
}.

#[global] Instance RelaySession_eq_dec : EqDecision RelaySession.
Proof. solve_decision. Defined.

(** [RelaySession.__init__(relay_ip, command)] *)
Definition RelaySession_init (relay : string) (command : Command) : RelaySession :=
  mkSession relay (parsed_headers command !! "dialog_id") None.

(** The options of [DispatcherConfig] that the modelled code reads. *)
Record DispatcherConfig := mkConfig {
  relay_timeout : Z;
  relay_recover_interval : Z;
  cleanup_dead_relays_after : Z;
  cleanup_expired_sessions_after : Z
}.

(** The callbacks attached to the [Deferred] that
    [RelayServerProtocol.send_command] returns.  The program attaches one of
    five chains:
    - [WReply]: the deferred is handed back to the OpenSIPS protocol as it
      is, which adds [reply], [_error_handler], [_catch_all], [_decrement];
    - [WPlace]: [_try_next] adds the errback [_relay_error try_relays command]
      and [send_command] the callback [_add_session try_relays command]
      before the deferred goes to the OpenSIPS protocol; [try_relays] is the
      deque shared by the two;
    - [WPurge]: [new_relay] adds the callback [_cb_purge_sessions relay_ip];
    - [WSummary]: [get_summary] adds the errback [_summary_error ip] and puts
      the deferred at position [index] of a [DeferredList];
    - [WStatistics]: [get_statistics] puts the deferred at position [index]
      of a [DeferredList]. *)
Inductive waiter :=
| WReply (client : client_id)
| WPlace (try_relays : list conn_id) (command : Command) (client : client_id)
| WPurge (relay : string)
| WSummary (g : gather_id) (index : nat) (ip : string)
| WStatistics (g : gather_id) (index : nat).

(** An entry [(command, defer, timer)] of [RelayServerProtocol.commands]. *)
Record pending := mkPending {
  p_command : Command;
  p_defer : waiter;
  p_timer : timer_id
}.

(** [class RelayServerProtocol] *)
Record RelayServerProtocol := mkRelay {
  ip : string;
  commands : gmap string pending;
  halting : bool;
  timedout : bool;
  disconnect_timer : option timer_id;
  sequence_number : N;
  authenticated : bool
}.

(** [RelayServerProtocol.__init__], with the [ip] that [buildProtocol] sets. *)
Definition RelayServerProtocol_init (addr : string) : RelayServerProtocol :=
  mkRelay addr ∅ false false None 0%N false.

(** [RelayServerProtocol.active] *)
Definition active (self : RelayServerProtocol) : bool :=
  negb (halting self) && negb (timedout self).

(** Why a transport reports the connection as lost. *)
Inductive lost_reason :=
| ConnectionDone
| ConnectionReplaced
| TCPTimedOutError
| OtherReason.

(** What [reactor.callLater] has been asked to call. *)
Inductive delayed_call :=
| CallTimeout (conn : conn_id) (seq : string)
| CallConnectionLost (conn : conn_id) (reason : lost_reason)
| CallDoCleanup (relay : string).

Inductive gather_kind := GSummary | GStatistics.

(** A [DeferredList]: the results received so far, and the management
    connection that waits for the list.  A result [(True, r)] is [Ret r], a
    result [(False, failure)] is [Raise e]. *)
Record gather := mkGather {
  g_kind : gather_kind;
  g_client : client_id;
  g_results : list (option (outcome string))
}.

Inductive log_level := DEBUG | INFO | WARNING | ERROR | EXCEPTION.

Inductive log_msg :=
| LogIssuing (name ip : string)
| LogDecodeError (ip : string)
| LogUnknownExpired (call_id : json) (ip : string)
| LogExpiredElsewhere (call_id : json) (ip relay : string)
| LogRemovedICE (call_id : json) (relay : string)
| LogDidTimeout (call_id : json) (relay : string)
| LogUnexpectedResponse (ip line : string)
| LogGotStatistics (stats : json)
| LogAccountingFailed (sink : nat)
| LogFailure (e : exn)
| LogRelayFailed (conn : conn_id) (e : relay_error)
| LogNotAvailable (relay : string)
| LogReconnected (ip : string)
| LogNoLongerOnRelay (call_id ip : string)
| LogQueryError (ip : string) (e : relay_error)
| LogCleanup (ip : string)
| LogExpiredSessions (count : nat)
| LogConnectionLost (ip : string) (reason : lost_reason)
| LogConnectionFrom (ip : string)
| LogUnknownManagement (line : string)
| LogUnhandledInDeferred (e : exn).

(** What the process does to the outside world. *)
Inductive effect :=
| RelayWrite (conn : conn_id) (data : string)   (* transport.write on a relay *)
| Reply (client : client_id) (line : string)    (* ControlProtocol.reply *)
| EndDialog (dialog : string)                   (* opensips_management.end_dialog *)
| DoAccounting (sink : nat) (stats : json)      (* accounting.do_accounting *)
| LoseConnection (conn : conn_id)               (* transport.loseConnection *)
| Unlink                                        (* unlink(state_file) *)
| Log (level : log_level) (msg : log_msg).

(** Collaborators outside this file: the JSON codec, the pickle codec, the
    accounting modules (a module is represented by the test "does
    [do_accounting] raise on this record"), the configuration and the version
    string of the package. *)
Class Collaborators := {
  cjson_decode : string → option json;
  cjson_encode : json → string;
  pickle_dumps : gmap string RelaySession → string;
  pickle_loads : string → option (gmap string RelaySession);
  accounting : list (json → bool);
  config : DispatcherConfig;
  __version__ : string
}.

Section Dispatcher.

Context `{Collaborators}.

(** The state of the dispatcher process. *)
Record DState := mkState {
  sessions : gmap string RelaySession;      (* RelayFactory.sessions *)
  relays : gmap string conn_id;             (* RelayFactory.relays *)
  cleanup_timers : gmap string timer_id;    (* RelayFactory.cleanup_timers *)
  shutting_down : bool;                     (* RelayFactory.shutting_down *)
  protocols : gmap conn_id RelayServerProtocol;  (* the protocol objects *)
  gathers : gmap gather_id gather;          (* the DeferredLists *)
  reactor : gmap timer_id (Z * delayed_call);   (* pending delayed calls *)
  next_id : nat;                            (* next fresh identifier *)
  state_file : option string;               (* the file dispatcher_state *)
  trace : list effect                       (* effects so far, oldest first *)
}.

Definition with_sessions (f : gmap string RelaySession → gmap string RelaySession)
    (st : DState) : DState :=
  mkState (f (sessions st)) (relays st) (cleanup_timers st) (shutting_down st)
          (protocols st) (gathers st) (reactor st) (next_id st) (state_file st)
          (trace st).

Definition with_relays (f : gmap string conn_id → gmap string conn_id)
    (st : DState) : DState :=
  mkState (sessions st) (f (relays st)) (cleanup_timers st) (shutting_down st)
          (protocols st) (gathers st) (reactor st) (next_id st) (state_file st)
          (trace st).

Definition with_cleanup_timers (f : gmap string timer_id → gmap string timer_id)
    (st : DState) : DState :=
  mkState (sessions st) (relays st) (f (cleanup_timers st)) (shutting_down st)
          (protocols st) (gathers st) (reactor st) (next_id st) (state_file st)
          (trace st).

Definition with_shutting_down (b : bool) (st : DState) : DState :=
  mkState (sessions st) (relays st) (cleanup_timers st) b
          (protocols st) (gathers st) (reactor st) (next_id st) (state_file st)
          (trace st).

Definition with_protocols
    (f : gmap conn_id RelayServerProtocol → gmap conn_id RelayServerProtocol)
    (st : DState) : DState :=
  mkState (sessions st) (relays st) (cleanup_timers st) (shutting_down st)
          (f (protocols st)) (gathers st) (reactor st) (next_id st) (state_file st)
          (trace st).

Definition with_gathers (f : gmap gather_id gather → gmap gather_id gather)
    (st : DState) : DState :=
  mkState (sessions st) (relays st) (cleanup_timers st) (shutting_down st)
          (protocols st) (f (gathers st)) (reactor st) (next_id st) (state_file st)
          (trace st).

Definition with_reactor
    (f : gmap timer_id (Z * delayed_call) → gmap timer_id (Z * delayed_call))
    (st : DState) : DState :=
  mkState (sessions st) (relays st) (cleanup_timers st) (shutting_down st)
          (protocols st) (gathers st) (f (reactor st)) (next_id st) (state_file st)
          (trace st).

Definition with_next_id (n : nat) (st : DState) : DState :=
  mkState (sessions st) (relays st) (cleanup_timers st) (shutting_down st)
          (protocols st) (gathers st) (reactor st) n (state_file st)
          (trace st).

Definition with_state_file (f : option string) (st : DState) : DState :=
  mkState (sessions st) (relays st) (cleanup_timers st) (shutting_down st)
          (protocols st) (gathers st) (reactor st) (next_id st) f
          (trace st).

Definition with_trace (f : list effect → list effect) (st : DState) : DState :=
  mkState (sessions st) (relays st) (cleanup_timers st) (shutting_down st)
          (protocols st) (gathers st) (reactor st) (next_id st) (state_file st)
          (f (trace st)).

(** Append one effect to the trace. *)
Definition emit (e : effect) : DState → DState := with_trace (λ t, (t ++ [e])%list).

Definition log (l : log_level) (m : log_msg) : DState → DState := emit (Log l m).

(** [reactor.callLater(delay, call)] *)
Definition callLater (delay : Z) (call : delayed_call) (st : DState)
  : timer_id * DState :=
  let t := next_id st in
  (t, with_next_id (S t) (with_reactor <[t := (delay, call)]> st)).

(** [timer.cancel()] *)
Definition cancel (t : timer_id) : DState → DState := with_reactor (delete t).

(** [timer.active()] *)
Definition timer_active (t : timer_id) (st : DState) : bool :=
  bool_decide (is_Some (reactor st !! t)).

(** *** The monad of methods: state, and an exception or a result *)

Definition M (A : Type) : Type := DState → outcome A * DState.

Definition ret {A} (a : A) : M A := λ st, (Ret a, st).
Definition raise {A} (e : exn) : M A := λ st, (Raise e, st).
Definition bind {A B} (m : M A) (k : A → M B) : M B := λ st,
  match m st with
  | (Ret a, st') => k a st'
  | (Raise e, st') => (Raise e, st')
  end.
Definition lift {A} (o : outcome A) : M A := λ st, (o, st).
Definition run (f : DState → DState) : M unit := λ st, (Ret tt, f st).

Notation "x <- m ;; k" := (bind m (λ x, k))
  (at level 100, m at next level, right associativity, only parsing).
Notation "m ;; k" := (bind m (λ _, k))
  (at level 100, right associativity, only parsing).

(** *** Updating a protocol object in place *)

Definition set_commands (f : gmap string pending → gmap string pending)
    (r : RelayServerProtocol) : RelayServerProtocol :=
  mkRelay (ip r) (f (commands r)) (halting r) (timedout r) (disconnect_timer r)
          (sequence_number r) (authenticated r).

Definition set_halting (b : bool) (r : RelayServerProtocol) : RelayServerProtocol :=
  mkRelay (ip r) (commands r) b (timedout r) (disconnect_timer r)
          (sequence_number r) (authenticated r).

Definition set_timedout (b : bool) (r : RelayServerProtocol) : RelayServerProtocol :=
  mkRelay (ip r) (commands r) (halting r) b (disconnect_timer r)
          (sequence_number r) (authenticated r).

Definition set_disconnect_timer (t : option timer_id) (r : RelayServerProtocol)
  : RelayServerProtocol :=
  mkRelay (ip r) (commands r) (halting r) (timedout r) t
          (sequence_number r) (authenticated r).

Definition set_sequence_number (n : N) (r : RelayServerProtocol)
  : RelayServerProtocol :=
  mkRelay (ip r) (commands r) (halting r) (timedout r) (disconnect_timer r)
          n (authenticated r).

Definition set_authenticated (b : bool) (r : RelayServerProtocol)
  : RelayServerProtocol :=
  mkRelay (ip r) (commands r) (halting r) (timedout r) (disconnect_timer r)
          (sequence_number r) b.

(** [self.attr = ...] on the protocol object [conn]. *)
Definition update_protocol (conn : conn_id)
    (f : RelayServerProtocol → RelayServerProtocol) : DState → DState :=
  with_protocols (alter f conn).

(** *** Replies and the wire *)

(** [LineOnlyReceiver.delimiter] *)
Definition delimiter : string :=
  String (ascii_of_nat 13) (String (ascii_of_nat 10) EmptyString).

(** [ControlProtocol.reply]: the line is recorded without its delimiter. *)
Definition client_reply (client : client_id) (line : string) : DState → DState :=
  emit (Reply client line).

(** [ControlProtocol._error_handler] followed by [_catch_all]: whatever the
    exception, it is logged and the client is answered [error]. *)
Definition client_failure (client : client_id) (e : exn) (st : DState) : DState :=
  client_reply client "error" (log ERROR (LogFailure e) st).

(** [RelayServerProtocol.reply] *)
Definition relay_reply (conn : conn_id) (line : string) : DState → DState :=
  emit (RelayWrite conn (line ++ delimiter)).

(** The request that [send_command] writes to the relay:
    [delimiter.join(['{} {}'.format(name, seq)] + headers) + 2*delimiter] *)
Definition request_text (command : Command) (seq : string) : string :=
  PyStr.join delimiter ((name command ++ " " ++ seq) :: headers command)
  ++ delimiter ++ delimiter.

(** [RelayServerProtocol.send_command]; [defer] is the chain of callbacks
    that the caller attaches to the deferred it gets back. *)
Definition relay_send_command (conn : conn_id) (command : Command) (defer : waiter)
    (st : DState) : DState :=
  match protocols st !! conn with
  | None => st
  | Some self =>
      let st := log DEBUG (LogIssuing (name command) (ip self)) st in
      let seq := pretty (sequence_number self) in
      let st := update_protocol conn
                  (set_sequence_number (sequence_number self + 1)%N) st in
      let '(timer, st) := callLater (relay_timeout config) (CallTimeout conn seq) st in
      let st := update_protocol conn
                  (set_commands <[seq := mkPending command defer timer]>) st in
      emit (RelayWrite conn (request_text command seq)) st
  end.

(** *** [Dispatcher.update_statistics] *)

(** The loop over [self.accounting]: module number [i] is called, and an
    exception it raises is logged and swallowed. *)
Fixpoint do_accounting_from (i : nat) (sinks : list (json → bool)) (stats : json)
    (st : DState) : DState :=
  match sinks with
  | [] => st
  | sink :: rest =>
      let st := emit (DoAccounting i stats) st in
      let st := if sink stats then log EXCEPTION (LogAccountingFailed i) st else st in
      do_accounting_from (S i) rest stats st
  end.

Definition is_None (v : json) : bool :=
  match v with JNull => true | _ => false end.

Definition update_statistics (stats : json) : M unit :=
  run (log DEBUG (LogGotStatistics stats)) ;;
  start_time <- lift (subscript stats "start_time") ;;
  if negb (is_None start_time)
  then run (do_accounting_from 0 accounting stats)
  else ret tt.

(** *** [DeferredList] and the aggregation callbacks *)

(** [RelayFactory._got_summaries] *)
Definition _got_summaries (results : list (outcome string)) : string :=
  "[" ++ PyStr.join ", "
           (omap (λ r, match r with Ret s => Some s | Raise _ => None end) results)
      ++ "]".

(** [RelayFactory._got_statistics] *)
Definition _got_statistics (results : list (outcome string)) : string :=
  "[" ++ PyStr.join ", "
           (omap (λ r, match r with
                       | Ret s => if String.eqb s "[]" then None
                                  else Some (PyStr.strip_ends s)
                       | Raise _ => None
                       end) results)
      ++ "]".

Definition gather_finish (k : gather_kind) (results : list (outcome string)) : string :=
  match k with
  | GSummary => _got_summaries results
  | GStatistics => _got_statistics results
  end.

(** The deferred at position [index] of the list [g] fired with [r]: the
    result is stored, and when every position is filled the list fires,
    its callback builds the answer and the management protocol replies. *)
Definition DeferredList_result (g : gather_id) (index : nat) (r : outcome string)
    (st : DState) : DState :=
  match gathers st !! g with
  | None => st
  | Some gl =>
      let results := <[index := Some r]> (g_results gl) in
      let st := with_gathers <[g := mkGather (g_kind gl) (g_client gl) results]> st in
      match mapM id results with
      | Some rs => client_reply (g_client gl) (gather_finish (g_kind gl) rs) st
      | None => st
      end
  end.

(** *** The session router: [RelayFactory] *)

(** [RelayFactory._try_next]; the deferred it returns carries the errback
    [_relay_error], and its only caller chain adds [_add_session]. *)
Definition _try_next (try_relays : list conn_id) (command : Command)
    (client : client_id) : M unit :=
  match try_relays with
  | [] => raise (RelayError NoSuitableRelay)
  | relay :: _ =>
      run (relay_send_command relay command (WPlace try_relays command client))
  end.

(** [RelayFactory._add_session].  A command reaches the router through
    [handle_request] only, which refuses one without [call_id]; for such a
    command the table is left as it is. *)
Definition _add_session (try_relays : list conn_id) (command : Command) : M unit :=
  λ st,
  match try_relays with
  | [] => (Raise IndexError, st)
  | relay :: _ =>
      match protocols st !! relay, call_id command with
      | Some protocol, Some k =>
          (Ret tt,
           with_sessions <[k := RelaySession_init (ip protocol) command]> st)
      | _, _ => (Ret tt, st)
      end
  end.

(** [RelayFactory._relay_error] *)
Definition _relay_error (e : relay_error) (try_relays : list conn_id)
    (command : Command) (client : client_id) : M unit :=
  match try_relays with
  | [] => raise IndexError
  | failed_relay :: try_relays' =>
      run (log WARNING (LogRelayFailed failed_relay e)) ;;
      _try_next try_relays' command client
  end.

(** [RelayFactory._summary_error] *)
Definition _summary_error (e : relay_error) (addr : string) : M string :=
  run (log ERROR (LogQueryError addr e)) ;;
  ret (cjson_encode (JObj [("status", JStr "error"); ("ip", JStr addr)])).

(** [RelayFactory._cb_purge_sessions] *)
Definition _cb_purge_sessions (result : string) (relay : string) : M unit :=
  relay_sessions <- lift (match cjson_decode result with
                          | Some v => Ret v
                          | None => Raise DecodeError
                          end) ;;
  items <- lift (py_iter relay_sessions) ;;
  relay_call_ids <- lift (comprehension (λ session, subscript session "call_id") items) ;;
  run (λ st,
    fold_left
      (λ st (entry : string * RelaySession),
         let (session_id, session) := entry in
         if bool_decide (expire_time session = None)
            && String.eqb (relay_ip session) relay
            && negb (existsb (λ v, json_eq_str v session_id) relay_call_ids)
         then
           let st := log WARNING (LogNoLongerOnRelay session_id relay) st in
           let st := match dialog_id session with
                     | Some d => emit (EndDialog d) st
                     | None => st
                     end in
           with_sessions (delete session_id) st
         else st)
      (map_to_list (sessions st)) st).

(** The deferred with the callbacks [defer] fails with a RelayError.  An
    exception that leaves the last callback of a chain stays in the
    deferred and is only logged. *)
Definition errback (defer : waiter) (e : relay_error) (st : DState) : DState :=
  match defer with
  | WReply client => client_failure client (RelayError e) st
  | WPlace try_relays command client =>
      match _relay_error e try_relays command client st with
      | (Ret _, st') => st'
      | (Raise e', st') => client_failure client e' st'
      end
  | WPurge _ => log ERROR (LogUnhandledInDeferred (RelayError e)) st
  | WSummary g index addr =>
      match _summary_error e addr st with
      | (r, st') => DeferredList_result g index r st'
      end
  | WStatistics g index => DeferredList_result g index (Raise (RelayError e)) st
  end.

(** The deferred with the callbacks [defer] succeeds with [result]. *)
Definition callback (defer : waiter) (result : string) (st : DState) : DState :=
  match defer with
  | WReply client => client_reply client result st
  | WPlace try_relays command client =>
      match _add_session try_relays command st with
      | (Ret _, st') => client_reply client result st'
      | (Raise e', st') => client_failure client e' st'
      end
  | WPurge relay =>
      match _cb_purge_sessions result relay st with
      | (Ret _, st') => st'
      | (Raise e', st') => log ERROR (LogUnhandledInDeferred e') st'
      end
  | WSummary g index _ => DeferredList_result g index (Ret result) st
  | WStatistics g index => DeferredList_result g index (Ret result) st
  end.

(** The connections of the registry that [send_command] puts in the deque:
    [protocol.active and protocol.ip != preferred_relay]. *)
Definition is_candidate (st : DState) (preferred_relay : option string)
    (conn : conn_id) : bool :=
  match protocols st !! conn with
  | Some protocol =>
      active protocol && negb (bool_decide (preferred_relay = Some (ip protocol)))
  | None => false
  end.

(** [self.relays.itervalues()] *)
Definition itervalues (st : DState) : list conn_id := (map_to_list (relays st)).*2.

(** [RelayFactory.send_command].  The result is [Some s] when the method
    returns the string [s] and [None] when it returns a deferred, whose
    callbacks answer [client]; [rnd] is the random source of [shuffle]. *)
Definition RelayFactory_send_command (rnd : nat → nat) (client : client_id)
    (command : Command) : M (option string) := λ st,
  let session := call_id command ≫= (λ k, sessions st !! k) in
  match session with
  | Some (mkSession relay _ None) =>
      match relays st !! relay with
      | None => (Raise (RelayError (RelayNoLongerConnected relay)), st)
      | Some conn => (Ret None, relay_send_command conn command (WReply client) st)
      end
  | _ =>
      (* no session for this call_id, or the session is already expired *)
      if String.eqb (name command) "update" then
        let preferred_relay := parsed_headers command !! "media_relay" in
        let try_relays := filter (λ c, is_candidate st preferred_relay c = true)
                                 (itervalues st) in
        let try_relays := PyRandom.shuffle rnd try_relays in
        let '(try_relays, st) :=
          match preferred_relay with
          | Some preferred =>
              match relays st !! preferred ≫= (λ c, (λ p, (c, p)) <$> protocols st !! c) with
              | Some (conn, protocol) =>
                  if active protocol then (conn :: try_relays, st)
                  else (try_relays, log WARNING (LogNotAvailable preferred) st)
              | None => (try_relays, log WARNING (LogNotAvailable preferred) st)
              end
          | None => (try_relays, st)
          end in
        match _try_next try_relays command client st with
        | (Ret _, st') => (Ret None, st')
        | (Raise e, st') => (Raise e, st')
        end
      else if String.eqb (name command) "remove" && bool_decide (is_Some session) then
        (Ret (Some "removed"),
         match call_id command with
         | Some k => with_sessions (delete k) st
         | None => st
         end)
      else
        (Raise (RelayError (UnknownSession (name command)
                              (default "None" (call_id command)))), st)
  end.

(** *** The relay protocol: [RelayServerProtocol] *)

(** The [expired] branch of [lineReceived], after the payload decoded. *)
Definition expired (self : RelayServerProtocol) (now : Z) (stats : json) : M unit :=
  call_id <- lift (subscript stats "call_id") ;;
  key <- lift (session_key call_id) ;;
  st <- (λ st, (Ret st, st)) ;;
  match key ≫= (λ k, (λ s, (k, s)) <$> sessions st !! k) with
  | None => run (log ERROR (LogUnknownExpired call_id (ip self)))
  | Some (k, session) =>
      if negb (String.eqb (relay_ip session) (ip self)) then
        run (log ERROR (LogExpiredElsewhere call_id (ip self) (relay_ip session)))
      else
        streams <- lift (subscript stats "streams") ;;
        items <- lift (py_iter streams) ;;
        all_streams_ice <- lift (all_unselected_ice items) ;;
        run (log INFO (if (all_streams_ice : bool)
                       then LogRemovedICE call_id (relay_ip session)
                       else LogDidTimeout call_id (relay_ip session))) ;;
        stats <- lift (set_item stats "timed_out" (JBool (negb all_streams_ice))) ;;
        stats <- lift (set_item stats "dialog_id" (json_of_option (dialog_id session))) ;;
        stats <- lift (set_item stats "all_streams_ice" (JBool all_streams_ice)) ;;
        update_statistics stats ;;
        match dialog_id session with
        | Some dialog =>
            start_time <- lift (subscript stats "start_time") ;;
            if negb (is_None start_time) && negb all_streams_ice then
              run (emit (EndDialog dialog)) ;;
              run (with_sessions
                     <[k := mkSession (relay_ip session) (dialog_id session) (Some now)]>)
            else run (with_sessions (delete k))
        | None => run (with_sessions (delete k))
        end
  end.

(** The [remove] branch of [lineReceived], after the response decoded. *)
Definition removed (stats : json) : M unit :=
  call_id <- lift (subscript stats "call_id") ;;
  key <- lift (session_key call_id) ;;
  st <- (λ st, (Ret st, st)) ;;
  match key ≫= (λ k, (λ s, (k, s)) <$> sessions st !! k) with
  | None => raise (KeyError call_id)
  | Some (k, session) =>
      stats <- lift (set_item stats "dialog_id" (json_of_option (dialog_id session))) ;;
      stats <- lift (set_item stats "timed_out" (JBool false)) ;;
      update_statistics stats ;;
      run (with_sessions (delete k))
  end.

(** [RelayServerProtocol.lineReceived] on the connection [conn]; [now] is
    what [time()] returns. *)
Definition lineReceived (conn : conn_id) (now : Z) (line : string) : M unit := λ st,
  match protocols st !! conn with
  | None => (Ret tt, st)
  | Some self =>
      let (first, rest) := match PyStr.split1 " " line with
                           | Some p => p
                           | None => (line, EmptyString)
                           end in
      if String.eqb first "expired" then
        match cjson_decode rest with
        | None => (Ret tt, log ERROR (LogDecodeError (ip self)) st)
        | Some stats => expired self now stats st
        end
      else if String.eqb first "ping" then
        ((if timedout self then
            run (update_protocol conn (set_timedout false)) ;;
            match disconnect_timer self with
            | None => raise AttributeError
            | Some t => run (λ st, if timer_active t st then cancel t st else st)
            end ;;
            run (update_protocol conn (set_disconnect_timer None))
          else ret tt) ;;
         run (relay_reply conn "pong")) st
      else
        match commands self !! first with
        | None => (Ret tt, log ERROR (LogUnexpectedResponse (ip self) line) st)
        | Some (mkPending command defer timer) =>
            let st := update_protocol conn (set_commands (delete first)) st in
            let st := cancel timer st in
            if String.eqb rest "error" then
              (Ret tt, errback defer (RelayReturnedError (ip self) (name command)) st)
            else if String.eqb rest "halting" then
              let st := update_protocol conn (set_halting true) st in
              (Ret tt, errback defer (RelayShuttingDown (ip self)) st)
            else if String.eqb (name command) "remove" then
              match cjson_decode rest with
              | None =>
                  (Ret tt,
                   callback defer "removed" (log ERROR (LogDecodeError (ip self)) st))
              | Some stats =>
                  match removed stats st with
                  | (Ret _, st') => (Ret tt, callback defer "removed" st')
                  | (Raise e, st') => (Raise e, st')
                  end
              end
            else (* update command *)
              (Ret tt, callback defer rest st)
        end
  end.

(** [RelayServerProtocol._timeout], called by the reactor when the timer of
    the request [seq] expires. *)
Definition _timeout (conn : conn_id) (seq : string) : M unit := λ st,
  match protocols st !! conn with
  | None => (Ret tt, st)
  | Some self =>
      match commands self !! seq with
      | None => (Raise (KeyError (JStr seq)), st)
      | Some (mkPending command defer timer) =>
          let st := update_protocol conn (set_commands (delete seq)) st in
          let st := errback defer (RelayTimedOut (name command) (ip self)) st in
          match timedout <$> protocols st !! conn with
          | Some false =>
              let st := update_protocol conn (set_timedout true) st in
              let '(t, st) := callLater (relay_recover_interval config)
                                (CallConnectionLost conn TCPTimedOutError) st in
              (Ret tt, update_protocol conn (set_disconnect_timer (Some t)) st)
          | _ => (Ret tt, st)
          end
      end
  end.

(** [RelayFactory._save_state] *)
Definition _save_state (st : DState) : DState :=
  with_state_file (Some (pickle_dumps (sessions st))) st.

(** [RelayFactory.connection_lost] *)
Definition connection_lost (relay : conn_id) (st : DState) : DState :=
  match protocols st !! relay with
  | None => st
  | Some protocol =>
      if bool_decide (relay ∈ itervalues st) then
        let st := if authenticated protocol
                  then with_relays (delete (ip protocol)) st
                  else st in
        if shutting_down st then
          if bool_decide (size (relays st) = 0) then _save_state st else st
        else
          let '(t, st) := callLater (cleanup_dead_relays_after config)
                            (CallDoCleanup (ip protocol)) st in
          with_cleanup_timers <[ip protocol := t]> st
      else st
  end.

(** [RelayServerProtocol.connectionLost] *)
Definition connectionLost (conn : conn_id) (reason : lost_reason) : M unit := λ st,
  match protocols st !! conn with
  | None => (Ret tt, st)
  | Some self =>
      let st := log (match reason with
                     | ConnectionDone => INFO
                     | ConnectionReplaced => WARNING
                     | _ => ERROR
                     end) (LogConnectionLost (ip self) reason) st in
      let st := fold_left
                  (λ st (p : pending),
                     errback (p_defer p)
                             (RelayDisconnected (name (p_command p)) (ip self))
                             (cancel (p_timer p) st))
                  ((map_to_list (commands self)).*2) st in
      match protocols st !! conn with
      | None => (Ret tt, st)
      | Some self =>
          ((if timedout self then
              run (update_protocol conn (set_timedout false)) ;;
              match disconnect_timer self with
              | None => raise AttributeError
              | Some t => run (λ st, if timer_active t st then cancel t st else st)
              end ;;
              run (update_protocol conn (set_disconnect_timer None))
            else ret tt) ;;
           run (connection_lost conn)) st
      end
  end.

(** [RelayFactory.buildProtocol]: a new protocol object for a connection
    from [addr]. *)
Definition buildProtocol (addr : string) (st : DState) : conn_id * DState :=
  let st := log DEBUG (LogConnectionFrom addr) st in
  let conn := next_id st in
  (conn,
   with_next_id (S conn)
     (with_protocols <[conn := RelayServerProtocol_init addr]> st)).

(** [RelayFactory.new_relay] *)
Definition new_relay (relay : conn_id) (st : DState) : DState :=
  match protocols st !! relay with
  | None => st
  | Some protocol =>
      let old_relay := relays st !! ip protocol in
      let st := with_relays (delete (ip protocol)) st in
      let st := match old_relay with
                | Some old =>
                    let st := log WARNING (LogReconnected (ip protocol)) st in
                    (callLater 0 (CallConnectionLost old ConnectionReplaced) st).2
                | None => st
                end in
      let st := with_relays <[ip protocol := relay]> st in
      let timer := cleanup_timers st !! ip protocol in
      let st := with_cleanup_timers (delete (ip protocol)) st in
      let st := match timer with
                | Some t => cancel t st
                | None => st
                end in
      relay_send_command relay (mkCommand "sessions" [] ∅) (WPurge (ip protocol)) st
  end.

(** [RelayServerProtocol.connectionMade]; [accepted] tells whether there is
    no passport or the passport accepts the peer certificate. *)
Definition connectionMade (conn : conn_id) (accepted : bool) (st : DState) : DState :=
  if accepted then
    new_relay conn (update_protocol conn (set_authenticated true) st)
  else emit (LoseConnection conn) st.

(** [RelayFactory._do_cleanup] *)
Definition _do_cleanup (addr : string) : M unit := λ st,
  let st := log DEBUG (LogCleanup addr) st in
  match cleanup_timers st !! addr with
  | None => (Raise (KeyError (JStr addr)), st)
  | Some _ =>
      let st := with_cleanup_timers (delete addr) st in
      (Ret tt,
       with_sessions (filter (λ kv, relay_ip kv.2 ≠ addr)) st)
  end.

(** [RelayFactory._remove_expired_sessions]; [now] is what [time()]
    returns.  A Python number is true when it is not zero. *)
Definition obsolete (now : Z) (s : RelaySession) : bool :=
  match expire_time s with
  | Some t => negb (t =? 0)%Z
              && (cleanup_expired_sessions_after config <=? now - t)%Z
  | None => false
  end.

Definition _remove_expired_sessions (now : Z) (st : DState) : DState :=
  let gone := filter (λ kv, obsolete now kv.2 = true) (sessions st) in
  if bool_decide (size gone = 0) then st
  else log WARNING (LogExpiredSessions (size gone))
         (with_sessions (filter (λ kv, obsolete now kv.2 ≠ true)) st).

(** The reactor makes the delayed call [t], whose delay has elapsed. *)
Definition fire (t : timer_id) : M unit := λ st,
  match reactor st !! t with
  | None => (Ret tt, st)
  | Some (_, call) =>
      let st := with_reactor (delete t) st in
      match call with
      | CallTimeout conn seq => _timeout conn seq st
      | CallConnectionLost conn reason => connectionLost conn reason st
      | CallDoCleanup addr => _do_cleanup addr st
      end
  end.

(** The list comprehension of [get_summary] and [get_statistics]: the
    command [nm] is sent on every connection of [self.relays.iteritems()],
    and the deferred of the connection at position [i] becomes entry [i]
    of the [DeferredList] [g]. *)
Definition fan_out (nm : string) (mk : nat → string → waiter)
    (items : list (string * conn_id)) (st : DState) : DState :=
  fold_left
    (λ st (entry : nat * (string * conn_id)),
       let '(i, (addr, relay)) := entry in
       relay_send_command relay (mkCommand nm [] ∅) (mk i addr) st)
    (imap (λ i x, (i, x)) items) st.

(** A [DeferredList] over [n] deferreds whose result goes to [client]; an
    empty list fires at once. *)
Definition DeferredList (k : gather_kind) (client : client_id) (n : nat)
    (st : DState) : gather_id * DState :=
  let g := next_id st in
  (g, with_next_id (S g)
        (with_gathers <[g := mkGather k client (replicate n None)]> st)).

(** [RelayFactory.get_summary], called for the management connection
    [client] *)
Definition get_summary (client : client_id) (st : DState) : DState :=
  let items := map_to_list (relays st) in
  let '(g, st) := DeferredList GSummary client (length items) st in
  let st := fan_out "summary" (λ i addr, WSummary g i addr) items st in
  match items with
  | [] => client_reply client (_got_summaries []) st
  | _ => st
  end.

(** [RelayFactory.get_statistics] *)
Definition get_statistics (client : client_id) (st : DState) : DState :=
  let items := map_to_list (relays st) in
  let '(g, st) := DeferredList GStatistics client (length items) st in
  let st := fan_out "sessions" (λ i _, WStatistics g i) items st in
  match items with
  | [] => client_reply client (_got_statistics []) st
  | _ => st
  end.

(** [RelayFactory.shutdown] *)
Definition shutdown (st : DState) : DState :=
  if shutting_down st then st
  else
    let st := with_shutting_down true st in
    let st := fold_left (λ st t, cancel t st)
                        ((map_to_list (cleanup_timers st)).*2) st in
    if bool_decide (size (relays st) = 0) then _save_state st
    else fold_left (λ st conn, emit (LoseConnection conn) st) (itervalues st) st.

(** [RelayFactory.__init__], given what the file [dispatcher_state] holds
    ([None] when there is no such file).  [open] or [pickle.load] failing
    is [pickle_loads] returning nothing. *)
Definition RelayFactory_init (file : option string) : DState :=
  let st := mkState ∅ ∅ ∅ false ∅ ∅ ∅ 0 file [] in
  let st :=
    match file ≫= pickle_loads with
    | None => st
    | Some loaded =>
        let st := with_sessions (λ _, loaded) st in
        let addrs : gset string :=
          list_to_set ((λ kv, relay_ip kv.2) <$> map_to_list loaded) in
        fold_left
          (λ st addr,
             let '(t, st) := callLater (cleanup_dead_relays_after config)
                               (CallDoCleanup addr) st in
             with_cleanup_timers <[addr := t]> st)
          (elements addrs) st
    end in
  emit Unlink (with_state_file None st).

(** *** Request ingress *)

(** [str.endswith] *)
Fixpoint endswith (s suffix : string) : bool :=
  String.eqb s suffix
  || match s with
     | EmptyString => false
     | String _ s' => endswith s' suffix
     end.

(** [OpenSIPSControlProtocol.lineReceived] on a protocol object whose
    [request_lines] is [request_lines]: the result is [request_lines]
    afterwards, and the block that goes to [handle_request], if the line
    completes one. *)
Definition opensips_lineReceived (request_lines : list string) (line : string)
  : list string * option (list string) :=
  if String.eqb line "" then
    match request_lines with
    | [] => (request_lines, None)
    | _ => ([], Some request_lines)
    end
  else if negb (endswith line ": ") then (request_lines ++ [line], None)%list
  else (request_lines, None).

(** The lines [lines] arrive one after the other: [request_lines]
    afterwards, and the blocks that went to [handle_request], in order. *)
Definition opensips_lines (lines : list string) (request_lines : list string)
  : list string * list (list string) :=
  fold_left
    (λ (acc : list string * list (list string)) line,
       let '(buffer, blocks) := acc in
       match opensips_lineReceived buffer line with
       | (buffer', Some block) => (buffer', blocks ++ [block])
       | (buffer', None) => (buffer', blocks)
       end%list)
    lines (request_lines, []).

(** [OpenSIPSControlProtocol.handle_request] *)
Definition handle_request (rnd : nat → nat) (client : client_id)
    (request_lines : list string) : M (option string) :=
  match request_lines with
  | [] => raise IndexError
  | nm :: hdrs =>
      command <- lift (Command_init nm hdrs) ;;
      match call_id command with
      | None => raise (CommandError MissingCallId)
      | Some _ => RelayFactory_send_command rnd client command
      end
  end.

(** A complete request block arrived on the OpenSIPS connection [client]:
    [maybeDeferred(handle_request)] and [_add_callbacks]. *)
Definition request_received (rnd : nat → nat) (client : client_id)
    (request_lines : list string) (st : DState) : DState :=
  match handle_request rnd client request_lines st with
  | (Ret (Some result), st') => client_reply client result st'
  | (Ret None, st') => st'
  | (Raise e, st') => client_failure client e st'
  end.

(** [ManagementControlProtocol.lineReceived]; closing the connection on
    [quit] and [exit] leaves the dispatcher state as it is. *)
Definition management_lineReceived (client : client_id) (line : string)
    (st : DState) : DState :=
  if String.eqb line "quit" || String.eqb line "exit" then st
  else if String.eqb line "summary" then get_summary client st
  else if String.eqb line "sessions" then get_statistics client st
  else if String.eqb line "version" then client_reply client __version__ st
  else client_reply client "error" (log ERROR (LogUnknownManagement line) st).

(** *** The event loop *)

(** What the reactor delivers to the dispatcher. *)
Inductive event :=
| Request (client : client_id) (rnd : nat → nat) (request_lines : list string)
    (* a request block is complete on an OpenSIPS connection *)
| Management (client : client_id) (line : string)
    (* a line on a management connection *)
| Connect (addr : string) (accepted : bool)
    (* a relay at [addr] connects; its certificate is accepted or not *)
| Line (conn : conn_id) (now : Z) (line : string)
    (* a line from a relay, at time [now] *)
| Lost (conn : conn_id) (reason : lost_reason)
    (* the transport of a relay is lost *)
| Timer (t : timer_id)
    (* the delay of a delayed call has elapsed *)
| Sweep (now : Z)
    (* the recurrent call of [_remove_expired_sessions] *)
| Shutdown.
    (* [RelayFactory.shutdown] *)

(** An exception that leaves a handler reaches the reactor, which logs it. *)
Definition logged {A} (r : outcome A * DState) : DState :=
  match r with
  | (Ret _, st) => st
  | (Raise e, st) => log ERROR (LogFailure e) st
  end.

(** The dispatcher under the reactor: its state, and the relay connections
    whose transport has reported [connectionLost]. *)
Record Process := mkProcess {
  dispatcher : DState;
  closed : gset conn_id
}.

(** The transport of [conn] exists and has not been lost. *)
Definition is_open (w : Process) (conn : conn_id) : bool :=
  bool_decide (is_Some (protocols (dispatcher w) !! conn))
  && bool_decide (conn ∉ closed w).

(** The transport of [conn] reports [connectionLost], in the state [st]. *)
Definition lose (conn : conn_id) (reason : lost_reason) (w : Process) (st : DState)
  : Process :=
  mkProcess (logged (connectionLost conn reason st)) ({[conn]} ∪ closed w).

(** One turn of the event loop.  A transport that is lost delivers nothing
    more to its protocol.  An exception that leaves [lineReceived] is logged
    by the reactor, which then drops the connection.  [Dispatcher._shutdown]
    stops the listeners before it calls [RelayFactory.shutdown], so that no
    relay connects afterwards. *)
Definition step (ev : event) (w : Process) : Process :=
  let st := dispatcher w in
  match ev with
  | Request client rnd request_lines =>
      mkProcess (request_received rnd client request_lines st) (closed w)
  | Management client line =>
      mkProcess (management_lineReceived client line st) (closed w)
  | Connect addr accepted =>
      if shutting_down st then w
      else
        let '(conn, st) := buildProtocol addr st in
        mkProcess (connectionMade conn accepted st) (closed w)
  | Line conn now line =>
      if is_open w conn then
        match lineReceived conn now line st with
        | (Ret _, st') => mkProcess st' (closed w)
        | (Raise e, st') => lose conn OtherReason w (log ERROR (LogFailure e) st')
        end
      else w
  | Lost conn reason =>
      if is_open w conn then lose conn reason w st else w
  | Timer t =>
      match reactor st !! t with
      | Some (_, CallConnectionLost conn _) =>
          if is_open w conn
          then mkProcess (logged (fire t st)) ({[conn]} ∪ closed w)
          else mkProcess (with_reactor (delete t) st) (closed w)
      | _ => mkProcess (logged (fire t st)) (closed w)
      end
  | Sweep now => mkProcess (_remove_expired_sessions now st) (closed w)
  | Shutdown => mkProcess (shutdown st) (closed w)
  end.

(** The dispatcher starts with the state file [file]. *)
Definition start (file : option string) : Process :=
  mkProcess (RelayFactory_init file) ∅.

(** The process after the events [events]. *)
Definition run_events (file : option string) (events : list event) : Process :=
  fold_left (λ w ev, step ev w) events (start file).

End Dispatcher.

(** * Observations on states and traces *)

Open Scope list_scope.
Open Scope nat_scope.

(** The accounting calls among some effects, in order. *)
Definition accounting_calls (effects : list effect) : list (nat * json) :=
  omap (λ e, match e with DoAccounting i stats => Some (i, stats) | _ => None end)
       effects.

(** The dialogs that the OpenSIPS management interface is asked to end. *)
Definition end_dialogs (effects : list effect) : list string :=
  omap (λ e, match e with EndDialog d => Some d | _ => None end) effects.


(** What the loop over the accounting modules can emit. *)
Definition accounting_effect (e : effect) : Prop :=
  match e with
  | DoAccounting _ _ | Log EXCEPTION (LogAccountingFailed _) => True
  | _ => False
  end.

(** [stream_info['status'] == 'unselected ICE candidate'] on a stream that
    has a status *)
Definition unselected_ice (stream_info : json) : bool :=
  match subscript stream_info "status" with
  | Ret status => json_eq_str status "unselected ICE candidate"
  | Raise _ => false
  end.

Definition has_status (stream_info : json) : Prop :=
  ∃ status, subscript stream_info "status" = Ret status.

(** What is written to relays, in order. *)
Definition relay_writes (effects : list effect) : list (nat * string) :=
  omap (λ e, match e with RelayWrite conn data => Some (conn, data) | _ => None end)
       effects.

(** A string of decimal digits, as [str] of a sequence number is. *)
Fixpoint all_digits (s : string) : bool :=
  match s with
  | EmptyString => true
  | String c s' =>
      (if decide (c ∈ ["0"; "1"; "2"; "3"; "4"; "5"; "6"; "7"; "8"; "9"]%char)
       then true else false) && all_digits s'
  end.

Section Observations.

Context `{Collaborators}.

(** The state after [send_command] on a connection that exists: the
    request gets the next sequence number of the connection, a timer of
    [relay_timeout] seconds, an entry in [commands], and is written to the
    relay. *)
Definition sent (conn : conn_id) (command : Command) (defer : waiter)
    (p : RelayServerProtocol) (st : DState) : DState :=
  let seq := pretty (sequence_number p) in
  mkState (sessions st) (relays st) (cleanup_timers st) (shutting_down st)
    (<[conn := mkRelay (ip p)
                 (<[seq := mkPending command defer (next_id st)]> (commands p))
                 (halting p) (timedout p) (disconnect_timer p)
                 (sequence_number p + 1)%N (authenticated p)]> (protocols st))
    (gathers st)
    (<[next_id st := (relay_timeout config, CallTimeout conn seq)]> (reactor st))
    (S (next_id st)) (state_file st)
    (trace st ++ [Log DEBUG (LogIssuing (name command) (ip p));
                  RelayWrite conn (request_text command seq)]).



(** The record that the [remove] branch of [lineReceived] hands to
    [update_statistics]: the payload with [dialog_id] and [timed_out]
    set. *)
Definition removal_record (d : list (string * json)) (session : RelaySession)
  : json :=
  JObj (PyDict.set "timed_out" (JBool false)
          (PyDict.set "dialog_id" (json_of_option (dialog_id session)) d)).

(** *** Placing an [update] *)

(** The registry maps an address to a connection from that address, which
    is authenticated. *)
Definition registry_wf (st : DState) : Prop :=
  ∀ addr conn, relays st !! addr = Some conn →
    ∃ p, protocols st !! conn = Some p ∧ ip p = addr ∧ authenticated p = true.

(** The connection [conn] is registered and active. *)
Definition registered_active (st : DState) (conn : conn_id) : Prop :=
  ∃ addr p, relays st !! addr = Some conn ∧ protocols st !! conn = Some p
            ∧ active p = true.

(** The connection of the relay that the [media_relay] header names, when
    that relay is registered and active. *)
Definition preferred_candidate (st : DState) (command : Command) : option conn_id :=
  match parsed_headers command !! "media_relay" with
  | Some preferred =>
      match relays st !! preferred with
      | Some conn =>
          match protocols st !! conn with
          | Some protocol => if active protocol then Some conn else None
          | None => None
          end
      | None => None
      end
  | None => None
  end.

(** The active connections of the registry other than the one of the
    [media_relay] header, in the order of the registry. *)
Definition other_candidates (st : DState) (command : Command) : list conn_id :=
  filter (λ c, is_candidate st (parsed_headers command !! "media_relay") c = true)
         (itervalues st).

(** The candidate list: the preferred relay if it is available, then the
    others in the order that [shuffle] gives them. *)
Definition candidates (rnd : nat → nat) (command : Command) (st : DState)
  : list conn_id :=
  option_list (preferred_candidate st command)
  ++ PyRandom.shuffle rnd (other_candidates st command).

(** The warning that [send_command] logs when the [media_relay] header names
    a relay that is not available. *)
Definition warned (command : Command) (st : DState) : DState :=
  match parsed_headers command !! "media_relay", preferred_candidate st command with
  | Some preferred, None => log WARNING (LogNotAvailable preferred) st
  | _, _ => st
  end.

(** What a relay does with a request. *)
Inductive answer :=
| Body (body : string)    (* it answers [<seq> <body>] *)
| Error                   (* it answers [<seq> error] *)
| Halting                 (* it answers [<seq> halting] *)
| Silence.                (* it does not answer, and the timer of the request expires *)

Definition failure (a : answer) : Prop :=
  match a with
  | Body _ => False
  | _ => True
  end.

(** The latest request sent on [conn], if it is still pending. *)
Definition last_request (st : DState) (conn : conn_id) : option (N * pending) :=
  match protocols st !! conn with
  | Some p =>
      let n := (sequence_number p - 1)%N in
      (λ e, (n, e)) <$> commands p !! pretty n
  | None => None
  end.

(** The event by which the answer [a] to the request [n] of [conn], whose
    timer is [t], reaches the dispatcher. *)
Definition deliver (conn : conn_id) (n : N) (t : timer_id) (a : answer) (now : Z)
    (st : DState) : DState :=
  match a with
  | Body body => (lineReceived conn now (pretty n +:+ " " +:+ body) st).2
  | Error => (lineReceived conn now (pretty n +:+ " " +:+ "error") st).2
  | Halting => (lineReceived conn now (pretty n +:+ " " +:+ "halting") st).2
  | Silence => (fire t st).2
  end.

(** The relays of [try_relays] answer, one after the other, the request that
    each of them was sent last; the run stops at the first body. *)
Fixpoint failover (now : Z) (answers : list answer) (try_relays : list conn_id)
    (st : DState) : DState :=
  match answers, try_relays with
  | a :: answers', conn :: try_relays' =>
      match last_request st conn with
      | Some (n, e) =>
          let st' := deliver conn n (p_timer e) a now st in
          match a with
          | Body _ => st'
          | _ => failover now answers' try_relays' st'
          end
      | None => st
      end
  | _, _ => st
  end.

(** The [update] [command] of [client] is being tried on the head of
    [try_relays]: it is the latest request of that connection, its callbacks
    are those of the placement, and its timer is running. *)
Definition placing (command : Command) (client : client_id)
    (try_relays : list conn_id) (st : DState) : Prop :=
  match try_relays with
  | [] => True
  | conn :: _ =>
      ∃ p n t,
        protocols st !! conn = Some p
        ∧ sequence_number p = (n + 1)%N
        ∧ commands p !! pretty n
          = Some (mkPending command (WPlace try_relays command client) t)
        ∧ reactor st !! t = Some (relay_timeout config, CallTimeout conn (pretty n))
        ∧ t < next_id st
  end.

(** Every connection of [try_relays] exists, and comes from the address
    that [addr_of] gives. *)
Definition connected (addr_of : conn_id → string) (try_relays : list conn_id)
    (st : DState) : Prop :=
  ∀ conn, conn ∈ try_relays →
    ∃ p, protocols st !! conn = Some p ∧ ip p = addr_of conn.

(** The connections that were written to, in order. *)
Definition written (st : DState) : list conn_id := (relay_writes (trace st)).*1.

(** *** Aggregation *)

(** The command that an aggregation sends to the relays. *)
Definition command_of (k : gather_kind) : Command :=
  mkCommand (match k with GSummary => "summary" | GStatistics => "sessions" end) [] ∅.

(** The callbacks of the deferred at position [index] of the list [g]. *)
Definition waiter_of (k : gather_kind) (g : gather_id) (index : nat) (addr : string)
  : waiter :=
  match k with
  | GSummary => WSummary g index addr
  | GStatistics => WStatistics g index
  end.

(** [get_summary] or [get_statistics] *)
Definition aggregate (k : gather_kind) (client : client_id) (st : DState) : DState :=
  match k with
  | GSummary => get_summary client st
  | GStatistics => get_statistics client st
  end.

(** An answer with a body: the body is neither [error] nor [halting]. *)
Definition proper (a : answer) : Prop :=
  match a with
  | Body body => body ≠ "error" ∧ body ≠ "halting"
  | _ => True
  end.

(** What the answer [a] of the relay at [addr] contributes to the reply: for
    a summary, its body, or an object with an error status if it fails; for
    the sessions, the inside of its list if it is not empty, and nothing if
    it fails. *)
Definition contribution (k : gather_kind) (addr : string) (a : answer)
  : option string :=
  match a, k with
  | Body body, GSummary => Some body
  | Body body, GStatistics =>
      if String.eqb body "[]" then None else Some (PyStr.strip_ends body)
  | _, GSummary =>
      Some (cjson_encode (JObj [("status", JStr "error"); ("ip", JStr addr)]))
  | _, GStatistics => None
  end.

(** The reply: the contributions, joined into one list. *)
Definition aggregated_reply (k : gather_kind) (items : list (string * conn_id))
    (answers : list answer) : string :=
  "[" +:+ PyStr.join ", "
            (omap (λ ia : (string * conn_id) * answer, contribution k ia.1.1 ia.2)
                  (zip items answers))
      +:+ "]".

(** The result that the answer [a] of the relay at [addr] leaves in the
    [DeferredList]. *)
Definition result_matches (k : gather_kind) (addr : string) (a : answer)
    (r : outcome string) : Prop :=
  match a, k with
  | Body body, _ => r = Ret body
  | _, GSummary =>
      r = Ret (cjson_encode (JObj [("status", JStr "error"); ("ip", JStr addr)]))
  | _, GStatistics => ∃ e, r = Raise e
  end.

(** Every relay answers the request that it was sent last, in the order of
    [conns]. *)
Fixpoint answer_all (now : Z) (answers : list answer) (conns : list conn_id)
    (st : DState) : DState :=
  match answers, conns with
  | a :: answers', conn :: conns' =>
      match last_request st conn with
      | Some (n, e) =>
          answer_all now answers' conns' (deliver conn n (p_timer e) a now st)
      | None => st
      end
  | _, _ => st
  end.

(** The request number [index] of an aggregation is the latest request of
    the connection [conn] from [addr], and its timer is running. *)
Definition requested (k : gather_kind) (g : gather_id) (index : nat)
    (addr : string) (conn : conn_id) (st : DState) : Prop :=
  ∃ p n t,
    protocols st !! conn = Some p
    ∧ ip p = addr
    ∧ sequence_number p = (n + 1)%N
    ∧ commands p !! pretty n
      = Some (mkPending (command_of k) (waiter_of k g index addr) t)
    ∧ reactor st !! t = Some (relay_timeout config, CallTimeout conn (pretty n))
    ∧ t < next_id st.

(** The [DeferredList] [g] has the results [done] of its first deferreds
    and waits for the relays of [todo]. *)
Definition awaiting (k : gather_kind) (g : gather_id) (client : client_id)
    (done : list (outcome string)) (todo : list (string * conn_id))
    (st : DState) : Prop :=
  gathers st !! g
  = Some (mkGather k client ((Some <$> done) ++ replicate (length todo) None))
  ∧ ∀ j addr conn, todo !! j = Some (addr, conn) →
      requested k g (length done + j) addr conn st.

(** The sequence number that the next request of [conn] gets. *)
Definition next_seq (st : DState) (conn : conn_id) : string :=
  match protocols st !! conn with
  | Some p => pretty (sequence_number p)
  | None => EmptyString
  end.

(** A cleanup timer is armed for [addr]: [cleanup_timers] holds a delayed
    call that the reactor will make to [_do_cleanup addr] after
    [cleanup_dead_relays_after] seconds. *)
Definition cleanup_armed (st : DState) (addr : string) : Prop :=
  ∃ t, cleanup_timers st !! addr = Some t
       ∧ reactor st !! t = Some (cleanup_dead_relays_after config, CallDoCleanup addr).

(** Every entry of [cleanup_timers] is an armed timer, and the identifiers
    in use are below [next_id]. *)
Definition timers_ok (st : DState) : Prop :=
  (∀ addr t, cleanup_timers st !! addr = Some t →
             reactor st !! t
             = Some (cleanup_dead_relays_after config, CallDoCleanup addr))
  ∧ (∀ t, is_Some (reactor st !! t) → t < next_id st).

(** Some session of the table is pinned to [addr]. *)
Definition referenced (table : gmap string RelaySession) (addr : string) : Prop :=
  ∃ k s, table !! k = Some s ∧ relay_ip s = addr.

(** *** Sessions that are cleaned up *)

(** The test of [_cb_purge_sessions] on an item of the session table: the
    session is not expired, is pinned to [relay], and its call-id is not
    among the call-ids that the relay reports. *)
Definition no_longer_on (relay : string) (relay_call_ids : list json)
    (item : string * RelaySession) : bool :=
  bool_decide (expire_time item.2 = None)
  && String.eqb (relay_ip item.2) relay
  && negb (existsb (λ v, json_eq_str v item.1) relay_call_ids).

(** The effects of the loop of [_cb_purge_sessions] on one item. *)
Definition purge_effects (relay : string) (ids : list json)
    (item : string * RelaySession) : list effect :=
  if no_longer_on relay ids item
  then Log WARNING (LogNoLongerOnRelay item.1 relay)
       :: match dialog_id item.2 with Some d => [EndDialog d] | None => [] end
  else [].

(** *** A relay that does not answer *)

(** The state after [send_command] on the connection [conn], whose protocol
    object was [p], for the client [client], when the timer of the request
    has expired: the client is answered [error], the request is forgotten,
    the connection is timed out and its disconnect timer runs. *)
Definition timed_out (conn : conn_id) (command : Command) (client : client_id)
    (p : RelayServerProtocol) (st : DState) : DState :=
  let seq := pretty (sequence_number p) in
  mkState (sessions st) (relays st) (cleanup_timers st) (shutting_down st)
    (<[conn := mkRelay (ip p) (commands p) (halting p) true (Some (S (next_id st)))
                 (sequence_number p + 1)%N (authenticated p)]> (protocols st))
    (gathers st)
    (<[S (next_id st) := (relay_recover_interval config,
                          CallConnectionLost conn TCPTimedOutError)]> (reactor st))
    (S (S (next_id st))) (state_file st)
    (trace st ++ [Log DEBUG (LogIssuing (name command) (ip p));
                  RelayWrite conn (request_text command seq);
                  Log ERROR (LogFailure
                               (RelayError (RelayTimedOut (name command) (ip p))));
                  Reply client "error"]).

(** The session table, the registry, the cleanup timers and the shutdown
    flag are the same in both states. *)
Definition quiet (st st' : DState) : Prop :=
  sessions st' = sessions st ∧ relays st' = relays st
  ∧ cleanup_timers st' = cleanup_timers st ∧ shutting_down st' = shutting_down st.

(** *** The states that the dispatcher reaches *)

(** Every key of [commands] is the [str] of a sequence number that the
    connection has used already. *)
Definition seq_ok (p : RelayServerProtocol) : Prop :=
  ∀ k, is_Some (commands p !! k) → ∃ n, (n < sequence_number p)%N ∧ k = pretty n.

(** The delayed call [t], if the reactor still holds it, is [call]. *)
Definition timer_for (st : DState) (t : timer_id) (call : delayed_call) : Prop :=
  t < next_id st ∧ ∀ d c, reactor st !! t = Some (d, c) → c = call.

(** What holds of the state between two events. *)
Record healthy (st : DState) : Prop := mkHealthy {
  (* the registry maps an address to an authenticated connection from it *)
  h_registry : registry_wf st;
  (* the identifiers in use are below [next_id] *)
  h_conn_id : ∀ conn, is_Some (protocols st !! conn) → conn < next_id st;
  h_timer_id : ∀ t, is_Some (reactor st !! t) → t < next_id st;
  (* the pending requests of a connection have sequence numbers below its
     next one *)
  h_seq : ∀ conn p, protocols st !! conn = Some p → seq_ok p;
  (* a timeout that the reactor holds is the timer of a pending request *)
  h_timeout : ∀ t d conn seq,
    reactor st !! t = Some (d, CallTimeout conn seq) →
    ∃ p e, protocols st !! conn = Some p ∧ commands p !! seq = Some e ∧ p_timer e = t;
  (* the timer of a pending request is its timeout, or was cancelled *)
  h_pending : ∀ conn p seq e,
    protocols st !! conn = Some p → commands p !! seq = Some e →
    timer_for st (p_timer e) (CallTimeout conn seq);
  (* a cleanup call that the reactor holds is in [cleanup_timers] *)
  h_cleanup : ∀ t d addr,
    reactor st !! t = Some (d, CallDoCleanup addr) → cleanup_timers st !! addr = Some t;
  (* an entry of [cleanup_timers] is the cleanup call of its address, or was
     cancelled *)
  h_cleanup_timer : ∀ addr t,
    cleanup_timers st !! addr = Some t → timer_for st t (CallDoCleanup addr);
  (* before the shutdown, an entry of [cleanup_timers] is armed, and no relay
     is registered for its address *)
  h_armed : shutting_down st = false → ∀ addr t,
    cleanup_timers st !! addr = Some t →
    is_Some (reactor st !! t) ∧ relays st !! addr = None;
  (* a connection that timed out has a disconnect timer *)
  h_timedout : ∀ conn p,
    protocols st !! conn = Some p → timedout p = true → is_Some (disconnect_timer p);
  h_disconnect : ∀ conn p t,
    protocols st !! conn = Some p → disconnect_timer p = Some t →
    timer_for st t (CallConnectionLost conn TCPTimedOutError)
}.

(** How a protocol object changes: its address stays, it stays authenticated
    and halting once it is, and its sequence number does not decrease. *)
Definition evolves (p p' : RelayServerProtocol) : Prop :=
  ip p' = ip p
  ∧ (authenticated p = true → authenticated p' = true)
  ∧ (halting p = true → halting p' = true)
  ∧ (sequence_number p ≤ sequence_number p')%N.

(** From [st] to [st'] the protocol objects evolve, and no delayed call is
    replaced by another. *)
Definition advances (st st' : DState) : Prop :=
  next_id st ≤ next_id st'
  ∧ (∀ conn p, protocols st !! conn = Some p →
       ∃ p', protocols st' !! conn = Some p' ∧ evolves p p')
  ∧ (∀ t x, t < next_id st → reactor st' !! t = Some x → reactor st !! t = Some x).

(** A change of a protocol object that leaves its pending requests alone. *)
Definition calm (p p' : RelayServerProtocol) : Prop :=
  ip p' = ip p
  ∧ commands p' = commands p
  ∧ sequence_number p' = sequence_number p
  ∧ (authenticated p = true → authenticated p' = true)
  ∧ (halting p = true → halting p' = true)
  ∧ (timedout p' = true → is_Some (disconnect_timer p'))
  ∧ (∀ t, disconnect_timer p' = Some t → disconnect_timer p = Some t).

(** A change of the session table, the aggregations, the trace, the state
    file; the start of the shutdown; identifiers that are used up. *)
Definition frame (st st' : DState) : Prop :=
  relays st' = relays st
  ∧ cleanup_timers st' = cleanup_timers st
  ∧ protocols st' = protocols st
  ∧ reactor st' = reactor st
  ∧ next_id st ≤ next_id st'
  ∧ (shutting_down st' = shutting_down st ∨ shutting_down st' = true).

(** The state changes that the handlers are made of. *)
Inductive moves (st : DState) : DState → Prop :=
| moves_refl : moves st st
| moves_frame s s' : moves st s → frame s s' → moves st s'
| moves_issue s conn command defer :
    moves st s → moves st (relay_send_command conn command defer s)
| moves_cancel s t :
    moves st s →
    (∀ d addr, reactor s !! t = Some (d, CallDoCleanup addr) → shutting_down s = true) →
    moves st (cancel t s)
| moves_drop s conn seq :
    moves st s →
    (∀ t d, reactor s !! t ≠ Some (d, CallTimeout conn seq)) →
    moves st (update_protocol conn (set_commands (delete seq)) s)
| moves_alter s conn f :
    moves st s →
    (∀ p, protocols s !! conn = Some p → calm p (f p)) →
    moves st (update_protocol conn f s)
| moves_suspend s conn :
    moves st s →
    moves st (update_protocol conn (set_disconnect_timer (Some (next_id s)))
                (callLater (relay_recover_interval config)
                   (CallConnectionLost conn TCPTimedOutError)
                   (update_protocol conn (set_timedout true) s)).2)
| moves_later s d conn reason :
    moves st s → moves st (callLater d (CallConnectionLost conn reason) s).2
| moves_register s conn p :
    moves st s →
    protocols s !! conn = Some p → authenticated p = true →
    (shutting_down s = false → cleanup_timers s !! ip p = None) →
    moves st (with_relays <[ip p := conn]> s)
| moves_unregister s addr :
    moves st s → moves st (with_relays (delete addr) s)
| moves_cleanup s addr :
    moves st s →
    moves st (with_cleanup_timers (delete addr)
                (from_option (λ t, cancel t s) s (cleanup_timers s !! addr)))
| moves_arm s addr :
    moves st s →
    cleanup_timers s !! addr = None → relays s !! addr = None →
    moves st (with_cleanup_timers <[addr := next_id s]>
                (callLater (cleanup_dead_relays_after config) (CallDoCleanup addr) s).2)
| moves_build s addr :
    moves st s → moves st (buildProtocol addr s).2.

End Observations.

(** ** Sample data *)

Module Sample.

Definition relay_A : string := "10.0.0.1".
Definition relay_B : string := "10.0.0.2".

(** Texts that the sample codec understands, with what they decode to. *)
Definition documents : list (string * json) :=
  [ ("{}", JObj []);
    ("{call_id:x,streams:[ice],start_time:123}",
     JObj [("call_id", JStr "x");
           ("streams", JArr [JObj [("status", JStr "unselected ICE candidate")]]);
           ("start_time", JNum 123)]);
    ("{call_id:x,streams:[active],start_time:123}",
     JObj [("call_id", JStr "x");
           ("streams", JArr [JObj [("status", JStr "active")]]);
           ("start_time", JNum 123)]);
    ("{call_id:x,start_time:123}",
     JObj [("call_id", JStr "x"); ("start_time", JNum 123)]);
    ("{status:error,ip:10.0.0.1}",
     JObj [("status", JStr "error"); ("ip", JStr relay_A)]) ].

Definition json_eqb (a b : json) : bool :=
  match a, b with
  | JObj [("status", JStr s); ("ip", JStr i)],
    JObj [("status", JStr s'); ("ip", JStr i')] =>
      String.eqb s s' && String.eqb i i'
  | _, _ => false
  end.

Definition decode (text : string) : option json :=
  snd <$> find (λ d, String.eqb (fst d) text) documents.

Definition encode (v : json) : string :=
  match find (λ d, json_eqb (snd d) v) documents with
  | Some d => fst d
  | None => "null"
  end.

(** One session, [x], pinned to relay A. *)
Definition table : gmap string RelaySession :=
  {[ "x" := mkSession relay_A (Some "dialog-1") None ]}.

Definition dumps (m : gmap string RelaySession) : string :=
  if bool_decide (m = table) then "pickle:x" else "pickle:other".

Definition loads (text : string) : option (gmap string RelaySession) :=
  if String.eqb text "pickle:x" then Some table else None.

(** Two accounting modules; the first one raises on every record. *)
Definition sinks : list (json → bool) := [λ _, true; λ _, false].

Definition env : Collaborators :=
  {| cjson_decode := decode;
     cjson_encode := encode;
     pickle_dumps := dumps;
     pickle_loads := loads;
     accounting := sinks;
     config := mkConfig 5 10 3600 86400;
     __version__ := "2.6.1" |}.

(** An authenticated, idle connection from [addr]. *)
Definition idle (addr : string) : RelayServerProtocol :=
  mkRelay addr ∅ false false None 0%N true.

(** Relays A and B are connected as objects 0 and 1; session [x] is pinned
    to A. *)
Definition state : DState :=
  mkState table {[ relay_A := 0; relay_B := 1 ]} ∅ false
          {[ 0 := idle relay_A; 1 := idle relay_B ]} ∅ ∅ 2 None [].

(** The same, after relay A reported [x] as expired at time 100. *)
Definition expired_state : DState :=
  mkState {[ "x" := mkSession relay_A (Some "dialog-1") (Some 100%Z) ]}
          {[ relay_A := 0; relay_B := 1 ]} ∅ false
          {[ 0 := idle relay_A; 1 := idle relay_B ]} ∅ ∅ 2 None [].

Definition update_x : Command :=
  mkCommand "update" ["call_id: x"; "dialog_id: dialog-1"]
            {[ "call_id" := "x"; "dialog_id" := "dialog-1" ]}.

Definition remove_x : Command :=
  mkCommand "remove" ["call_id: x"] {[ "call_id" := "x" ]}.

(** Relays A and B are connected and idle; there is no session. *)
Definition idle_state : DState :=
  mkState ∅ {[ relay_A := 0; relay_B := 1 ]} ∅ false
          {[ 0 := idle relay_A; 1 := idle relay_B ]} ∅ ∅ 2 None [].

(** Relay A has been sent the [update] for [x] as its request 0, with
    relay B as the next candidate; no session is recorded yet. *)
Definition placing_state : DState :=
  mkState ∅ {[ relay_A := 0; relay_B := 1 ]} ∅ false
          {[ 0 := mkRelay relay_A
                    {[ "0" := mkPending update_x (WPlace [0; 1] update_x 7) 2 ]}
                    false false None 1%N true;
             1 := idle relay_B ]}
          ∅ {[ 2 := (5%Z, CallTimeout 0 "0") ]} 3 None [].

(** Relay A announced that it is shutting down and is still connected. *)
Definition halting_state : DState :=
  mkState ∅ {[ relay_A := 0 ]} ∅ false
          {[ 0 := mkRelay relay_A ∅ true false None 0%N true ]} ∅ ∅ 1 None [].

End Sample.

(** ** Sample data for the reconciliation after a reconnect *)

Module Probe.

(** The answers to [sessions] that the codec of this sample understands. *)
Definition decode (text : string) : option json :=
  if String.eqb text "[]" then Some (JArr [])
  else if String.eqb text "[{call_id:y}]" then Some (JArr [JObj [("call_id", JStr "y")]])
  else None.

Definition env : Collaborators :=
  {| cjson_decode := decode;
     cjson_encode := Sample.encode;
     pickle_dumps := Sample.dumps;
     pickle_loads := Sample.loads;
     accounting := Sample.sinks;
     config := mkConfig 5 10 3600 86400;
     __version__ := "2.6.1" |}.

(** Relay A has just connected, as object 0, and has been sent the
    [sessions] request as its request 0; the table holds the session [x],
    which is pinned to relay A. *)
Definition state : DState :=
  mkState Sample.table {[ Sample.relay_A := 0 ]} ∅ false
          {[ 0 := mkRelay Sample.relay_A
                    {[ "0" := mkPending (mkCommand "sessions" [] ∅)
                                        (WPurge Sample.relay_A) 1 ]}
                    false false None 1%N true ]}
          ∅ {[ 1 := (5%Z, CallTimeout 0 "0") ]} 2 None [].

End Probe.

(** ** Sample data for a payload without [start_time] *)

Module Bare.

(** The one [expired] payload that the codec of this sample understands: it
    has [call_id] and [streams], each stream with its [status], and no
    [start_time]. *)
Definition decode (text : string) : option json :=
  if String.eqb text "{call_id:x,streams:[active]}"
  then Some (JObj [("call_id", JStr "x");
                   ("streams", JArr [JObj [("status", JStr "active")]])])
  else None.

Definition env : Collaborators :=
  {| cjson_decode := decode;
     cjson_encode := Sample.encode;
     pickle_dumps := Sample.dumps;
     pickle_loads := Sample.loads;
     accounting := Sample.sinks;
     config := mkConfig 5 10 3600 86400;
     __version__ := "2.6.1" |}.

End Bare.

(** * Properties *)

(** Unfold the functions that update one field of the state. *)
Ltac unfold_state :=
  unfold client_failure, client_reply, relay_reply, log, emit, cancel,
    update_protocol, with_trace, with_sessions, with_relays, with_cleanup_timers,
    with_shutting_down, with_protocols, with_gathers, with_reactor, with_next_id,
    with_state_file;
  cbn [sessions relays cleanup_timers shutting_down protocols gathers reactor
       next_id state_file trace].

(** Rewrite the derived updates of the state into updates of one field. *)
Ltac to_primitives :=
  unfold client_failure, client_reply, relay_reply, log, emit, cancel,
    update_protocol, callLater, _save_state;
  cbv beta iota zeta.

Section Properties.

Context `{Collaborators}.

(** ** Lines and sequence numbers *)

Lemma split1_space_digits a :
  all_digits a = true → PyStr.split1 " " a = None.
Proof.
  induction a as [|c a IH]; [done|].
  cbn [all_digits]. destruct (decide _) as [Hc|]; [|done]. cbn [andb]. intros Ha.
  cbn [PyStr.split1 PyStr.strip_prefix]. rewrite (IH Ha).
  repeat (apply elem_of_cons in Hc as [->|Hc]; [done|]).
  by apply elem_of_nil in Hc.
Qed.

Lemma split1_space_app a b :
  PyStr.split1 " " a = None → PyStr.split1 " " (a +:+ " " +:+ b) = Some (a, b).
Proof.
  remember (" " +:+ b) as tail eqn:Ht.
  induction a as [|c a IH]; [by subst tail|].
  intros Ha. cbn [PyStr.split1 PyStr.strip_prefix] in Ha.
  change (String c a +:+ tail) with (String c (a +:+ tail)).
  cbn [PyStr.split1 PyStr.strip_prefix].
  destruct (Ascii.eqb " " c); [done|].
  destruct (PyStr.split1 " " a) as [[??]|]; [done|].
  by rewrite IH.
Qed.

Lemma all_digits_pretty_go (x : N) : ∀ s,
  all_digits s = true → all_digits (pretty_N_go x s) = true.
Proof.
  induction (N.lt_wf_0 x) as [x _ IH]. intros s Hs.
  destruct (decide (x = 0)%N) as [->|Hx].
  - by rewrite pretty_N_go_0.
  - rewrite pretty_N_go_step by lia.
    apply IH; [apply N.div_lt; lia|].
    simpl. rewrite Hs. unfold pretty_N_char.
    by repeat case_match.
Qed.

Lemma all_digits_pretty (n : N) : all_digits (pretty n) = true.
Proof.
  unfold pretty, pretty_N. case_decide; [done|].
  by apply all_digits_pretty_go.
Qed.

(** A response line [<seq> <rest>] is cut at the space after the sequence
    number, and a sequence number is neither [expired] nor [ping]. *)
Lemma response_line (n : N) rest :
  PyStr.split1 " " (pretty n +:+ " " +:+ rest) = Some (pretty n, rest)
  ∧ String.eqb (pretty n) "expired" = false
  ∧ String.eqb (pretty n) "ping" = false.
Proof.
  pose proof (all_digits_pretty n) as Hd. split; [|split].
  - by apply split1_space_app, split1_space_digits.
  - apply String.eqb_neq. intros Heq. by rewrite Heq in Hd.
  - apply String.eqb_neq. intros Heq. by rewrite Heq in Hd.
Qed.

(** ** The shuffle *)

Lemma swap_Permutation {A} i j (x : list A) : PyRandom.swap i j x ≡ₚ x.
Proof.
  unfold PyRandom.swap.
  destruct (x !! i) as [a|] eqn:Hi; [|done].
  destruct (x !! j) as [b|] eqn:Hj; [|done].
  by apply Permutation_insert_swap.
Qed.

Lemma swap_length {A} i j (x : list A) : length (PyRandom.swap i j x) = length x.
Proof. apply Permutation_length, swap_Permutation. Qed.

Lemma shuffle_from_Permutation {A} rnd n : ∀ x : list A,
  PyRandom.shuffle_from rnd n x ≡ₚ x.
Proof.
  induction n as [|n IH]; intros x; [done|]. simpl.
  rewrite IH. apply swap_Permutation.
Qed.

(** Whatever the random source, the shuffled list has the elements of the
    list, each as often. *)
Lemma shuffle_Permutation {A} rnd (x : list A) : PyRandom.shuffle rnd x ≡ₚ x.
Proof. apply shuffle_from_Permutation. Qed.

Lemma swap_app {A} i j (pre suf : list A) :
  i < length pre → j < length pre →
  PyRandom.swap i j (pre ++ suf) = PyRandom.swap i j pre ++ suf.
Proof.
  intros Hi Hj. unfold PyRandom.swap.
  rewrite !lookup_app_l by done.
  destruct (lookup_lt_is_Some_2 pre i Hi) as [a ->].
  destruct (lookup_lt_is_Some_2 pre j Hj) as [b ->].
  rewrite insert_app_l by done.
  by rewrite insert_app_l by (by rewrite length_insert).
Qed.

Lemma shuffle_from_app {A} rnd n : ∀ pre suf : list A,
  n < length pre →
  PyRandom.shuffle_from rnd n (pre ++ suf) = PyRandom.shuffle_from rnd n pre ++ suf.
Proof.
  induction n as [|n IH]; intros pre suf Hn; [done|]. cbn [PyRandom.shuffle_from].
  assert (rnd (S n) `mod` S (S n) < S (S n)) by (apply Nat.mod_upper_bound; lia).
  rewrite swap_app by lia.
  apply IH. rewrite swap_length. lia.
Qed.

Lemma shuffle_from_ext {A} (rnd rnd' : nat → nat) (n : nat) : ∀ x : list A,
  (∀ i, (1 ≤ i ≤ n)%nat → rnd i = rnd' i) →
  PyRandom.shuffle_from rnd n x = PyRandom.shuffle_from rnd' n x.
Proof.
  induction n as [|n IH]; intros x Hext; [done|]. cbn [PyRandom.shuffle_from].
  rewrite (Hext (S n)) by lia. apply IH. intros i Hi. apply Hext. lia.
Qed.

Lemma list_snoc_lookup {A} (l : list A) k b :
  length l = S k → l !! k = Some b → l = take k l ++ [b].
Proof.
  intros Hlen Hk. rewrite <- (take_drop_middle l k b Hk) at 1.
  f_equal. rewrite drop_ge by lia. done.
Qed.

Lemma swap_last {A} (x : list A) n j a b :
  length x = S n → x !! n = Some a → x !! j = Some b →
  PyRandom.swap n j x = take n (PyRandom.swap n j x) ++ [b].
Proof.
  intros Hlen Hn Hj. apply list_snoc_lookup; [by rewrite swap_length|].
  unfold PyRandom.swap. rewrite Hn, Hj.
  destruct (decide (j = n)) as [->|Hne].
  - rewrite list_lookup_insert_eq by (rewrite length_insert; lia). congruence.
  - rewrite list_lookup_insert_ne by done.
    apply list_lookup_insert_eq. lia.
Qed.

Lemma shuffle_from_surjective {A} n : ∀ x y : list A,
  length x = S n → x ≡ₚ y → ∃ rnd, PyRandom.shuffle_from rnd n x = y.
Proof.
  induction n as [|m IH]; intros x y Hlen Hperm.
  - exists id. simpl. destruct x as [|a [|??]]; try done.
    by apply Permutation_singleton_l in Hperm.
  - assert (Hy : length y = S (S m)) by (by rewrite <- Hperm).
    destruct (exists_last (l:=y)) as (y' & b & ->); [by destruct y|].
    assert (Hb : b ∈ x) by (rewrite Hperm; set_solver).
    apply list_elem_of_lookup in Hb as [j Hj].
    pose proof (lookup_lt_Some _ _ _ Hj) as Hjlt.
    destruct (lookup_lt_is_Some_2 x (S m)) as [a Ha]; [lia|].
    pose proof (swap_last x (S m) j a b Hlen Ha Hj) as Hsnoc.
    set (x1 := take (S m) (PyRandom.swap (S m) j x)) in *.
    destruct (IH x1 y') as [rnd' Hrnd'].
    { subst x1. rewrite length_take, swap_length. lia. }
    { apply (Permutation_app_inv_r [b]). rewrite <- Hsnoc, swap_Permutation. done. }
    exists (λ k, if decide (k = S m) then j else rnd' k).
    cbn [PyRandom.shuffle_from]. rewrite decide_True by done.
    rewrite Nat.mod_small by lia. rewrite Hsnoc.
    rewrite shuffle_from_app by (subst x1; rewrite length_take, swap_length; lia).
    rewrite <- Hrnd'. f_equal. apply shuffle_from_ext.
    intros i Hi. rewrite decide_False by lia. done.
Qed.

(** Every ordering of the list is what [shuffle] gives for some random
    source. *)
Lemma shuffle_surjective {A} (x y : list A) :
  x ≡ₚ y → ∃ rnd, PyRandom.shuffle rnd x = y.
Proof.
  intros Hperm. unfold PyRandom.shuffle. destruct x as [|a x].
  - apply Permutation_nil_l in Hperm. subst. by exists id.
  - apply shuffle_from_surjective; [|done]. simpl. lia.
Qed.

Lemma shuffle_from_injective {A} (n : nat) : ∀ (x : list A) (rnd rnd' : nat → nat),
  NoDup x → length x = S n →
  PyRandom.shuffle_from rnd n x = PyRandom.shuffle_from rnd' n x →
  ∀ i, (1 ≤ i ≤ n)%nat → rnd i `mod` S i = rnd' i `mod` S i.
Proof.
  induction n as [|m IH]; intros x rnd rnd' Hnd Hlen Heq i Hi; [lia|].
  cbn [PyRandom.shuffle_from] in Heq.
  set (j := rnd (S m) `mod` S (S m)) in *.
  set (j' := rnd' (S m) `mod` S (S m)) in *.
  assert (Hjlt : j < S (S m)) by (apply Nat.mod_upper_bound; lia).
  assert (Hjlt' : j' < S (S m)) by (apply Nat.mod_upper_bound; lia).
  destruct (lookup_lt_is_Some_2 x (S m)) as [a Ha]; [lia|].
  destruct (lookup_lt_is_Some_2 x j) as [b Hb]; [lia|].
  destruct (lookup_lt_is_Some_2 x j') as [b' Hb']; [lia|].
  pose proof (swap_last x (S m) j a b Hlen Ha Hb) as Hsnoc.
  pose proof (swap_last x (S m) j' a b' Hlen Ha Hb') as Hsnoc'.
  rewrite Hsnoc, Hsnoc' in Heq.
  rewrite !shuffle_from_app in Heq by (rewrite length_take, swap_length; lia).
  apply app_inj_tail in Heq as [Heq Hbb]. subst b'.
  assert (Hjj : j = j') by (by eapply NoDup_lookup).
  destruct (decide (i = S m)) as [->|Hne]; [done|].
  rewrite <- Hjj in Heq.
  apply (IH (take (S m) (PyRandom.swap (S m) j x))); [| |done|lia].
  - apply (NoDup_app (take (S m) (PyRandom.swap (S m) j x)) [b]).
    rewrite <- Hsnoc, swap_Permutation. done.
  - rewrite length_take, swap_length. lia.
Qed.

(** On a list without repetition, two random sources that give the same
    ordering made the same draws: an ordering comes from exactly one
    sequence of draws, so that uniform draws give a uniform ordering. *)
Lemma shuffle_injective {A} (x : list A) (rnd rnd' : nat → nat) :
  NoDup x →
  PyRandom.shuffle rnd x = PyRandom.shuffle rnd' x →
  ∀ i, (1 ≤ i < length x)%nat → rnd i `mod` S i = rnd' i `mod` S i.
Proof.
  intros Hnd Heq i Hi. unfold PyRandom.shuffle in Heq.
  destruct x as [|a x]; [simpl in Hi; lia|].
  replace (length (a :: x) - 1) with (length x) in Heq by (simpl; lia).
  eapply (shuffle_from_injective (length x)); [done| |exact Heq|]; simpl in *; lia.
Qed.

(** ** Sending a request to a relay *)

Lemma alter_lookup_Some {A} (f : A → A) (m : gmap nat A) i x :
  m !! i = Some x → alter f i m = <[i := f x]> m.
Proof.
  intros Hi. apply map_eq. intros j. rewrite lookup_alter, lookup_insert.
  destruct (decide (i = j)) as [->|]; [by rewrite Hi|done].
Qed.

Lemma relay_send_command_sent conn command defer st p :
  protocols st !! conn = Some p →
  relay_send_command conn command defer st = sent conn command defer p st.
Proof.
  intros Hp. unfold relay_send_command, sent. rewrite Hp.
  unfold callLater. unfold_state.
  rewrite (alter_lookup_Some _ (protocols st) conn p Hp).
  rewrite (alter_lookup_Some _ (<[conn := _]> (protocols st)) conn _
             (lookup_insert_eq _ _ _)).
  rewrite insert_insert_eq. unfold set_commands, set_sequence_number.
  cbn [ip commands halting timedout disconnect_timer sequence_number authenticated].
  by rewrite <- app_assoc.
Qed.

Lemma relay_send_command_with_sessions conn command defer f st :
  relay_send_command conn command defer (with_sessions f st)
  = with_sessions f (relay_send_command conn command defer st).
Proof.
  unfold relay_send_command. change (protocols (with_sessions f st)) with (protocols st).
  by destruct (protocols st !! conn).
Qed.

(** ** Pinned routing *)

(** C1: a command for a call-id whose session is not expired goes to the
    connection registered for the relay of the session, as the next request
    of that connection, and its answer is for the client; when no connection
    is registered for that relay the method raises "relay no longer
    connected" and nothing changes, the session table included. *)
Theorem pinned_routing rnd client command st k s :
  call_id command = Some k →
  sessions st !! k = Some s →
  expire_time s = None →
  match relays st !! relay_ip s with
  | Some conn =>
      ∃ st', RelayFactory_send_command rnd client command st = (Ret None, st')
        ∧ sessions st' = sessions st
        ∧ relays st' = relays st
        ∧ ∀ p, protocols st !! conn = Some p →
            st' = sent conn command (WReply client) p st
            ∧ last (trace st') =
                Some (RelayWrite conn
                        (request_text command (pretty (sequence_number p))))
  | None =>
      RelayFactory_send_command rnd client command st
      = (Raise (RelayError (RelayNoLongerConnected (relay_ip s))), st)
  end.
Proof.
  intros Hk Hs He. unfold RelayFactory_send_command.
  rewrite Hk; simpl. rewrite Hs. destruct s as [relay dialog expire]; simpl in *.
  subst expire. destruct (relays st !! relay) as [conn|]; [|done].
  eexists; split; [done|].
  destruct (protocols st !! conn) as [p|] eqn:Hp.
  - rewrite (relay_send_command_sent _ _ _ _ _ Hp).
    split; [done|split; [done|]].
    intros p' [= <-]. split; [done|]. simpl.
    by rewrite last_app.
  - unfold relay_send_command. rewrite Hp. by repeat split.
Qed.

(** ** Commands for an expired session *)

(** C2, as the code has it: a command whose call-id has an expired session
    is never routed to the relay of that session by pinned routing.  A
    [remove] deletes the session and answers [removed] without writing to
    any relay; a command other than [update] and [remove] raises "unknown
    session" and changes nothing; an [update] is routed exactly as if the
    call-id had no session, that is, placed on a candidate relay. *)
Theorem expired_session_routing rnd client command st k s :
  call_id command = Some k →
  sessions st !! k = Some s →
  expire_time s ≠ None →
  let r := RelayFactory_send_command rnd client command st in
  if String.eqb (name command) "update" then
    let r0 := RelayFactory_send_command rnd client command
                (with_sessions (delete k) st) in
    r = (r0.1, with_sessions (λ _, sessions st) r0.2)
  else if String.eqb (name command) "remove" then
    r = (Ret (Some "removed"), with_sessions (delete k) st)
  else
    r = (Raise (RelayError (UnknownSession (name command) k)), st).
Proof.
  intros Hk Hs He. unfold RelayFactory_send_command. rewrite Hk. simpl.
  rewrite Hs, lookup_delete_eq.
  destruct s as [relay dialog [t|]]; [|done].
  destruct (String.eqb (name command) "update").
  - change (is_candidate (with_sessions (delete k) st)) with (is_candidate st).
    change (itervalues (with_sessions (delete k) st)) with (itervalues st).
    set (L := PyRandom.shuffle rnd _).
    change (relays (with_sessions (delete k) st)) with (relays st).
    change (protocols (with_sessions (delete k) st)) with (protocols st).
    assert (Htry : ∀ L' st0,
               _try_next L' command client (with_sessions (delete k) st0)
               = ((_try_next L' command client st0).1,
                  with_sessions (delete k) (_try_next L' command client st0).2)).
    { intros [|c L'] st0; [done|]. simpl. unfold run.
      by rewrite relay_send_command_with_sessions. }
    assert (Hback : ∀ st0 : DState,
               sessions st0 = sessions st →
               with_sessions (λ _, sessions st) (with_sessions (delete k) st0) = st0).
    { intros [] Heq. simpl in Heq. subst. done. }
    assert (Hsess : ∀ L' st0, sessions (_try_next L' command client st0).2
                              = sessions st0).
    { intros [|c L'] st0; [done|]. simpl.
      unfold relay_send_command. by destruct (protocols st0 !! c). }
    destruct (parsed_headers command !! "media_relay") as [preferred|].
    + destruct (relays st !! preferred ≫= _) as [[conn protocol]|];
        [destruct (active protocol)|].
      * rewrite Htry. destruct (_try_next _ _ _ st) as [[] st'] eqn:Ht; simpl;
          f_equal; symmetry; apply Hback;
          by rewrite <- (Hsess (conn :: L) st), Ht.
      * change (log WARNING (LogNotAvailable preferred) (with_sessions (delete k) st))
          with (with_sessions (delete k) (log WARNING (LogNotAvailable preferred) st)).
        rewrite Htry.
        pose proof (Hsess L (log WARNING (LogNotAvailable preferred) st)) as Hx.
        destruct (_try_next _ _ _ (log _ _ st)) as [[] st'] eqn:Ht; simpl;
          f_equal; symmetry; apply Hback; exact Hx.
      * change (log WARNING (LogNotAvailable preferred) (with_sessions (delete k) st))
          with (with_sessions (delete k) (log WARNING (LogNotAvailable preferred) st)).
        rewrite Htry.
        pose proof (Hsess L (log WARNING (LogNotAvailable preferred) st)) as Hx.
        destruct (_try_next _ _ _ (log _ _ st)) as [[] st'] eqn:Ht; simpl;
          f_equal; symmetry; apply Hback; exact Hx.
    + rewrite Htry. destruct (_try_next _ _ _ st) as [[] st'] eqn:Ht; simpl;
        f_equal; symmetry; apply Hback;
        by rewrite <- (Hsess L st), Ht.
  - by destruct (String.eqb (name command) "remove").
Qed.

(** ** The [active] property *)

(** C7, as the code has it: a connection is active if and only if it is
    neither halting nor timed out.  [authenticated] is not consulted, so it
    is for an authenticated connection that being active is the same as
    being authenticated, not halting and not timed out. *)
Theorem active_iff (c : RelayServerProtocol) :
  (active c = true ↔ halting c = false ∧ timedout c = false)
  ∧ (authenticated c = true →
     (active c = true ↔
      authenticated c = true ∧ halting c = false ∧ timedout c = false)).
Proof.
  unfold active. destruct (halting c), (timedout c); simpl; split; try tauto;
    intuition congruence.
Qed.

(** ** Dictionaries of decoded JSON *)

Lemma PyDict_get_set_eq k v d : PyDict.get k (PyDict.set k v d) = Some v.
Proof.
  unfold PyDict.set. destruct (PyDict.get k d) eqn:Hg.
  - induction d as [|[k' v'] d IH]; simpl in *; [done|].
    destruct (String.eqb k k') eqn:Hk; simpl.
    + by rewrite Hk.
    + rewrite Hk. auto.
  - induction d as [|[k' v'] d IH]; simpl in *.
    + by rewrite String.eqb_refl.
    + destruct (String.eqb k k'); [done|auto].
Qed.

Lemma PyDict_get_set_ne k k' v d :
  k ≠ k' → PyDict.get k (PyDict.set k' v d) = PyDict.get k d.
Proof.
  intros Hne. apply String.eqb_neq in Hne. unfold PyDict.set.
  destruct (PyDict.get k' d) eqn:Hg.
  - clear Hg. induction d as [|[k1 v1] d IH]; simpl in *; [done|].
    destruct (String.eqb k' k1) eqn:Hk; simpl.
    + apply String.eqb_eq in Hk. subst k1. by rewrite Hne.
    + by rewrite IH.
  - clear Hg. induction d as [|[k1 v1] d IH]; simpl in *.
    + by rewrite Hne.
    + by rewrite IH.
Qed.

Lemma all_unselected_ice_has_status streams :
  Forall has_status streams →
  all_unselected_ice streams = Ret (forallb unselected_ice streams).
Proof.
  induction 1 as [|x l [status Hx] _ IH]; simpl; [done|].
  unfold unselected_ice. rewrite Hx.
  destruct (json_eq_str status _); [exact IH|done].
Qed.

(** ** Accounting *)

Lemma do_accounting_from_spec sinks : ∀ i stats st,
  ∃ new,
    do_accounting_from i sinks stats st = with_trace (λ _, trace st ++ new) st
    ∧ accounting_calls new = imap (λ j _, (i + j, stats)) sinks
    ∧ Forall accounting_effect new.
Proof.
  induction sinks as [|sink sinks IH]; intros i stats st; simpl.
  - exists []. split; [|done]. destruct st; unfold with_trace; simpl.
    by rewrite app_nil_r.
  - set (st1 := emit (DoAccounting i stats) st).
    set (st2 := if sink stats then log EXCEPTION (LogAccountingFailed i) st1 else st1).
    destruct (IH (S i) stats st2) as (new & -> & Hcalls & Hall).
    exists ([DoAccounting i stats]
            ++ (if sink stats then [Log EXCEPTION (LogAccountingFailed i)] else [])
            ++ new).
    split; [|split].
    + subst st2 st1. destruct (sink stats); destruct st;
        unfold with_trace, log, emit, with_trace; simpl;
        by rewrite <- ?app_assoc.
    + unfold accounting_calls in *. simpl. rewrite omap_app, Hcalls.
      replace (i + 0) with i by lia.
      destruct (sink stats); simpl; f_equal;
        apply imap_ext; intros; simpl; f_equal; lia.
    + destruct (sink stats); simpl; repeat constructor; done.
Qed.



(** [update_statistics] on a record that has the key [start_time]. *)
Lemma update_statistics_eq stats v st :
  subscript stats "start_time" = Ret v →
  ∃ acc,
    update_statistics stats st
    = (Ret tt,
       with_trace (λ _, trace st ++ Log DEBUG (LogGotStatistics stats) :: acc) st)
    ∧ accounting_calls acc
      = (if is_None v then [] else imap (λ i _, (i, stats)) accounting)
    ∧ Forall accounting_effect acc.
Proof.
  intros Hv. unfold update_statistics, bind, run, lift, ret. rewrite Hv.
  set (st1 := log DEBUG (LogGotStatistics stats) st).
  destruct (is_None v); simpl.
  - exists []. by destruct st.
  - destruct (do_accounting_from_spec accounting 0 stats st1) as (acc & -> & Hc & Ha).
    exists acc. split; [|done]. subst st1. destruct st.
    unfold with_trace, log, emit, with_trace; simpl. by rewrite <- app_assoc.
Qed.

(** C10: the accounting modules are called exactly when the record has a
    [start_time] that is not null, and then every module is called once, in
    order, with the record, whether or not an earlier module raised; with a
    null [start_time] the record is only logged. *)
Theorem update_statistics_accounting (stats : json) (st : DState) :
  ∃ new,
    (update_statistics stats st).2 = with_trace (λ _, trace st ++ new) st
    ∧ head new = Some (Log DEBUG (LogGotStatistics stats))
    ∧ accounting_calls new =
        match subscript stats "start_time" with
        | Ret JNull => []
        | Ret _ => imap (λ i _, (i, stats)) accounting
        | Raise _ => []
        end
    ∧ (update_statistics stats st).1 =
        match subscript stats "start_time" with
        | Ret _ => Ret tt
        | Raise e => Raise e
        end.
Proof.
  unfold update_statistics, bind, run, lift, ret.
  set (st1 := log DEBUG (LogGotStatistics stats) st).
  destruct (subscript stats "start_time") as [v|e]; simpl.
  - destruct (is_None v) eqn:Hv; simpl.
    + exists [Log DEBUG (LogGotStatistics stats)]. destruct v; try discriminate.
      by destruct st.
    + destruct (do_accounting_from_spec accounting 0 stats st1) as (new & -> & Hc & _).
      exists (Log DEBUG (LogGotStatistics stats) :: new).
      split; [|split; [done|split; [|done]]].
      * subst st1. destruct st. unfold with_trace, log, emit, with_trace; simpl.
        by rewrite <- app_assoc.
      * unfold accounting_calls. destruct v; try discriminate; exact Hc.
  - exists [Log DEBUG (LogGotStatistics stats)]. by destruct st.
Qed.

(** ** The [expired] event *)


(** An [expired] payload without the key [start_time]: [update_statistics]
    raises KeyError, and the session is neither stamped nor deleted; no
    dialog is ended and no accounting module is called. *)
Lemma expired_without_start_time conn self now rest d k session streams st :
  protocols st !! conn = Some self →
  cjson_decode rest = Some (JObj d) →
  PyDict.get "call_id" d = Some (JStr k) →
  sessions st !! k = Some session →
  relay_ip session = ip self →
  PyDict.get "streams" d = Some (JArr streams) →
  Forall has_status streams →
  PyDict.get "start_time" d = None →
  ∃ st', lineReceived conn now ("expired " +:+ rest) st
         = (Raise (KeyError (JStr "start_time")), st')
    ∧ sessions st' = sessions st
    ∧ end_dialogs (trace st') = end_dialogs (trace st)
    ∧ accounting_calls (trace st') = accounting_calls (trace st).
Proof.
  intros Hp Hd Hk Hs Hip Hstreams Hwf Hstart. unfold lineReceived. rewrite Hp.
  change (PyStr.split1 " " ("expired " +:+ rest)) with (Some ("expired", rest)).
  cbv iota beta. rewrite String.eqb_refl, Hd.
  unfold expired, bind, lift, run. simpl. rewrite Hk. simpl. rewrite Hs. simpl.
  rewrite Hip, String.eqb_refl. simpl. rewrite Hstreams. simpl.
  rewrite (all_unselected_ice_has_status _ Hwf).
  unfold update_statistics, bind, lift, run, subscript.
  rewrite !PyDict_get_set_ne by done. rewrite Hstart.
  eexists. split; [done|]. split; [done|].
  unfold_state. unfold end_dialogs, accounting_calls.
  rewrite <- !app_assoc, !omap_app. cbn. by rewrite !app_nil_r.
Qed.

(** ** Responses *)

(** [lineReceived] on the response to the pending request number [n]. *)
Lemma lineReceived_response conn self now (n : N) rest command defer timer st :
  protocols st !! conn = Some self →
  commands self !! pretty n = Some (mkPending command defer timer) →
  lineReceived conn now (pretty n +:+ " " +:+ rest) st =
    let st1 := cancel timer
                 (update_protocol conn (set_commands (delete (pretty n))) st) in
    if String.eqb rest "error" then
      (Ret tt, errback defer (RelayReturnedError (ip self) (name command)) st1)
    else if String.eqb rest "halting" then
      (Ret tt, errback defer (RelayShuttingDown (ip self))
                 (update_protocol conn (set_halting true) st1))
    else if String.eqb (name command) "remove" then
      match cjson_decode rest with
      | None =>
          (Ret tt, callback defer "removed" (log ERROR (LogDecodeError (ip self)) st1))
      | Some stats =>
          match removed stats st1 with
          | (Ret _, st') => (Ret tt, callback defer "removed" st')
          | (Raise e, st') => (Raise e, st')
          end
      end
    else (Ret tt, callback defer rest st1).
Proof.
  intros Hp Hc. unfold lineReceived. rewrite Hp.
  destruct (response_line n rest) as (-> & -> & ->). by rewrite Hc.
Qed.

(** The response to a [remove] whose body decodes to an object naming a
    session of the table. *)
Lemma remove_response conn self now (n : N) rest command client timer d k session
    start_time st :
  protocols st !! conn = Some self →
  commands self !! pretty n = Some (mkPending command (WReply client) timer) →
  name command = "remove" →
  rest ≠ "error" → rest ≠ "halting" →
  cjson_decode rest = Some (JObj d) →
  PyDict.get "call_id" d = Some (JStr k) →
  PyDict.get "start_time" d = Some start_time →
  sessions st !! k = Some session →
  ∃ st' acc,
    lineReceived conn now (pretty n +:+ " " +:+ rest) st = (Ret tt, st')
    ∧ sessions st' = delete k (sessions st)
    ∧ relays st' = relays st
    ∧ trace st' = trace st
                  ++ Log DEBUG (LogGotStatistics (removal_record d session))
                  :: acc ++ [Reply client "removed"]
    ∧ accounting_calls acc
      = (if is_None start_time then []
         else imap (λ i _, (i, removal_record d session)) accounting)
    ∧ Forall accounting_effect acc.
Proof.
  intros Hp Hc Hname Herr Hhalt Hd Hk Hstart Hs.
  rewrite (lineReceived_response _ _ _ _ _ _ _ _ _ Hp Hc).
  apply String.eqb_neq in Herr, Hhalt. cbv zeta.
  rewrite Herr, Hhalt, Hname, Hd. simpl.
  set (st1 := cancel timer _).
  unfold removed, bind, lift, run, subscript. rewrite Hk. simpl.
  change (sessions st1) with (sessions st). rewrite Hs. simpl.
  destruct (update_statistics_eq (removal_record d session) start_time st1)
    as (acc & Hu & Hcalls & Hacc).
  { unfold removal_record, subscript.
    by rewrite !PyDict_get_set_ne, Hstart. }
  unfold removal_record in Hu. rewrite Hu.
  exists (client_reply client "removed"
            (with_sessions (delete k)
               (with_trace
                  (λ _, trace st1 ++
                        Log DEBUG (LogGotStatistics (removal_record d session)) :: acc)
                  st1))), acc.
  split; [done|]. split; [done|]. split; [done|]. split; [|done].
  unfold_state. by rewrite <- app_assoc.
Qed.

(** The response to a [remove] whose body decodes to an object without
    [call_id]: the handler raises KeyError after the request is forgotten
    and its timer cancelled; the session table is as before and the caller
    of the [remove] gets no reply. *)
Lemma remove_response_unnamed conn self now (n : N) rest command client timer d st :
  protocols st !! conn = Some self →
  commands self !! pretty n = Some (mkPending command (WReply client) timer) →
  name command = "remove" →
  rest ≠ "error" → rest ≠ "halting" →
  cjson_decode rest = Some (JObj d) →
  PyDict.get "call_id" d = None →
  lineReceived conn now (pretty n +:+ " " +:+ rest) st
  = (Raise (KeyError (JStr "call_id")),
     cancel timer (update_protocol conn (set_commands (delete (pretty n))) st)).
Proof.
  intros Hp Hc Hname Herr Hhalt Hd Hk.
  rewrite (lineReceived_response _ _ _ _ _ _ _ _ _ Hp Hc).
  apply String.eqb_neq in Herr, Hhalt. cbv zeta.
  rewrite Herr, Hhalt, Hname, Hd. simpl.
  unfold removed, bind, lift, subscript. by rewrite Hk.
Qed.

(** The response to an [update] that is being placed: the session is
    recorded for the relay that answered and the body goes to the client. *)
Lemma placement_success conn self now (n : N) body command L client timer k st :
  protocols st !! conn = Some self →
  commands self !! pretty n
    = Some (mkPending command (WPlace (conn :: L) command client) timer) →
  name command = "update" →
  call_id command = Some k →
  body ≠ "error" → body ≠ "halting" →
  lineReceived conn now (pretty n +:+ " " +:+ body) st
  = (Ret tt,
     client_reply client body
       (with_sessions <[k := RelaySession_init (ip self) command]>
          (cancel timer
             (update_protocol conn (set_commands (delete (pretty n))) st)))).
Proof.
  intros Hp Hc Hname Hk Herr Hhalt.
  rewrite (lineReceived_response _ _ _ _ _ _ _ _ _ Hp Hc).
  apply String.eqb_neq in Herr, Hhalt. cbv zeta.
  rewrite Herr, Hhalt, Hname. simpl.
  unfold _add_session. unfold_state.
  rewrite lookup_alter. case_decide; [|done]. rewrite Hp, Hk. done.
Qed.

(** ** [update] then [remove] *)

(** C5, as the code has it: a call-id is placed by an [update] that relay
    [conn] answers, and then removed by a [remove] that is routed to that
    relay.  When the response to the [remove] arrives, and it decodes to an
    object that names this call-id and has the key [start_time] (which may
    be null), the record given to [update_statistics] carries
    [timed_out = False] and the [dialog_id] of the session, every
    accounting module gets it (if its [start_time] is not null), the
    session is gone from the table and the caller of the [remove] is
    answered [removed]. *)
Theorem update_then_remove conn self now now' (n : N) body upd rm L client client'
    timer rnd k rest d start_time st :
  protocols st !! conn = Some self →
  relays st !! ip self = Some conn →
  commands self !! pretty n
    = Some (mkPending upd (WPlace (conn :: L) upd client) timer) →
  name upd = "update" → call_id upd = Some k →
  body ≠ "error" → body ≠ "halting" →
  name rm = "remove" → call_id rm = Some k →
  rest ≠ "error" → rest ≠ "halting" →
  cjson_decode rest = Some (JObj d) →
  PyDict.get "call_id" d = Some (JStr k) →
  PyDict.get "start_time" d = Some start_time →
  let session := RelaySession_init (ip self) upd in
  let record := removal_record d session in
  ∃ st1 st2 st3 acc,
    lineReceived conn now (pretty n +:+ " " +:+ body) st = (Ret tt, st1)
    ∧ sessions st1 !! k = Some session
    ∧ RelayFactory_send_command rnd client' rm st1 = (Ret None, st2)
    ∧ last (trace st2)
      = Some (RelayWrite conn (request_text rm (pretty (sequence_number self))))
    ∧ lineReceived conn now'
        (pretty (sequence_number self) +:+ " " +:+ rest) st2 = (Ret tt, st3)
    ∧ trace st3 = trace st2 ++ Log DEBUG (LogGotStatistics record)
                               :: acc ++ [Reply client' "removed"]
    ∧ Forall accounting_effect acc
    ∧ accounting_calls acc
      = (if is_None start_time then [] else imap (λ i _, (i, record)) accounting)
    ∧ subscript record "timed_out" = Ret (JBool false)
    ∧ subscript record "dialog_id" = Ret (json_of_option (dialog_id session))
    ∧ sessions st3 !! k = None.
Proof.
  intros Hp Hreg Hc Hupd Hk Herr Hhalt Hrm Hk' Herr' Hhalt' Hd Hcall Hstart
         session record.
  rewrite (placement_success _ _ _ _ _ _ _ _ _ _ _ Hp Hc Hupd Hk Herr Hhalt).
  set (st1 := client_reply client body _).
  assert (Hs1 : sessions st1 !! k = Some session) by apply lookup_insert_eq.
  set (self1 := set_commands (delete (pretty n)) self).
  assert (Hp1 : protocols st1 !! conn = Some self1).
  { subst st1. unfold_state. rewrite lookup_alter. case_decide; [|done].
    by rewrite Hp. }
  pose proof (pinned_routing rnd client' rm st1 k session Hk' Hs1 eq_refl) as Hpin.
  change (relay_ip session) with (ip self) in Hpin.
  change (relays st1) with (relays st) in Hpin. rewrite Hreg in Hpin.
  destruct Hpin as (st2 & Hsend & Hs2 & Hr2 & Hsent).
  destruct (Hsent self1 Hp1) as [Hst2 Hlast].
  assert (Hp2 : protocols st2 !! conn
                = Some (mkRelay (ip self1)
                          (<[pretty (sequence_number self1)
                             := mkPending rm (WReply client') (next_id st1)]>
                             (commands self1))
                          (halting self1) (timedout self1) (disconnect_timer self1)
                          (sequence_number self1 + 1)%N (authenticated self1))).
  { rewrite Hst2. apply lookup_insert_eq. }
  destruct (remove_response conn _ now' (sequence_number self) rest rm client'
              (next_id st1) d k session start_time st2 Hp2)
    as (st3 & acc & Hline & Hs3 & _ & Htr & Hcalls & Hacc);
    try done.
  { apply lookup_insert_eq. }
  { by rewrite Hs2. }
  exists st1, st2, st3, acc.
  repeat (split; [done|]).
  split; [|split].
  - unfold record, removal_record, subscript. by rewrite PyDict_get_set_eq.
  - unfold record, removal_record, subscript.
    by rewrite PyDict_get_set_ne, PyDict_get_set_eq.
  - rewrite Hs3. apply lookup_delete_eq.
Qed.

(** ** Malformed lines *)

(** An [expired] payload that decodes to an object without [call_id] is
    not dropped: the handler raises KeyError, and the state is unchanged. *)
Lemma expired_without_call_id conn self now rest d st :
  protocols st !! conn = Some self →
  cjson_decode rest = Some (JObj d) →
  PyDict.get "call_id" d = None →
  lineReceived conn now ("expired " +:+ rest) st
  = (Raise (KeyError (JStr "call_id")), st).
Proof.
  intros Hp Hd Hk. unfold lineReceived. rewrite Hp.
  change (PyStr.split1 " " ("expired " +:+ rest)) with (Some ("expired", rest)).
  cbv iota beta. rewrite String.eqb_refl, Hd.
  unfold expired, bind, lift, subscript. by rewrite Hk.
Qed.

(** C9, as the code has it: a line whose payload is not decodable JSON, be
    it an [expired] line or the response to a [remove], is logged, raises
    nothing and leaves the session table as it is; the caller of the [remove]
    is then answered [removed]. *)
Theorem malformed_line conn self now rest st :
  protocols st !! conn = Some self →
  cjson_decode rest = None →
  lineReceived conn now ("expired " +:+ rest) st
  = (Ret tt, log ERROR (LogDecodeError (ip self)) st)
  ∧ ∀ (n : N) command client timer,
      commands self !! pretty n = Some (mkPending command (WReply client) timer) →
      name command = "remove" → rest ≠ "error" → rest ≠ "halting" →
      ∃ st', lineReceived conn now (pretty n +:+ " " +:+ rest) st = (Ret tt, st')
        ∧ sessions st' = sessions st
        ∧ trace st' = trace st ++ [Log ERROR (LogDecodeError (ip self));
                                   Reply client "removed"].
Proof.
  intros Hp Hd. split.
  - unfold lineReceived. rewrite Hp.
    change (PyStr.split1 " " ("expired " +:+ rest)) with (Some ("expired", rest)).
    cbv iota beta. by rewrite String.eqb_refl, Hd.
  - intros n command client timer Hc Hname Herr Hhalt.
    rewrite (lineReceived_response _ _ _ _ _ _ _ _ _ Hp Hc).
    apply String.eqb_neq in Herr, Hhalt. cbv zeta.
    rewrite Herr, Hhalt, Hname, Hd. simpl.
    eexists; split; [done|]. split; [done|].
    unfold_state. by rewrite <- app_assoc.
Qed.

(** ** Persistence *)

Lemma arm_cleanup_timers addrs : ∀ st,
  timers_ok st →
  let st' :=
    fold_left
      (λ st addr,
         let '(t, st) := callLater (cleanup_dead_relays_after config)
                           (CallDoCleanup addr) st in
         with_cleanup_timers <[addr := t]> st)
      addrs st in
  timers_ok st'
  ∧ (∀ addr, is_Some (cleanup_timers st' !! addr)
             ↔ addr ∈ addrs ∨ is_Some (cleanup_timers st !! addr))
  ∧ sessions st' = sessions st ∧ relays st' = relays st
  ∧ state_file st' = state_file st ∧ trace st' = trace st.
Proof.
  induction addrs as [|a addrs IH]; intros st Hok.
  - split; [done|]. split; [|done]. intros addr. rewrite elem_of_nil. tauto.
  - cbn [fold_left].
    set (st1 := let '(t, st0) := callLater _ (CallDoCleanup a) st in _).
    assert (Hok1 : timers_ok st1).
    { destruct Hok as [Harmed Hbound]. split.
      - intros addr t. subst st1. unfold callLater. unfold_state.
        rewrite lookup_insert. case_decide as Ha.
        + intros [= Heq]. subst addr t. apply lookup_insert_eq.
        + intros Ht. rewrite lookup_insert_ne; [by apply Harmed|].
          intros Heq. apply Harmed in Ht.
          assert (t < next_id st) by (apply Hbound; by eexists). lia.
      - intros t. subst st1. unfold callLater. unfold_state. rewrite lookup_insert.
        case_decide; [lia|]. intros Ht. apply Hbound in Ht. lia. }
    destruct (IH st1 Hok1) as (Hok' & Hdom & Hs & Hr & Hf & Ht).
    split; [done|]. split; [|done].
    intros addr. rewrite Hdom, elem_of_cons. subst st1. unfold callLater. unfold_state.
    rewrite lookup_insert. case_decide as Ha.
    + split; [intros _; by left; left|intros _; right; by eexists].
    + split; [intros [?|?]; [by left; right|by right]|].
      intros [[?|?]|?]; [done|by left|by right].
Qed.

(** C6: [_save_state] writes the pickled session table to the state file,
    and [shutdown] gets there at once when no relay is connected, or when the
    last relay detaches.  Starting from a state file that holds a table [S]
    which pickle reads back, [__init__] has exactly [S] as its session table,
    no relay, the file deleted, and an armed cleanup timer for exactly the
    relay addresses that sessions of [S] refer to.  Whatever the file holds,
    it is deleted; if it cannot be loaded the session table is empty and no
    timer is armed. *)
Theorem shutdown_then_startup (st : DState) :
  let S := sessions st in
  state_file (_save_state st) = Some (pickle_dumps S)
  ∧ (shutting_down st = false → relays st = ∅ →
     state_file (shutdown st) = Some (pickle_dumps S)
     ∧ sessions (shutdown st) = S)
  ∧ (∀ conn p,
       shutting_down st = true → protocols st !! conn = Some p →
       authenticated p = true → relays st = {[ ip p := conn ]} →
       state_file (connection_lost conn st) = Some (pickle_dumps S))
  ∧ (pickle_loads (pickle_dumps S) = Some S →
     let st' := RelayFactory_init (state_file (_save_state st)) in
     sessions st' = S ∧ relays st' = ∅ ∧ state_file st' = None
     ∧ last (trace st') = Some Unlink
     ∧ ∀ addr, referenced S addr ↔ cleanup_armed st' addr)
  ∧ (∀ file,
       state_file (RelayFactory_init file) = None
       ∧ last (trace (RelayFactory_init file)) = Some Unlink
       ∧ (file ≫= pickle_loads = None →
          sessions (RelayFactory_init file) = ∅
          ∧ cleanup_timers (RelayFactory_init file) = ∅)).
Proof.
  intros S. subst S. set (S := sessions st). split; [done|]. split; [|split; [|split]].
  - intros Hsd Hr. unfold shutdown. rewrite Hsd.
    set (st1 := fold_left _ _ _).
    assert (Hst1 : sessions st1 = S ∧ relays st1 = ∅).
    { subst st1. generalize ((map_to_list (cleanup_timers (with_shutting_down true st))).*2).
      intros l.
      assert (Hgen : ∀ st0 : DState, sessions (fold_left (λ st t, cancel t st) l st0)
                                     = sessions st0
                                     ∧ relays (fold_left (λ st t, cancel t st) l st0)
                                       = relays st0).
      { induction l as [|t l IH]; intros st0; [done|]. simpl. by rewrite !(proj1 (IH _)), !(proj2 (IH _)). }
      destruct (Hgen (with_shutting_down true st)) as [-> ->]. done. }
    destruct Hst1 as [Hs1 Hr1]. rewrite Hr1, map_size_empty. simpl.
    unfold _save_state. unfold_state. by rewrite Hs1.
  - intros conn p Hsd Hp Hauth Hr. unfold connection_lost. rewrite Hp.
    rewrite bool_decide_true.
    2:{ unfold itervalues. rewrite Hr, map_to_list_singleton. set_solver. }
    rewrite Hauth. unfold_state. rewrite Hsd, Hr, delete_singleton_eq, map_size_empty.
    done.
  - intros Hload st'. subst st'. unfold RelayFactory_init, _save_state. unfold_state.
    fold S. cbn [mbind option_bind]. rewrite Hload.
    set (st0 := mkState S ∅ ∅ false ∅ ∅ ∅ 0 _ []).
    destruct (arm_cleanup_timers
                (elements (list_to_set ((λ kv, relay_ip kv.2) <$> map_to_list S)
                           : gset string)) st0)
      as ((Harmed & _) & Hdom & Hs & Hr & _ & Ht).
    { split.
      - intros addr t Ht. subst st0. cbn [cleanup_timers] in Ht.
        by rewrite lookup_empty in Ht.
      - intros t [x Hx]. subst st0. cbn [reactor] in Hx.
        by rewrite lookup_empty in Hx. }
    split; [exact Hs|]. split; [exact Hr|]. split; [done|].
    split; [unfold_state; by rewrite last_app|].
    intros addr. unfold referenced, cleanup_armed. unfold_state.
    split.
    + intros (k & s & Hk & <-).
      destruct (proj2 (Hdom (relay_ip s))) as [t Htimer].
      { left. apply elem_of_elements, elem_of_list_to_set, list_elem_of_fmap.
        exists (k, s). split; [done|]. by apply elem_of_map_to_list. }
      exists t. split; [done|]. by apply Harmed.
    + intros (t & Htimer & _).
      destruct (proj1 (Hdom addr)) as [Hin|[? Hin]]; [by eexists| |done].
      apply elem_of_elements, elem_of_list_to_set, list_elem_of_fmap in Hin
        as ([k s] & -> & Hin).
      apply elem_of_map_to_list in Hin. by exists k, s.
  - intros file. unfold RelayFactory_init. unfold_state.
    split; [done|]. split; [by rewrite last_app|].
    intros Hf. by rewrite Hf.
Qed.

(** ** Placing an [update] *)

(** [send_command] on an [update] whose call-id has no session, or an
    expired one: the candidates are tried from the first one on. *)
Lemma send_command_places rnd client command st :
  name command = "update" →
  (∀ k s, call_id command = Some k → sessions st !! k = Some s →
          expire_time s ≠ None) →
  RelayFactory_send_command rnd client command st
  = match _try_next (candidates rnd command st) command client (warned command st) with
    | (Ret _, st') => (Ret None, st')
    | (Raise e, st') => (Raise e, st')
    end.
Proof.
  intros Hname Hlive. unfold RelayFactory_send_command.
  assert (Hsession :
            match call_id command ≫= (λ k, sessions st !! k) with
            | Some (mkSession _ _ None) => False
            | _ => True
            end).
  { destruct (call_id command) as [k|]; [|done]. simpl.
    destruct (sessions st !! k) as [[? ? [|]]|] eqn:Hs; try done.
    by apply (Hlive k _ eq_refl Hs). }
  rewrite Hname. change (String.eqb "update" "update") with true. cbv iota.
  unfold candidates, warned, preferred_candidate, other_candidates.
  set (L := PyRandom.shuffle rnd _).
  destruct (call_id command ≫= _) as [[? ? [|]]|]; try done;
    destruct (parsed_headers command !! "media_relay") as [preferred|]; try done;
    destruct (relays st !! preferred) as [conn|]; try done; simpl;
    destruct (protocols st !! conn) as [p|]; try done; simpl;
    by destruct (active p).
Qed.

Lemma elem_of_itervalues st conn :
  conn ∈ itervalues st ↔ ∃ addr, relays st !! addr = Some conn.
Proof.
  unfold itervalues. rewrite list_elem_of_fmap. split.
  - intros ([addr c] & -> & Hin). exists addr. by apply elem_of_map_to_list.
  - intros [addr Hr]. exists (addr, conn). split; [done|].
    by apply elem_of_map_to_list.
Qed.

Lemma NoDup_itervalues st : registry_wf st → NoDup (itervalues st).
Proof.
  intros Hwf. unfold itervalues. apply NoDup_fmap_2_strong; [|apply NoDup_map_to_list].
  intros [a1 c1] [a2 c2] H1 H2 Heq. simpl in Heq. subst c2.
  apply elem_of_map_to_list in H1, H2.
  destruct (Hwf _ _ H1) as (p1 & Hp1 & Hip1 & _).
  destruct (Hwf _ _ H2) as (p2 & Hp2 & Hip2 & _).
  congruence.
Qed.

Lemma elem_of_other_candidates st command conn :
  conn ∈ other_candidates st command
  ↔ ∃ addr p, relays st !! addr = Some conn ∧ protocols st !! conn = Some p
              ∧ active p = true
              ∧ parsed_headers command !! "media_relay" ≠ Some (ip p).
Proof.
  unfold other_candidates. rewrite list_elem_of_filter, elem_of_itervalues.
  unfold is_candidate. split.
  - intros [Hc [addr Hr]]. destruct (protocols st !! conn) as [p|]; [|done].
    apply andb_true_iff in Hc as [Ha Hne]. exists addr, p.
    repeat split; try done. apply negb_true_iff, bool_decide_eq_false in Hne. done.
  - intros (addr & p & Hr & -> & Ha & Hne). split; [|by exists addr].
    rewrite Ha. simpl. by apply negb_true_iff, bool_decide_eq_false.
Qed.

Lemma preferred_candidate_Some st command conn :
  preferred_candidate st command = Some conn
  ↔ ∃ preferred p, parsed_headers command !! "media_relay" = Some preferred
                   ∧ relays st !! preferred = Some conn
                   ∧ protocols st !! conn = Some p ∧ active p = true.
Proof.
  unfold preferred_candidate. split.
  - destruct (parsed_headers command !! "media_relay") as [preferred|]; [|done].
    destruct (relays st !! preferred) as [c|] eqn:Hr; [|done].
    destruct (protocols st !! c) as [p|] eqn:Hp; [|done].
    destruct (active p) eqn:Ha; [|done].
    intros [= <-]. by exists preferred, p.
  - intros (preferred & p & -> & -> & -> & ->). done.
Qed.

(** Under a well-formed registry the candidate list holds exactly the
    connections that are registered and active, each once. *)
Lemma candidates_spec rnd command st :
  registry_wf st →
  NoDup (candidates rnd command st)
  ∧ ∀ conn, conn ∈ candidates rnd command st ↔ registered_active st conn.
Proof.
  intros Hwf. unfold candidates. split.
  - apply NoDup_app. split; [|split].
    + destruct (preferred_candidate st command); simpl;
        [apply NoDup_singleton|apply NoDup_nil_2].
    + intros conn Hin. rewrite shuffle_Permutation, elem_of_other_candidates.
      intros (addr & p & Hr & Hp & _ & Hne).
      destruct (preferred_candidate st command) as [c|] eqn:Hpc; simpl in Hin;
        [|by apply elem_of_nil in Hin].
      apply list_elem_of_singleton in Hin. subst c.
      apply preferred_candidate_Some in Hpc
        as (preferred & p' & Hm & Hr' & Hp' & _).
      destruct (Hwf _ _ Hr') as (p'' & Hp'' & Hip & _).
      apply Hne. congruence.
    + rewrite shuffle_Permutation. unfold other_candidates.
      by apply NoDup_filter, NoDup_itervalues.
  - intros conn. rewrite elem_of_app, shuffle_Permutation, elem_of_other_candidates.
    unfold registered_active. split.
    + intros [Hin|(addr & p & Hr & Hp & Ha & _)]; [|by exists addr, p].
      destruct (preferred_candidate st command) as [c|] eqn:Hpc; simpl in Hin;
        [|by apply elem_of_nil in Hin].
      apply list_elem_of_singleton in Hin. subst c.
      apply preferred_candidate_Some in Hpc as (preferred & p & _ & Hr & Hp & Ha).
      by exists preferred, p.
    + intros (addr & p & Hr & Hp & Ha).
      destruct (decide (parsed_headers command !! "media_relay" = Some (ip p)))
        as [Hm|Hm]; [left|right; by exists addr, p].
      destruct (Hwf _ _ Hr) as (p' & Hp' & Hip & _).
      assert (p' = p) by congruence. subst p'.
      assert (Hpc : preferred_candidate st command = Some conn).
      { apply preferred_candidate_Some. exists addr, p. by rewrite Hm, Hip. }
      rewrite Hpc. simpl. by apply list_elem_of_singleton.
Qed.

Lemma written_app st st' new :
  trace st' = trace st ++ new → written st' = written st ++ (relay_writes new).*1.
Proof.
  intros Ht. unfold written, relay_writes. by rewrite Ht, omap_app, fmap_app.
Qed.

(** A candidate fails: it is dropped and the next one is tried, or, if it
    was the last one, the client is answered [error]. *)
Lemma errback_place addr_of e conn L command client st :
  conn ∉ L → NoDup L → connected addr_of L st →
  let st' := errback (WPlace (conn :: L) command client) e st in
  sessions st' = sessions st
  ∧ relays st' = relays st
  ∧ protocols st' !! conn = protocols st !! conn
  ∧ connected addr_of L st'
  ∧ placing command client L st'
  ∧ next_id st ≤ next_id st'
  ∧ (∀ t, t < next_id st → reactor st' !! t = reactor st !! t)
  ∧ written st' = written st ++ take 1 L
  ∧ (L = [] →
     trace st' = trace st ++ [Log WARNING (LogRelayFailed conn e);
                              Log ERROR (LogFailure (RelayError NoSuitableRelay));
                              Reply client "error"]).
Proof.
  intros Hconn Hnd Hall. unfold errback, _relay_error, bind, run, _try_next.
  destruct L as [|c' L']; simpl.
  - repeat split; try done.
    + erewrite (written_app st _ [Log WARNING _; Log ERROR _; Reply client "error"]);
        [done|]. unfold_state. by rewrite <- !app_assoc.
    + intros _. unfold_state. by rewrite <- !app_assoc.
  - destruct (Hall c') as (p' & Hp' & Hip'); [set_solver|].
    set (st1 := log WARNING (LogRelayFailed conn e) st).
    rewrite (relay_send_command_sent c' command _ st1 p' Hp').
    apply NoDup_cons in Hnd as [Hc' Hnd].
    assert (conn ≠ c') by set_solver.
    unfold sent. subst st1. unfold_state.
    split; [done|]. split; [done|]. split; [by rewrite lookup_insert_ne|].
    split; [|split; [|split; [|split; [|split]]]].
    + intros c Hc. cbn [protocols]. destruct (decide (c = c')) as [->|Hne].
      * rewrite lookup_insert_eq. by eexists.
      * rewrite lookup_insert_ne by done. apply Hall. set_solver.
    + exists (mkRelay (ip p')
                (<[pretty (sequence_number p')
                   := mkPending command (WPlace (c' :: L') command client) (next_id st)]>
                   (commands p'))
                (halting p') (timedout p') (disconnect_timer p')
                (sequence_number p' + 1)%N (authenticated p')),
             (sequence_number p'), (next_id st).
      cbn [protocols reactor next_id sequence_number commands].
      rewrite !lookup_insert_eq. repeat split; try done. lia.
    + lia.
    + intros t Ht. rewrite lookup_insert_ne; [done|lia].
    + erewrite (written_app st _ [Log WARNING _; Log DEBUG _; RelayWrite c' _]);
        [done|]. cbn [trace]. by rewrite <- !app_assoc.
    + done.
Qed.

(** The placement in progress does not depend on what happens to the other
    connections, nor on timers that are armed later. *)
Lemma placing_frame addr_of command client L st st' :
  (∀ c, c ∈ L → protocols st' !! c = protocols st !! c) →
  (∀ t, t < next_id st → reactor st' !! t = reactor st !! t) →
  next_id st ≤ next_id st' →
  (connected addr_of L st → connected addr_of L st')
  ∧ (placing command client L st → placing command client L st').
Proof.
  intros Hp Hr Hn. split.
  - intros Hc c Hin. rewrite Hp by done. by apply Hc.
  - destruct L as [|c L]; [done|]. intros (p & n & t & Hpc & Hseq & Hcmd & Ht & Hlt).
    exists p, n, t. rewrite Hp by set_solver. rewrite Hr by done.
    repeat split; try done. lia.
Qed.

Lemma last_request_placing command client conn L st :
  placing command client (conn :: L) st →
  ∃ p n t,
    protocols st !! conn = Some p
    ∧ commands p !! pretty n
      = Some (mkPending command (WPlace (conn :: L) command client) t)
    ∧ reactor st !! t = Some (relay_timeout config, CallTimeout conn (pretty n))
    ∧ t < next_id st
    ∧ last_request st conn
      = Some (n, mkPending command (WPlace (conn :: L) command client) t).
Proof.
  intros (p & n & t & Hp & Hseq & Hcmd & Ht & Hlt). exists p, n, t.
  repeat split; try done.
  unfold last_request. rewrite Hp, Hseq.
  replace (n + 1 - 1)%N with n by lia. by rewrite Hcmd.
Qed.

(** The relay that is being tried fails, by answering [error] or [halting]
    or by not answering in time: the next candidate is sent the command, or
    the client is told that no relay is left; the session table does not
    change. *)
Lemma placement_failure addr_of now a conn L command client st :
  failure a →
  NoDup (conn :: L) →
  connected addr_of (conn :: L) st →
  placing command client (conn :: L) st →
  ∃ n e,
    last_request st conn = Some (n, e)
    ∧ let st' := deliver conn n (p_timer e) a now st in
      sessions st' = sessions st
      ∧ relays st' = relays st
      ∧ connected addr_of L st'
      ∧ placing command client L st'
      ∧ written st' = written st ++ take 1 L
      ∧ (L = [] →
         ∃ pre, trace st' = pre ++ [Log ERROR (LogFailure (RelayError NoSuitableRelay));
                                   Reply client "error"]).
Proof.
  intros Hfail Hnd Hconn Hplacing.
  destruct (last_request_placing _ _ _ _ _ Hplacing)
    as (p & n & t & Hp & Hcmd & Ht & Hlt & Hlast).
  exists n, (mkPending command (WPlace (conn :: L) command client) t).
  split; [done|]. cbn [p_timer].
  apply NoDup_cons in Hnd as [Hnotin Hnd].
  assert (HconnL : connected addr_of L st).
  { intros c Hc. apply Hconn. by apply elem_of_cons; right. }
  set (st1 := cancel t (update_protocol conn (set_commands (delete (pretty n))) st)).
  assert (Hframe1 : ∀ f g (st0 : DState),
            (∀ c, c ∈ L →
               protocols (with_reactor g (update_protocol conn f st0)) !! c
               = protocols st0 !! c)).
  { intros f g st0 c Hc. unfold_state. rewrite lookup_alter_ne; [done|].
    by intros ->. }
  assert (Hconn1 : ∀ f g, connected addr_of L
                            (with_reactor g (update_protocol conn f st))).
  { intros f g c Hc. rewrite Hframe1 by done. by apply HconnL. }
  destruct a as [body| | |]; [done| | |]; cbn [deliver].
  - (* error *)
    rewrite (lineReceived_response _ _ _ _ _ _ _ _ _ Hp Hcmd). cbn [snd].
    change (String.eqb "error" "error") with true. cbv iota zeta. cbn [snd].
    destruct (errback_place addr_of (RelayReturnedError (ip p) (name command))
                conn L command client st1 Hnotin Hnd (Hconn1 _ _))
      as (Hs & Hr & _ & Hc' & Hpl & _ & _ & Hw & Htr).
    split; [exact Hs|]. split; [exact Hr|]. split; [exact Hc'|].
    split; [exact Hpl|]. split; [exact Hw|].
    intros HL. eexists (trace st1 ++ [_]). rewrite <- app_assoc. exact (Htr HL).
  - (* halting *)
    rewrite (lineReceived_response _ _ _ _ _ _ _ _ _ Hp Hcmd). cbn [snd].
    change (String.eqb "halting" "error") with false.
    change (String.eqb "halting" "halting") with true. cbv iota zeta. cbn [snd].
    set (st2 := update_protocol conn (set_halting true) st1).
    assert (Hconn2 : connected addr_of L st2).
    { intros c Hc. subst st2 st1. unfold_state.
      rewrite !lookup_alter_ne by (by intros ->). by apply HconnL. }
    destruct (errback_place addr_of (RelayShuttingDown (ip p))
                conn L command client st2 Hnotin Hnd Hconn2)
      as (Hs & Hr & _ & Hc' & Hpl & _ & _ & Hw & Htr).
    split; [exact Hs|]. split; [exact Hr|]. split; [exact Hc'|].
    split; [exact Hpl|]. split; [exact Hw|].
    intros HL. eexists (trace st2 ++ [_]). rewrite <- app_assoc. exact (Htr HL).
  - (* the timer expires *)
    unfold fire. rewrite Ht.
    unfold _timeout. change (protocols (with_reactor (delete t) st)) with (protocols st).
    rewrite Hp, Hcmd.
    set (st2 := update_protocol conn (set_commands (delete (pretty n)))
                  (with_reactor (delete t) st)).
    assert (Hconn2 : connected addr_of L st2).
    { intros c Hc. subst st2. unfold_state.
      rewrite !lookup_alter_ne by (by intros ->). by apply HconnL. }
    destruct (errback_place addr_of (RelayTimedOut (name command) (ip p))
                conn L command client st2 Hnotin Hnd Hconn2)
      as (Hs & Hr & _ & Hc' & Hpl & _ & _ & Hw & Htr).
    set (st3 := errback _ _ st2) in *.
    assert (Hfinal : ∀ st4 : DState,
              (∀ c, c ∈ L → protocols st4 !! c = protocols st3 !! c) →
              (∀ t, t < next_id st3 → reactor st4 !! t = reactor st3 !! t) →
              next_id st3 ≤ next_id st4 →
              sessions st4 = sessions st3 → relays st4 = relays st3 →
              trace st4 = trace st3 →
              sessions st4 = sessions st
              ∧ relays st4 = relays st
              ∧ connected addr_of L st4
              ∧ placing command client L st4
              ∧ written st4 = written st ++ take 1 L
              ∧ (L = [] →
                 ∃ pre, trace st4
                        = pre ++ [Log ERROR (LogFailure (RelayError NoSuitableRelay));
                                  Reply client "error"])).
    { intros st4 H1 H2 H3 H4 H5 H6.
      destruct (placing_frame addr_of command client L st3 st4 H1 H2 H3) as [Hc4 Hp4].
      split; [by rewrite H4|]. split; [by rewrite H5|].
      split; [by apply Hc4|]. split; [by apply Hp4|].
      split; [unfold written in *; by rewrite H6|].
      intros HL. rewrite H6. eexists (trace st2 ++ [_]). rewrite <- app_assoc.
      exact (Htr HL). }
    destruct (timedout <$> protocols st3 !! conn) as [[|]|]; cbn [snd];
      try (by apply Hfinal).
    apply Hfinal; unfold callLater; unfold_state; cbn [snd]; unfold_state; try done.
    + intros c Hc. rewrite !lookup_alter_ne by (by intros ->). done.
    + intros t' Ht'. rewrite lookup_insert_ne; [done|lia].
    + lia.
Qed.

(** Every candidate fails: the client is answered [error] and the session
    table is as before. *)
Lemma failover_exhausted addr_of now command client : ∀ L answers st,
  L ≠ [] → length answers = length L → Forall failure answers →
  NoDup L → connected addr_of L st → placing command client L st →
  let st' := failover now answers L st in
  sessions st' = sessions st
  ∧ written st' = written st ++ tail L
  ∧ ∃ pre, trace st' = pre ++ [Log ERROR (LogFailure (RelayError NoSuitableRelay));
                              Reply client "error"].
Proof.
  induction L as [|conn L IH]; intros answers st Hne Hlen Hfail Hnd Hconn Hpl; [done|].
  destruct answers as [|a answers]; [done|].
  apply Forall_cons in Hfail as [Ha Hfail].
  destruct (placement_failure addr_of now a conn L command client st Ha Hnd Hconn Hpl)
    as (n & e & Hlast & Hs & _ & Hconn' & Hpl' & Hw & Htr).
  cbn [failover]. rewrite Hlast.
  set (st1 := deliver conn n (p_timer e) a now st) in *.
  assert (Hgo : (match a with
                 | Body _ => st1
                 | _ => failover now answers L st1
                 end) = failover now answers L st1) by (by destruct a).
  cbv zeta. rewrite Hgo. clear Hgo.
  destruct L as [|c' L'].
  - destruct answers; [|done]. cbn [failover tail].
    split; [done|]. split; [by rewrite Hw|]. by apply Htr.
  - apply NoDup_cons in Hnd as [_ Hnd].
    destruct (IH answers st1) as (Hs' & Hw' & Htr'); try done.
    { simpl in Hlen |- *. lia. }
    split; [by rewrite Hs'|]. split; [|done].
    rewrite Hw', Hw. cbn [take tail]. by rewrite <- app_assoc.
Qed.

(** The first candidates fail and the next one answers: the session is
    recorded for the relay that answered, and its answer goes to the
    client. *)
Lemma failover_success addr_of now command client k good rest body :
  name command = "update" → call_id command = Some k →
  body ≠ "error" → body ≠ "halting" →
  ∀ failed answers st,
    length answers = length failed → Forall failure answers →
    NoDup (failed ++ good :: rest) →
    connected addr_of (failed ++ good :: rest) st →
    placing command client (failed ++ good :: rest) st →
    let st' := failover now (answers ++ [Body body]) (failed ++ good :: rest) st in
    sessions st' = <[k := RelaySession_init (addr_of good) command]> (sessions st)
    ∧ last (trace st') = Some (Reply client body)
    ∧ written st' = written st ++ tail (failed ++ [good]).
Proof.
  intros Hname Hk Herr Hhalt.
  induction failed as [|conn failed IH]; intros answers st Hlen Hfail Hnd Hconn Hpl.
  - destruct answers; [|done]. cbn [app failover].
    destruct (last_request_placing _ _ _ _ _ Hpl)
      as (p & n & t & Hp & Hcmd & _ & _ & Hlast).
    rewrite Hlast. cbn [deliver p_timer].
    rewrite (placement_success _ _ _ _ _ _ _ _ _ _ _ Hp Hcmd Hname Hk Herr Hhalt).
    destruct (Hconn good) as (p' & Hp' & Hip); [by apply elem_of_cons; left|].
    assert (p' = p) by congruence. subst p'. rewrite Hip.
    cbn [snd]. split; [done|]. split.
    + unfold_state. by rewrite last_snoc.
    + erewrite (written_app st _ [Reply client body]); [|done].
      reflexivity.
  - destruct answers as [|a answers]; [done|].
    apply Forall_cons in Hfail as [Ha Hfail].
    destruct (placement_failure addr_of now a conn (failed ++ good :: rest)
                command client st Ha Hnd Hconn Hpl)
      as (n & e & Hlast & Hs & _ & Hconn' & Hpl' & Hw & _).
    cbn [app failover]. rewrite Hlast.
    set (st1 := deliver conn n (p_timer e) a now st) in *.
    assert (Hgo : ∀ X, (match a with
                        | Body _ => st1
                        | _ => X
                        end) = X) by (by destruct a).
    cbv zeta. rewrite Hgo. clear Hgo.
    apply NoDup_cons in Hnd as [_ Hnd].
    destruct (IH answers st1) as (Hs' & Htr' & Hw'); try done.
    { simpl in Hlen. lia. }
    split; [by rewrite Hs', Hs|]. split; [done|].
    rewrite Hw', Hw, <- app_assoc. f_equal.
    by destruct failed.
Qed.

(** The first candidate is sent the command. *)
Lemma try_next_placing addr_of command client conn L st :
  connected addr_of (conn :: L) st →
  let st' := relay_send_command conn command (WPlace (conn :: L) command client) st in
  sessions st' = sessions st
  ∧ connected addr_of (conn :: L) st'
  ∧ placing command client (conn :: L) st'
  ∧ written st' = written st ++ [conn].
Proof.
  intros Hconn. destruct (Hconn conn) as (p & Hp & Hip); [by apply elem_of_cons; left|].
  cbv zeta. rewrite (relay_send_command_sent _ _ _ _ _ Hp). unfold sent.
  split; [done|]. split; [|split].
  - intros c Hc. cbn [protocols]. destruct (decide (c = conn)) as [->|Hne].
    + rewrite lookup_insert_eq. by eexists.
    + rewrite lookup_insert_ne by done. by apply Hconn.
  - eexists _, (sequence_number p), (next_id st). cbn [protocols reactor next_id].
    rewrite !lookup_insert_eq. split; [done|]. cbn [sequence_number commands].
    rewrite lookup_insert_eq. repeat split; try done. lia.
  - erewrite (written_app st _ [Log DEBUG _; RelayWrite conn _]); [done|]. done.
Qed.

Lemma warned_frame command st :
  sessions (warned command st) = sessions st
  ∧ protocols (warned command st) = protocols st
  ∧ written (warned command st) = written st.
Proof.
  unfold warned. destruct (parsed_headers command !! "media_relay");
    [destruct (preferred_candidate st command)|]; try done.
  split; [done|]. split; [done|].
  erewrite (written_app st _ [Log WARNING _]); [|done]. simpl. by rewrite app_nil_r.
Qed.

(** C3: an [update] whose call-id has no live session.  The candidate list
    is the relay of the [media_relay] header, first, exactly when that relay
    is registered and active (otherwise a warning is logged), followed by the
    other active connections of the registry in the order that [shuffle]
    gives: a permutation of them, every ordering being the result of exactly
    one sequence of draws.  The command is sent to the first candidate; each
    time the candidate that is being tried fails (it answers [error] or
    [halting], or does not answer in time) the command is sent to the next
    one; when a candidate answers with a body, a session pinned to the
    address of that relay, with the [dialog_id] of the command and no
    [expire_time], is recorded and the body goes to the client; when there is
    no candidate (left), the outcome is the error "no suitable relay
    found". *)
Theorem update_placement rnd client command k st :
  name command = "update" →
  call_id command = Some k →
  (∀ s, sessions st !! k = Some s → expire_time s ≠ None) →
  registry_wf st →
  let others := other_candidates st command in
  let L := candidates rnd command st in
  let st0 := match L with
             | [] => warned command st
             | conn :: _ =>
                 relay_send_command conn command (WPlace L command client)
                   (warned command st)
             end in
  (* the candidate list *)
  L = option_list (preferred_candidate st command) ++ PyRandom.shuffle rnd others
  ∧ (∀ preferred conn,
       parsed_headers command !! "media_relay" = Some preferred →
       relays st !! preferred = Some conn →
       (head L = Some conn ↔ ∃ p, protocols st !! conn = Some p ∧ active p = true)
       ∧ (conn ∈ L → head L = Some conn))
  ∧ (∀ conn, conn ∈ others ↔
       registered_active st conn
       ∧ ∀ preferred, parsed_headers command !! "media_relay" = Some preferred →
                      relays st !! preferred ≠ Some conn)
  ∧ PyRandom.shuffle rnd others ≡ₚ others
  ∧ (∀ order, others ≡ₚ order → ∃ rnd', PyRandom.shuffle rnd' others = order)
  ∧ (∀ rnd' : nat → nat,
       PyRandom.shuffle rnd' others = PyRandom.shuffle rnd others →
       ∀ i, 1 ≤ i < length others → rnd' i `mod` S i = rnd i `mod` S i)
  ∧ NoDup L
  ∧ trace (warned command st)
    = trace st ++ match parsed_headers command !! "media_relay",
                        preferred_candidate st command with
                  | Some preferred, None => [Log WARNING (LogNotAvailable preferred)]
                  | _, _ => []
                  end
  (* the attempts *)
  ∧ RelayFactory_send_command rnd client command st
    = (match L with
       | [] => Raise (RelayError NoSuitableRelay)
       | _ => Ret None
       end, st0)
  ∧ sessions st0 = sessions st
  ∧ written st0 = written st ++ take 1 L
  ∧ (∀ now failed good rest answers body,
       L = failed ++ good :: rest →
       length answers = length failed → Forall failure answers →
       body ≠ "error" → body ≠ "halting" →
       let st' := failover now (answers ++ [Body body]) L st0 in
       ∃ p, protocols st !! good = Some p
         ∧ sessions st'
           = <[k := mkSession (ip p) (parsed_headers command !! "dialog_id") None]>
               (sessions st)
         ∧ last (trace st') = Some (Reply client body)
         ∧ written st' = written st ++ failed ++ [good])
  ∧ (∀ now answers,
       L ≠ [] → length answers = length L → Forall failure answers →
       let st' := failover now answers L st0 in
       sessions st' = sessions st
       ∧ written st' = written st ++ L
       ∧ ∃ pre, trace st' = pre ++ [Log ERROR (LogFailure (RelayError NoSuitableRelay));
                                   Reply client "error"]).
Proof.
  intros Hname Hk Hlive Hwf others L st0.
  destruct (candidates_spec rnd command st Hwf) as [Hnd Hin].
  fold L in Hnd, Hin.
  set (addr_of := λ c, match protocols st !! c with
                       | Some p => ip p
                       | None => EmptyString
                       end).
  assert (Hconn : connected addr_of L (warned command st)).
  { intros c Hc. apply Hin in Hc as (addr & p & _ & Hp & _).
    exists p. subst addr_of. cbv beta.
    rewrite (proj1 (proj2 (warned_frame command st))). by rewrite Hp. }
  assert (Hnd_others : NoDup others).
  { unfold others, other_candidates. by apply NoDup_filter, NoDup_itervalues. }
  split; [done|]. split; [|split; [|split; [|split; [|split; [|split; [|split]]]]]].
  - intros preferred conn Hm Hr.
    assert (Hhead : (∃ p, protocols st !! conn = Some p ∧ active p = true) →
                    head L = Some conn).
    { intros (p & Hp & Ha).
      assert (Hpc : preferred_candidate st command = Some conn).
      { apply preferred_candidate_Some. by exists preferred, p. }
      subst L. unfold candidates. by rewrite Hpc. }
    split; [split; [|done]|].
    + intros Hh. apply head_Some_elem_of, Hin in Hh as (addr & p & _ & Hp & Ha).
      by exists p.
    + intros Hc. apply Hin in Hc as (addr & p & _ & Hp & Ha).
      apply Hhead. by exists p.
  - intros conn. unfold others. rewrite elem_of_other_candidates.
    unfold registered_active. split.
    + intros (addr & p & Hr & Hp & Ha & Hne). split; [by exists addr, p|].
      intros preferred Hm Hr'. destruct (Hwf _ _ Hr') as (p' & Hp' & Hip & _).
      apply Hne. congruence.
    + intros [(addr & p & Hr & Hp & Ha) Hne]. exists addr, p.
      repeat split; try done. intros Hm.
      destruct (Hwf _ _ Hr) as (p' & Hp' & Hip & _).
      apply (Hne _ Hm). congruence.
  - apply shuffle_Permutation.
  - apply shuffle_surjective.
  - intros rnd' Heq. by apply shuffle_injective.
  - done.
  - unfold warned. destruct (parsed_headers command !! "media_relay");
      [destruct (preferred_candidate st command)|]; unfold_state;
      by rewrite ?app_nil_r.
  - assert (Hsend : RelayFactory_send_command rnd client command st
                    = (match L with
                       | [] => Raise (RelayError NoSuitableRelay)
                       | _ => Ret None
                       end, st0)).
    { rewrite send_command_places; [|done|].
      - fold L. subst st0. by destruct L.
      - intros k' s Hk' Hs. rewrite Hk in Hk'. injection Hk' as <-. by apply Hlive. }
    split; [done|].
    destruct L as [|c0 L'] eqn:HL.
    + subst st0. split; [apply warned_frame|].
      split; [|split; [|done]].
      * rewrite (proj2 (proj2 (warned_frame command st))). by rewrite app_nil_r.
      * intros now failed good rest answers body Heq. by destruct failed.
    + destruct (try_next_placing addr_of command client c0 L' (warned command st) Hconn)
        as (Hs0 & Hconn0 & Hpl0 & Hw0).
      fold st0 in Hs0, Hconn0, Hpl0, Hw0.
      assert (Hs : sessions st0 = sessions st).
      { rewrite Hs0. apply warned_frame. }
      assert (Hw : written st0 = written st ++ [c0]).
      { rewrite Hw0. f_equal. apply warned_frame. }
      split; [done|]. split; [done|]. split.
      * intros now failed good rest answers body Heq Hlen Hfail Herr Hhalt.
        rewrite Heq in *.
        destruct (failover_success addr_of now command client k good rest body
                    Hname Hk Herr Hhalt failed answers st0 Hlen Hfail Hnd Hconn0 Hpl0)
          as (Hs' & Htr' & Hw').
        assert (Hgood : good ∈ failed ++ good :: rest).
        { apply elem_of_app. right. by apply elem_of_cons; left. }
        assert (Hpgood : ∃ p, protocols st !! good = Some p ∧ ip p = addr_of good).
        { destruct (proj1 (Hin good)) as (addr & p & _ & Hp & _); [done|].
          exists p. split; [done|]. subst addr_of. cbv beta. by rewrite Hp. }
        destruct Hpgood as (p & Hp & Hip). exists p. split; [done|].
        split; [by rewrite Hs', Hs, Hip|]. split; [done|].
        rewrite Hw', Hw, <- app_assoc. f_equal.
        destruct failed as [|f failed]; simpl in Heq |- *; congruence.
      * intros now answers _ Hlen Hfail.
        destruct (failover_exhausted addr_of now command client (c0 :: L') answers st0)
          as (Hs' & Hw' & Htr'); try done.
        split; [by rewrite Hs'|]. split; [|done].
        rewrite Hw', Hw, <- app_assoc. done.
Qed.

(** ** Aggregation *)

Lemma omap_Forall2 {A B C} (f : A → option C) (g : B → option C) l1 l2 :
  Forall2 (λ x y, f x = g y) l1 l2 → omap f l1 = omap g l2.
Proof.
  induction 1 as [|x y l1 l2 Hxy _ IH]; [done|].
  cbn [omap list_omap]. rewrite Hxy. fold (omap f l1) (omap g l2). by rewrite IH.
Qed.

(** The reply that the callback of the list builds from the results is the
    list of the contributions of the relays. *)
Lemma gather_finish_reply k items answers rs :
  Forall2 (λ r (ia : (string * conn_id) * answer), result_matches k ia.1.1 ia.2 r)
          rs (zip items answers) →
  gather_finish k rs = aggregated_reply k items answers.
Proof.
  intros Hrs. unfold aggregated_reply.
  destruct k; unfold gather_finish, _got_summaries, _got_statistics;
    do 3 f_equal; apply omap_Forall2;
    (eapply Forall2_impl; [exact Hrs|]);
    intros r [[addr conn] a]; unfold result_matches, contribution; cbn [fst snd];
    destruct a; try (by intros ->); by intros [e ->].
Qed.

(** A result arrives for the first position of a [DeferredList] that is
    still empty: it is stored, and if it was the last one the list fires and
    the client is answered. *)
Lemma DeferredList_result_next k g client done m r st :
  gathers st !! g
  = Some (mkGather k client ((Some <$> done) ++ replicate (S m) None)) →
  DeferredList_result g (length done) r st
  = let st1 := with_gathers
                 <[g := mkGather k client
                          ((Some <$> (done ++ [r])) ++ replicate m None)]> st in
    match m with
    | 0 => client_reply client (gather_finish k (done ++ [r])) st1
    | S _ => st1
    end.
Proof.
  intros Hg. unfold DeferredList_result. rewrite Hg. cbn [g_results g_kind g_client].
  assert (Hins : <[length done := Some r]>
                   ((Some <$> done) ++ replicate (S m) (@None (outcome string)))
                 = (Some <$> (done ++ [r])) ++ replicate m None).
  { rewrite <- (Nat.add_0_r (length done)).
    rewrite <- (length_fmap Some done) at 1.
    rewrite insert_app_r. cbn [replicate]. rewrite fmap_snoc, <- app_assoc. done. }
  rewrite Hins. cbv zeta. destruct m as [|m].
  - cbn [replicate]. rewrite app_nil_r, mapM_fmap_Some by done. done.
  - replace (mapM id ((Some <$> (done ++ [r])) ++ replicate (S m) None))
      with (@None (list (outcome string))); [done|].
    symmetry. apply mapM_None, Exists_app. right. by left.
Qed.

(** The comprehension of an aggregation: every connection of [items] is sent
    the command, as its next request, whatever its state. *)
Lemma fan_out_spec k g : ∀ items (h : nat → nat) st,
  NoDup items.*2 →
  (∀ addr conn, (addr, conn) ∈ items →
     ∃ p, protocols st !! conn = Some p ∧ ip p = addr) →
  let st' :=
    fold_left
      (λ st (entry : nat * (string * conn_id)),
         let '(i, (addr, relay)) := entry in
         relay_send_command relay (command_of k) (waiter_of k g i addr) st)
      (imap (λ i x, (h i, x)) items) st in
  gathers st' = gathers st
  ∧ sessions st' = sessions st
  ∧ relay_writes (trace st')
    = relay_writes (trace st)
      ++ ((λ item : string * conn_id,
             (item.2, request_text (command_of k) (next_seq st item.2))) <$> items)
  ∧ next_id st ≤ next_id st'
  ∧ (∀ c, c ∉ items.*2 → protocols st' !! c = protocols st !! c)
  ∧ (∀ t, t < next_id st → reactor st' !! t = reactor st !! t)
  ∧ ∀ j addr conn, items !! j = Some (addr, conn) →
      requested k g (h j) addr conn st'.
Proof.
  induction items as [|[addr conn] items IH]; intros h st Hnd Hex.
  - cbn. repeat split; try done. by rewrite app_nil_r.
  - rewrite imap_cons.
    change (imap ((λ i (x : string * conn_id), (h i, x)) ∘ S) items)
      with (imap (λ i (x : string * conn_id), ((h ∘ S) i, x)) items).
    cbn [fold_left].
    destruct (Hex addr conn) as (p & Hp & Hip); [by left|].
    rewrite (relay_send_command_sent _ _ _ _ _ Hp).
    set (st1 := sent conn (command_of k) (waiter_of k g (h 0) addr) p st).
    cbn [fmap list_fmap snd] in Hnd. apply NoDup_cons in Hnd as [Hnotin Hnd].
    assert (Hother : ∀ c, c ≠ conn → protocols st1 !! c = protocols st !! c).
    { intros c Hc. subst st1. unfold sent. cbn [protocols].
      by rewrite lookup_insert_ne. }
    assert (Hne : ∀ a c, (a, c) ∈ items → c ≠ conn).
    { intros a c Hin ->. apply Hnotin. apply list_elem_of_fmap. by exists (a, conn). }
    assert (Hnext : next_id st1 = S (next_id st)) by done.
    destruct (IH (h ∘ S) st1 Hnd) as (Hg & Hs & Hw & Hn & Hp' & Hr & Hreq).
    { intros a c Hin. rewrite Hother by (by eapply Hne).
      apply Hex. by right. }
    split; [by rewrite Hg|]. split; [by rewrite Hs|].
    split; [|split; [|split; [|split]]].
    + rewrite Hw. subst st1. unfold sent at 1. cbn [trace].
      unfold relay_writes at 1. rewrite omap_app. fold (relay_writes (trace st)).
      cbn [omap list_omap]. rewrite <- app_assoc. f_equal.
      cbn [fmap list_fmap app snd]. unfold next_seq at 2. rewrite Hp. f_equal.
      apply list_fmap_ext. intros i [a c] Hi. cbn [snd]. unfold next_seq.
      rewrite Hother; [done|]. eapply Hne, list_elem_of_lookup_2, Hi.
    + lia.
    + intros c Hc. cbn [fmap list_fmap snd] in Hc.
      apply not_elem_of_cons in Hc as [Hc1 Hc2].
      rewrite Hp' by done. by apply Hother.
    + intros t Ht. rewrite Hr by lia.
      subst st1. unfold sent. cbn [reactor]. rewrite lookup_insert_ne; [done|lia].
    + intros [|j] a c Hj.
      * cbn in Hj. injection Hj as <- <-.
        exists (mkRelay (ip p)
                  (<[pretty (sequence_number p)
                     := mkPending (command_of k) (waiter_of k g (h 0) addr) (next_id st)]>
                     (commands p))
                  (halting p) (timedout p) (disconnect_timer p)
                  (sequence_number p + 1)%N (authenticated p)),
               (sequence_number p), (next_id st).
        rewrite Hp' by done. rewrite Hr by lia.
        split; [apply lookup_insert_eq|]. split; [done|]. split; [done|].
        split; [apply lookup_insert_eq|]. split; [apply lookup_insert_eq|]. lia.
      * apply (Hreq j a c Hj).
Qed.

(** A request of an aggregation stays as it is while other connections
    change and other timers are armed or cancelled. *)
Lemma requested_frame k g i addr c st st' :
  protocols st' !! c = protocols st !! c →
  (∀ t seq, t < next_id st →
     reactor st !! t = Some (relay_timeout config, CallTimeout c seq) →
     reactor st' !! t = reactor st !! t) →
  next_id st ≤ next_id st' →
  requested k g i addr c st → requested k g i addr c st'.
Proof.
  intros Hp Hr Hn (p & n & t & Hpc & Hip & Hseq & Hcmd & Ht & Hlt).
  exists p, n, t. rewrite Hp, (Hr t (pretty n) Hlt Ht).
  repeat split; try done. lia.
Qed.

(** The deferred of the first relay that the list still waits for succeeds
    (with a body) or fails (with [e]). *)
Lemma complete_result k g client done m addr (a : answer) e st :
  gathers st !! g
  = Some (mkGather k client ((Some <$> done) ++ replicate (S m) None)) →
  let st' := match a with
             | Body body => callback (waiter_of k g (length done) addr) body st
             | _ => errback (waiter_of k g (length done) addr) e st
             end in
  ∃ r, result_matches k addr a r
    ∧ gathers st'
      = <[g := mkGather k client ((Some <$> (done ++ [r])) ++ replicate m None)]>
          (gathers st)
    ∧ protocols st' = protocols st ∧ reactor st' = reactor st
    ∧ next_id st' = next_id st ∧ sessions st' = sessions st
    ∧ relay_writes (trace st') = relay_writes (trace st)
    ∧ (m = 0 → last (trace st') = Some (Reply client (gather_finish k (done ++ [r])))).
Proof.
  intros Hg.
  assert (Hnext : ∀ r (st1 : DState),
            gathers st1 = gathers st → protocols st1 = protocols st →
            reactor st1 = reactor st → next_id st1 = next_id st →
            sessions st1 = sessions st →
            relay_writes (trace st1) = relay_writes (trace st) →
            let st' := DeferredList_result g (length done) r st1 in
            gathers st'
            = <[g := mkGather k client ((Some <$> (done ++ [r])) ++ replicate m None)]>
                (gathers st)
            ∧ protocols st' = protocols st ∧ reactor st' = reactor st
            ∧ next_id st' = next_id st ∧ sessions st' = sessions st
            ∧ relay_writes (trace st') = relay_writes (trace st)
            ∧ (m = 0 →
               last (trace st') = Some (Reply client (gather_finish k (done ++ [r]))))).
  { intros r st1 H1 H2 H3 H4 H5 H6. cbv zeta.
    rewrite (DeferredList_result_next k g client done m r st1) by (by rewrite H1).
    cbv zeta. destruct m as [|m]; unfold_state; rewrite H1;
      repeat (split; [done|]).
    - split; [|intros _; by rewrite last_snoc].
      unfold relay_writes in *. rewrite omap_app, H6. cbn. by rewrite app_nil_r.
    - intros [=]. }
  destruct a as [body| | |], k; cbn [waiter_of callback errback];
    unfold _summary_error, bind, run, ret;
    eexists; (split; [cbn; try done; by eexists|]);
    apply Hnext; try done;
    unfold_state; unfold relay_writes; rewrite omap_app; cbn; by rewrite app_nil_r.
Qed.

(** The first relay that the list waits for answers. *)
Lemma answer_step k g client now a addr conn done todo st :
  proper a →
  conn ∉ todo.*2 →
  awaiting k g client done ((addr, conn) :: todo) st →
  ∃ n e r,
    last_request st conn = Some (n, e)
    ∧ result_matches k addr a r
    ∧ let st' := deliver conn n (p_timer e) a now st in
      awaiting k g client (done ++ [r]) todo st'
      ∧ sessions st' = sessions st
      ∧ relay_writes (trace st') = relay_writes (trace st)
      ∧ (todo = [] →
         last (trace st') = Some (Reply client (gather_finish k (done ++ [r])))).
Proof.
  intros Hproper Hnotin [Hg Hreq].
  destruct (Hreq 0 addr conn eq_refl) as (p & n & t & Hp & Hip & Hseq & Hcmd & Ht & Hlt).
  rewrite Nat.add_0_r in Hcmd.
  exists n, (mkPending (command_of k) (waiter_of k g (length done) addr) t).
  assert (Hlast : last_request st conn
                  = Some (n, mkPending (command_of k)
                                (waiter_of k g (length done) addr) t)).
  { unfold last_request. rewrite Hp, Hseq.
    replace (n + 1 - 1)%N with n by lia. by rewrite Hcmd. }
  cbn [length] in Hg.
  (* what remains to be shown once the deferred has completed *)
  assert (Hfinal : ∀ r (st1 st2 st3 : DState),
            gathers st1 = gathers st → sessions st1 = sessions st →
            relay_writes (trace st1) = relay_writes (trace st) →
            next_id st ≤ next_id st1 →
            (∀ c, c ≠ conn → protocols st1 !! c = protocols st !! c) →
            (∀ t', t' ≠ t → reactor st1 !! t' = reactor st !! t') →
            gathers st2
            = <[g := mkGather k client ((Some <$> (done ++ [r]))
                                        ++ replicate (length todo) None)]>
                (gathers st1) →
            protocols st2 = protocols st1 → reactor st2 = reactor st1 →
            next_id st2 = next_id st1 → sessions st2 = sessions st1 →
            relay_writes (trace st2) = relay_writes (trace st1) →
            (length todo = 0 →
             last (trace st2) = Some (Reply client (gather_finish k (done ++ [r])))) →
            gathers st3 = gathers st2 → sessions st3 = sessions st2 →
            trace st3 = trace st2 → next_id st2 ≤ next_id st3 →
            (∀ c, c ≠ conn → protocols st3 !! c = protocols st2 !! c) →
            (∀ t', t' < next_id st2 → reactor st3 !! t' = reactor st2 !! t') →
            awaiting k g client (done ++ [r]) todo st3
            ∧ sessions st3 = sessions st
            ∧ relay_writes (trace st3) = relay_writes (trace st)
            ∧ (todo = [] →
               last (trace st3) = Some (Reply client (gather_finish k (done ++ [r]))))).
  { intros r st1 st2 st3 G1 S1 W1 N1 P1 R1 G2 P2 R2 N2 S2 W2 L2 G3 S3 T3 N3 P3 R3.
    split; [split|].
    - rewrite G3, G2. apply lookup_insert_eq.
    - intros j a' c' Hj.
      assert (Hc' : c' ≠ conn).
      { intros ->. apply Hnotin. apply list_elem_of_fmap. exists (a', conn).
        split; [done|]. by eapply list_elem_of_lookup_2. }
      rewrite length_app. cbn [length].
      replace (length done + 1 + j) with (length done + S j) by lia.
      apply (requested_frame k g _ a' c' st st3).
      + rewrite P3, P2, P1 by done. done.
      + intros t' seq Hlt' Ht'. rewrite R3 by lia. rewrite R2. apply R1.
        intros ->. rewrite Ht in Ht'. congruence.
      + lia.
      + by apply (Hreq (S j)).
    - split; [by rewrite S3, S2, S1|]. split; [by rewrite T3, W2, W1|].
      intros ->. rewrite T3. by apply L2. }
  set (st1 := cancel t (update_protocol conn (set_commands (delete (pretty n))) st)).
  assert (P1 : ∀ f g' (st0 : DState) c, c ≠ conn →
            protocols (with_reactor g' (update_protocol conn f st0)) !! c
            = protocols st0 !! c).
  { intros f g' st0 c Hc. unfold_state. by rewrite lookup_alter_ne. }
  destruct a as [body| | |]; cbn [deliver p_timer].
  - (* a body *)
    destruct Hproper as [Herr Hhalt].
    apply String.eqb_neq in Herr, Hhalt.
    rewrite (lineReceived_response _ _ _ _ _ _ _ _ _ Hp Hcmd). cbv zeta.
    rewrite Herr, Hhalt.
    replace (String.eqb (name (command_of k)) "remove") with false by (by destruct k).
    cbn [snd].
    pose proof (complete_result k g client done (length todo) addr (Body body)
                  NoSuitableRelay st1 Hg) as Hres.
    cbv zeta iota in Hres. set (st2 := callback _ _ st1) in Hres |- *.
    destruct Hres as (r & Hr & G2 & P2 & R2 & N2 & S2 & W2 & L2).
    exists r. split; [done|]. split; [done|].
    apply (Hfinal r st1 st2 st2); try done.
    + intros c Hc. by apply P1.
    + intros t' Ht'. subst st1. unfold_state. by rewrite lookup_delete_ne.
  - (* error *)
    rewrite (lineReceived_response _ _ _ _ _ _ _ _ _ Hp Hcmd). cbv zeta.
    change (String.eqb "error" "error") with true. cbn [snd].
    pose proof (complete_result k g client done (length todo) addr Error
                  (RelayReturnedError (ip p) (name (command_of k))) st1 Hg) as Hres.
    cbv zeta iota in Hres. set (st2 := errback _ _ st1) in Hres |- *.
    destruct Hres as (r & Hr & G2 & P2 & R2 & N2 & S2 & W2 & L2).
    exists r. split; [done|]. split; [done|].
    apply (Hfinal r st1 st2 st2); try done.
    + intros c Hc. by apply P1.
    + intros t' Ht'. subst st1. unfold_state. by rewrite lookup_delete_ne.
  - (* halting *)
    rewrite (lineReceived_response _ _ _ _ _ _ _ _ _ Hp Hcmd). cbv zeta.
    change (String.eqb "halting" "error") with false.
    change (String.eqb "halting" "halting") with true. cbn [snd].
    set (st1' := update_protocol conn (set_halting true) st1).
    pose proof (complete_result k g client done (length todo) addr Halting
                  (RelayShuttingDown (ip p)) st1' Hg) as Hres.
    cbv zeta iota in Hres. set (st2 := errback _ _ st1') in Hres |- *.
    destruct Hres as (r & Hr & G2 & P2 & R2 & N2 & S2 & W2 & L2).
    exists r. split; [done|]. split; [done|].
    apply (Hfinal r st1' st2 st2); try done.
    + intros c Hc. subst st1' st1. unfold_state. by rewrite !lookup_alter_ne.
    + intros t' Ht'. subst st1' st1. unfold_state. by rewrite lookup_delete_ne.
  - (* the timer expires *)
    unfold fire. rewrite Ht. unfold _timeout.
    change (protocols (with_reactor (delete t) st)) with (protocols st).
    rewrite Hp, Hcmd.
    set (st1' := update_protocol conn (set_commands (delete (pretty n)))
                   (with_reactor (delete t) st)).
    pose proof (complete_result k g client done (length todo) addr Silence
                  (RelayTimedOut (name (command_of k)) (ip p)) st1' Hg) as Hres.
    cbv zeta iota in Hres. set (st2 := errback _ _ st1') in Hres |- *.
    destruct Hres as (r & Hr & G2 & P2 & R2 & N2 & S2 & W2 & L2).
    exists r. split; [done|]. split; [done|].
    assert (P1' : ∀ c, c ≠ conn → protocols st1' !! c = protocols st !! c).
    { intros c Hc. subst st1'. unfold_state. by rewrite lookup_alter_ne. }
    assert (R1' : ∀ t', t' ≠ t → reactor st1' !! t' = reactor st !! t').
    { intros t' Ht'. subst st1'. unfold_state. by rewrite lookup_delete_ne. }
    destruct (timedout <$> protocols st2 !! conn) as [[|]|]; cbn [snd];
      try (by apply (Hfinal r st1' st2 st2)).
    apply (Hfinal r st1' st2); try done.
    + unfold callLater. unfold_state. cbn [snd]. unfold_state. lia.
    + intros c Hc. unfold callLater. unfold_state. cbn [snd]. unfold_state.
      by rewrite !lookup_alter_ne.
    + intros t' Ht'. unfold callLater. unfold_state. cbn [snd]. unfold_state.
      rewrite lookup_insert_ne; [done|lia].
Qed.

(** Every relay that the list waits for answers, in order: the client gets
    the reply built from all the results. *)
Lemma answer_all_spec k g client now : ∀ todo answers results st,
  todo ≠ [] → length answers = length todo → Forall proper answers →
  NoDup todo.*2 → awaiting k g client results todo st →
  let st' := answer_all now answers todo.*2 st in
  ∃ rs,
    Forall2 (λ r (ia : (string * conn_id) * answer), result_matches k ia.1.1 ia.2 r)
            rs (zip todo answers)
    ∧ last (trace st') = Some (Reply client (gather_finish k (results ++ rs)))
    ∧ sessions st' = sessions st
    ∧ relay_writes (trace st') = relay_writes (trace st).
Proof.
  induction todo as [|[addr conn] todo IH]; intros answers results st Hne Hlen Hproper Hnd Haw;
    [done|].
  destruct answers as [|a answers]; [done|].
  apply Forall_cons in Hproper as [Ha Hproper].
  cbn [fmap list_fmap snd] in Hnd |- *. apply NoDup_cons in Hnd as [Hnotin Hnd].
  destruct (answer_step k g client now a addr conn results todo st Ha Hnotin Haw)
    as (n & e & r & Hlast & Hr & Haw' & Hs & Hw & Hfin).
  cbn [answer_all]. rewrite Hlast.
  set (st1 := deliver conn n (p_timer e) a now st) in *.
  destruct todo as [|item todo].
  - destruct answers; [|done]. exists [r]. cbn [answer_all fmap list_fmap zip zip_with].
    split; [by constructor|]. split; [by apply Hfin|]. done.
  - destruct (IH answers (results ++ [r]) st1) as (rs & Hrs & Htr & Hs' & Hw'); try done.
    { simpl in Hlen |- *. lia. }
    exists (r :: rs). split; [by constructor|].
    split; [by rewrite Htr, <- app_assoc|].
    split; [by rewrite Hs'|by rewrite Hw'].
Qed.

(** An aggregation starts: a [DeferredList] is created for the client and
    every connection of the registry is sent the command. *)
Lemma aggregate_spec k client st :
  registry_wf st →
  let items := map_to_list (relays st) in
  let st0 := aggregate k client st in
  awaiting k (next_id st) client [] items st0
  ∧ sessions st0 = sessions st
  ∧ relay_writes (trace st0)
    = relay_writes (trace st)
      ++ ((λ item : string * conn_id,
             (item.2, request_text (command_of k) (next_seq st item.2))) <$> items)
  ∧ (items = [] → last (trace st0) = Some (Reply client "[]")).
Proof.
  intros Hwf items st0.
  set (g := next_id st).
  set (st1 := with_next_id (S g)
                (with_gathers
                   <[g := mkGather k client (replicate (length items) None)]> st)).
  assert (Hnd : NoDup items.*2) by (by apply NoDup_itervalues).
  assert (Hex : ∀ addr conn, (addr, conn) ∈ items →
                  ∃ p, protocols st1 !! conn = Some p ∧ ip p = addr).
  { intros addr conn Hin. apply elem_of_map_to_list in Hin.
    destruct (Hwf _ _ Hin) as (p & Hp & Hip & _). by exists p. }
  pose proof (fan_out_spec k g items id st1 Hnd Hex) as Hfan. cbv zeta in Hfan.
  set (X := fold_left _ _ st1) in Hfan.
  assert (Hst0 : st0 = match items with
                       | [] => client_reply client "[]" X
                       | _ => X
                       end).
  { subst st0 X st1 g items. by destruct k. }
  destruct Hfan as (Hg & Hs & Hw & Hn & _ & _ & Hreq).
  assert (HX : awaiting k g client [] items X
               ∧ sessions X = sessions st
               ∧ relay_writes (trace X)
                 = relay_writes (trace st)
                   ++ ((λ item : string * conn_id,
                          (item.2, request_text (command_of k) (next_seq st item.2)))
                       <$> items)).
  { split; [split|split].
    - rewrite Hg. subst st1. unfold_state. apply lookup_insert_eq.
    - intros j addr conn Hj. by apply Hreq.
    - by rewrite Hs.
    - by rewrite Hw. }
  destruct HX as ([Hgx Hreqx] & Hsx & Hwx).
  rewrite Hst0. destruct items as [|item items'] eqn:Hitems.
  - split; [split; [exact Hgx|intros j ?? Hj; by rewrite lookup_nil in Hj]|].
    split; [exact Hsx|]. split.
    + unfold_state. unfold relay_writes at 1. rewrite omap_app.
      fold (relay_writes (trace X)). rewrite Hwx. cbn. by rewrite !app_nil_r.
    + intros _. unfold_state. by rewrite last_snoc.
  - by repeat split.
Qed.

(** C8, as the code has it: an aggregation sends its command to every
    connection of the registry, active or not, as the next request of that
    connection.  When every relay has answered, or failed to, the client gets
    one list: for a summary, the bodies, with an object of error status in the
    place of a relay that failed; for the sessions, the insides of the lists
    that are not empty, a relay that failed contributing nothing. *)
Theorem aggregation k client st :
  registry_wf st →
  let items := map_to_list (relays st) in
  let st0 := aggregate k client st in
  relay_writes (trace st0)
  = relay_writes (trace st)
    ++ ((λ item : string * conn_id,
           (item.2, request_text (command_of k) (next_seq st item.2))) <$> items)
  ∧ sessions st0 = sessions st
  ∧ (items = [] → last (trace st0) = Some (Reply client "[]"))
  ∧ ∀ now answers,
      items ≠ [] → length answers = length items → Forall proper answers →
      let st' := answer_all now answers items.*2 st0 in
      last (trace st') = Some (Reply client (aggregated_reply k items answers))
      ∧ sessions st' = sessions st
      ∧ relay_writes (trace st') = relay_writes (trace st0).
Proof.
  intros Hwf items st0.
  destruct (aggregate_spec k client st Hwf) as (Haw & Hs & Hw & Hempty).
  fold items st0 in Haw, Hs, Hw, Hempty.
  split; [done|]. split; [done|]. split; [done|].
  intros now answers Hne Hlen Hproper.
  destruct (answer_all_spec k (next_id st) client now items answers [] st0
              Hne Hlen Hproper (NoDup_itervalues st Hwf) Haw)
    as (rs & Hrs & Htr & Hs' & Hw').
  split; [|split; [by rewrite Hs'|done]].
  rewrite Htr. cbn [app]. by rewrite (gather_finish_reply k items answers rs Hrs).
Qed.

End Properties.

(** * The states that the dispatcher reaches *)

Section Invariants.

Context `{Collaborators}.

(** ** The state changes keep the state healthy *)

Lemma timer_for_weaken st st' t call :
  timer_for st t call → next_id st ≤ next_id st' →
  (∀ x, reactor st' !! t = Some x → reactor st !! t = Some x) →
  timer_for st' t call.
Proof.
  intros [Hlt Hc] Hn Hr. split; [lia|]. intros d c Hx. by eapply Hc, Hr.
Qed.

Lemma healthy_frame s s' : healthy s → frame s s' → healthy s'.
Proof.
  intros Hh (Hr & Hc & Hp & Hre & Hn & Hsd). constructor.
  - intros addr conn. rewrite Hr, Hp. apply (h_registry _ Hh).
  - intros conn. rewrite Hp. intros Hx. apply (h_conn_id _ Hh) in Hx. lia.
  - intros t. rewrite Hre. intros Hx. apply (h_timer_id _ Hh) in Hx. lia.
  - intros conn p. rewrite Hp. apply (h_seq _ Hh).
  - intros t d conn seq. rewrite Hre, Hp. apply (h_timeout _ Hh).
  - intros conn p seq e. rewrite Hp. intros Hc1 Hc2.
    eapply timer_for_weaken; [by eapply (h_pending _ Hh)|done|by rewrite Hre].
  - intros t d addr. rewrite Hre, Hc. apply (h_cleanup _ Hh).
  - intros addr t. rewrite Hc. intros Hx.
    eapply timer_for_weaken; [by eapply (h_cleanup_timer _ Hh)|done|by rewrite Hre].
  - intros Hs addr t. rewrite Hc, Hre, Hr. apply (h_armed _ Hh).
    destruct Hsd as [<-|Hx]; [done|congruence].
  - intros conn p. rewrite Hp. apply (h_timedout _ Hh).
  - intros conn p t. rewrite Hp. intros Hc1 Hc2.
    eapply timer_for_weaken; [by eapply (h_disconnect _ Hh)|done|by rewrite Hre].
Qed.

Lemma healthy_cancel s t :
  healthy s →
  (∀ d addr, reactor s !! t = Some (d, CallDoCleanup addr) → shutting_down s = true) →
  healthy (cancel t s).
Proof.
  intros Hh Hpre.
  assert (Hsub : ∀ t' x, reactor (cancel t s) !! t' = Some x → reactor s !! t' = Some x).
  { intros t' x. unfold_state. rewrite lookup_delete_Some. by intros [_ ?]. }
  constructor.
  - apply (h_registry _ Hh).
  - apply (h_conn_id _ Hh).
  - intros t' [x Hx]. apply (h_timer_id _ Hh). exists x. by apply Hsub.
  - apply (h_seq _ Hh).
  - intros t' d conn seq Hx. by apply (h_timeout _ Hh t' d), Hsub.
  - intros conn p seq e Hc1 Hc2.
    eapply timer_for_weaken; [by eapply (h_pending _ Hh)|done|apply Hsub].
  - intros t' d addr Hx. by apply (h_cleanup _ Hh t' d), Hsub.
  - intros addr t' Hx.
    eapply timer_for_weaken; [by eapply (h_cleanup_timer _ Hh)|done|apply Hsub].
  - intros Hs addr t' Hx. destruct (h_armed _ Hh Hs addr t' Hx) as [[[d c] Hr] Hn].
    split; [|done]. unfold_state. rewrite lookup_delete_ne; [by eexists|].
    intros <-. destruct (h_cleanup_timer _ Hh addr t Hx) as [_ Hc].
    rewrite (Hc _ _ Hr) in Hr. specialize (Hpre _ _ Hr). cbn in Hs. congruence.
  - apply (h_timedout _ Hh).
  - intros conn p t' Hc1 Hc2.
    eapply timer_for_weaken; [by eapply (h_disconnect _ Hh)|done|apply Hsub].
Qed.

(** A change of the protocol object [conn] that adds no pending request. *)
Lemma healthy_update s conn f :
  healthy s →
  (∀ p, protocols s !! conn = Some p →
     ip (f p) = ip p
     ∧ (authenticated p = true → authenticated (f p) = true)
     ∧ (seq_ok p → seq_ok (f p))
     ∧ (∀ k e, commands (f p) !! k = Some e → commands p !! k = Some e)
     ∧ (∀ t d seq e, reactor s !! t = Some (d, CallTimeout conn seq) →
          commands p !! seq = Some e → commands (f p) !! seq = Some e)
     ∧ (timedout (f p) = true → is_Some (disconnect_timer (f p)))
     ∧ (∀ t, disconnect_timer (f p) = Some t →
          timer_for s t (CallConnectionLost conn TCPTimedOutError))) →
  healthy (update_protocol conn f s).
Proof.
  intros Hh Hf.
  assert (Hlook : ∀ c p', protocols (update_protocol conn f s) !! c = Some p' →
            (c = conn ∧ ∃ p, protocols s !! conn = Some p ∧ p' = f p)
            ∨ (c ≠ conn ∧ protocols s !! c = Some p')).
  { intros c p'. unfold_state. rewrite lookup_alter. case_decide as Hc.
    - subst c. destruct (protocols s !! conn) as [p|] eqn:Hp; [|done].
      intros [= <-]. left. eauto.
    - by right. }
  constructor.
  - intros addr c Hr. destruct (h_registry _ Hh addr c Hr) as (p & Hp & Hip & Hauth).
    unfold_state. rewrite lookup_alter. case_decide as Hc.
    + subst c. rewrite Hp. exists (f p). destruct (Hf p Hp) as (-> & Ha & _). auto.
    + by exists p.
  - intros c. unfold_state. rewrite lookup_alter.
    case_decide as Hc; [subst c; rewrite fmap_is_Some|]; apply (h_conn_id _ Hh).
  - apply (h_timer_id _ Hh).
  - intros c p' [(-> & p & Hp & ->)|[Hc Hp]]%Hlook.
    + apply (Hf p Hp), (h_seq _ Hh _ _ Hp).
    + apply (h_seq _ Hh _ _ Hp).
  - intros t d c seq Hx. destruct (h_timeout _ Hh t d c seq Hx) as (p & e & Hp & He & Ht).
    unfold_state. rewrite lookup_alter. case_decide as Hc.
    + subst c. rewrite Hp. exists (f p), e. split; [done|]. split; [|done].
      eapply (Hf p Hp); [apply Hx|done].
    + by exists p, e.
  - intros c p' seq e [(-> & p & Hp & ->)|[Hc Hp]]%Hlook He.
    + apply (h_pending _ Hh _ _ _ _ Hp). by apply (Hf p Hp).
    + by apply (h_pending _ Hh _ _ _ _ Hp).
  - apply (h_cleanup _ Hh).
  - apply (h_cleanup_timer _ Hh).
  - apply (h_armed _ Hh).
  - intros c p' [(-> & p & Hp & ->)|[Hc Hp]]%Hlook.
    + apply (Hf p Hp).
    + apply (h_timedout _ Hh _ _ Hp).
  - intros c p' t [(-> & p & Hp & ->)|[Hc Hp]]%Hlook Hd.
    + by apply (Hf p Hp).
    + by apply (h_disconnect _ Hh _ _ _ Hp).
Qed.

Lemma healthy_drop s conn seq :
  healthy s →
  (∀ t d, reactor s !! t ≠ Some (d, CallTimeout conn seq)) →
  healthy (update_protocol conn (set_commands (delete seq)) s).
Proof.
  intros Hh Hpre. apply healthy_update; [done|]. intros p Hp.
  unfold set_commands, seq_ok;
    cbn [ip commands authenticated timedout disconnect_timer sequence_number].
  split; [done|]. split; [done|]. split.
  { intros Hs k [e [_ He]%lookup_delete_Some]. apply Hs. by exists e. }
  split. { by intros k e [_ He]%lookup_delete_Some. }
  split. { intros t d seq' e Hx He. rewrite lookup_delete_ne; [done|].
           intros <-. by apply (Hpre t d). }
  split; [apply (h_timedout _ Hh _ _ Hp)|intros t; apply (h_disconnect _ Hh _ _ _ Hp)].
Qed.

Lemma healthy_alter s conn f :
  healthy s →
  (∀ p, protocols s !! conn = Some p → calm p (f p)) →
  healthy (update_protocol conn f s).
Proof.
  intros Hh Hf. apply healthy_update; [done|]. intros p Hp.
  destruct (Hf p Hp) as (Hip & Hc & Hs & Ha & _ & Ht & Hd).
  split; [done|]. split; [done|]. split.
  { unfold seq_ok. by rewrite Hc, Hs. }
  rewrite Hc. split; [done|]. split; [done|]. split; [done|].
  intros t Hx. by apply (h_disconnect _ Hh _ _ _ Hp), Hd.
Qed.

(** A delayed call is added to the reactor. *)
Lemma callLater_state d call s :
  (callLater d call s).2
  = with_next_id (S (next_id s)) (with_reactor <[next_id s := (d, call)]> s).
Proof. done. Qed.

Lemma lookup_callLater d call s t x :
  reactor (callLater d call s).2 !! t = Some x →
  (t = next_id s ∧ x = (d, call)) ∨ (t ≠ next_id s ∧ reactor s !! t = Some x).
Proof.
  unfold callLater. cbn [snd]. unfold_state. rewrite lookup_insert_Some.
  intros [[<- <-]|[? ?]]; [by left|right; by split].
Qed.

Lemma timer_for_callLater d call s t c :
  timer_for s t c → timer_for (callLater d call s).2 t c.
Proof.
  intros [Hlt Hc]. split; [cbn; lia|].
  intros d' c' [[-> _]|[_ Hx]]%lookup_callLater; [lia|by eapply Hc].
Qed.

(** What holds after [callLater] whatever the call is. *)
Lemma healthy_callLater d call s :
  healthy s →
  (∀ conn seq, call = CallTimeout conn seq →
     ∃ p e, protocols s !! conn = Some p ∧ commands p !! seq = Some e
            ∧ p_timer e = next_id s) →
  (∀ addr, call = CallDoCleanup addr → cleanup_timers s !! addr = Some (next_id s)) →
  healthy (callLater d call s).2.
Proof.
  intros Hh Htimeout Hcleanup. constructor.
  - apply (h_registry _ Hh).
  - intros conn Hc. apply (h_conn_id _ Hh) in Hc. cbn. lia.
  - intros t [x [[-> _]|[_ Hx]]%lookup_callLater]; [cbn; lia|].
    assert (t < next_id s) by (apply (h_timer_id _ Hh); by exists x). cbn. lia.
  - apply (h_seq _ Hh).
  - intros t d' conn seq [[-> [= ? ?]]|[_ Hx]]%lookup_callLater.
    + by apply Htimeout.
    + by apply (h_timeout _ Hh t d').
  - intros conn p seq e Hp He.
    by apply timer_for_callLater, (h_pending _ Hh _ _ _ _ Hp).
  - intros t d' addr [[-> [= ? ?]]|[_ Hx]]%lookup_callLater.
    + by apply Hcleanup.
    + by apply (h_cleanup _ Hh t d').
  - intros addr t Hx. by apply timer_for_callLater, (h_cleanup_timer _ Hh).
  - intros Hs addr t Hx. destruct (h_armed _ Hh Hs addr t Hx) as [[x Hr] Hn].
    split; [|done]. unfold callLater. cbn [snd]. unfold_state.
    rewrite lookup_insert_ne; [by eexists|].
    intros <-. assert (next_id s < next_id s); [|lia].
    apply (h_timer_id _ Hh). by exists x.
  - apply (h_timedout _ Hh).
  - intros conn p t Hp Hd. by apply timer_for_callLater, (h_disconnect _ Hh _ _ _ Hp).
Qed.

Lemma healthy_later d conn reason s :
  healthy s → healthy (callLater d (CallConnectionLost conn reason) s).2.
Proof. intros Hh. by apply healthy_callLater. Qed.

(** The next sequence number of a connection is not the key of a pending
    request. *)
Lemma seq_fresh p : seq_ok p → commands p !! pretty (sequence_number p) = None.
Proof.
  intros Hs. destruct (commands p !! pretty (sequence_number p)) as [e|] eqn:He; [|done].
  destruct (Hs (pretty (sequence_number p))) as (n & Hn & Heq); [by exists e|].
  apply (inj pretty) in Heq. lia.
Qed.

Lemma healthy_issue conn command defer s :
  healthy s → healthy (relay_send_command conn command defer s).
Proof.
  intros Hh. destruct (protocols s !! conn) as [p|] eqn:Hp;
    [|unfold relay_send_command; by rewrite Hp].
  rewrite (relay_send_command_sent _ _ _ _ _ Hp).
  set (seq := pretty (sequence_number p)).
  set (e0 := mkPending command defer (next_id s)).
  set (p1 := mkRelay (ip p) (<[seq := e0]> (commands p)) (halting p) (timedout p)
               (disconnect_timer p) (sequence_number p + 1) (authenticated p)).
  pose proof (seq_fresh p (h_seq _ Hh _ _ Hp)) as Hfresh. fold seq in Hfresh.
  assert (Hlook : ∀ c p', protocols (sent conn command defer p s) !! c = Some p' →
            (c = conn ∧ p' = p1) ∨ (c ≠ conn ∧ protocols s !! c = Some p')).
  { intros c p'. unfold sent. cbn [protocols]. rewrite lookup_insert_Some.
    intros [[<- <-]|[? ?]]; [by left|right; by split]. }
  assert (Hre : ∀ t x, reactor (sent conn command defer p s) !! t = Some x →
            (t = next_id s ∧ x = (relay_timeout config, CallTimeout conn seq))
            ∨ (t ≠ next_id s ∧ reactor s !! t = Some x)).
  { intros t x. unfold sent. cbn [reactor]. rewrite lookup_insert_Some.
    intros [[<- <-]|[? ?]]; [by left|right; by split]. }
  assert (Hold : ∀ t c, timer_for s t c → timer_for (sent conn command defer p s) t c).
  { intros t c [Hlt Hc]. split; [cbn; lia|].
    intros d' c' [[-> _]|[_ Hx]]%Hre; [lia|by eapply Hc]. }
  constructor.
  - intros addr c Hr. destruct (h_registry _ Hh addr c Hr) as (p0 & Hp0 & Hip & Hauth).
    unfold sent. cbn [protocols]. destruct (decide (c = conn)) as [->|Hne].
    + rewrite lookup_insert_eq. exists p1. rewrite Hp in Hp0. by injection Hp0 as <-.
    + rewrite lookup_insert_ne by done. by exists p0.
  - intros c [p' [[-> _]|[_ Hx]]%Hlook].
    + assert (conn < next_id s) by (apply (h_conn_id _ Hh); by exists p). cbn. lia.
    + assert (c < next_id s) by (apply (h_conn_id _ Hh); by exists p'). cbn. lia.
  - intros t [x [[-> _]|[_ Hx]]%Hre]; [cbn; lia|].
    assert (t < next_id s) by (apply (h_timer_id _ Hh); by exists x). cbn. lia.
  - intros c p' [[-> ->]|[_ Hx]]%Hlook; [|by apply (h_seq _ Hh _ _ Hx)].
    intros k [e He]. cbn [p1 commands sequence_number] in *.
    apply lookup_insert_Some in He as [[<- _]|[_ He]].
    + exists (sequence_number p). split; [lia|done].
    + destruct (h_seq _ Hh _ _ Hp k) as (n & Hn & ->); [by exists e|].
      exists n. split; [lia|done].
  - intros t d c sq [[-> [= ? ? ?]]|[Hne Hx]]%Hre.
    + subst. exists p1, e0. unfold sent. cbn [protocols].
      rewrite lookup_insert_eq. split; [done|]. split; [|done].
      cbn [p1 commands]. by rewrite lookup_insert_eq.
    + destruct (h_timeout _ Hh t d c sq Hx) as (p0 & e & Hp0 & He & Ht).
      unfold sent. cbn [protocols]. destruct (decide (c = conn)) as [->|Hc].
      * rewrite lookup_insert_eq. rewrite Hp in Hp0. injection Hp0 as <-.
        exists p1, e. split; [done|]. split; [|done]. cbn [p1 commands].
        rewrite lookup_insert_ne; [done|]. intros <-. congruence.
      * rewrite lookup_insert_ne by done. by exists p0, e.
  - intros c p' sq e [[-> ->]|[_ Hx]]%Hlook He.
    + cbn [p1 commands] in He. apply lookup_insert_Some in He as [[<- <-]|[_ He]].
      * split; [cbn; lia|]. intros d c [[_ [= _ <-]]|[Hne _]]%Hre; done.
      * by apply Hold, (h_pending _ Hh _ _ _ _ Hp).
    + by apply Hold, (h_pending _ Hh _ _ _ _ Hx).
  - intros t d addr [[_ [=]]|[_ Hx]]%Hre. by apply (h_cleanup _ Hh t d).
  - intros addr t Hx. by apply Hold, (h_cleanup_timer _ Hh).
  - intros Hs addr t Hx. destruct (h_armed _ Hh Hs addr t Hx) as [[x Hr] Hn].
    split; [|done]. unfold sent. cbn [reactor]. rewrite lookup_insert_ne; [by eexists|].
    intros <-. assert (next_id s < next_id s); [|lia].
    apply (h_timer_id _ Hh). by exists x.
  - intros c p' [[-> ->]|[_ Hx]]%Hlook; [|by apply (h_timedout _ Hh _ _ Hx)].
    apply (h_timedout _ Hh _ _ Hp).
  - intros c p' t [[-> ->]|[_ Hx]]%Hlook Hd.
    + by apply Hold, (h_disconnect _ Hh _ _ _ Hp).
    + by apply Hold, (h_disconnect _ Hh _ _ _ Hx).
Qed.

Lemma healthy_suspend conn s :
  healthy s →
  healthy (update_protocol conn (set_disconnect_timer (Some (next_id s)))
             (callLater (relay_recover_interval config)
                (CallConnectionLost conn TCPTimedOutError)
                (update_protocol conn (set_timedout true) s)).2).
Proof.
  intros Hh.
  set (s1 := (callLater (relay_recover_interval config)
                (CallConnectionLost conn TCPTimedOutError) s).2).
  assert (Heq : update_protocol conn (set_disconnect_timer (Some (next_id s)))
             (callLater (relay_recover_interval config)
                (CallConnectionLost conn TCPTimedOutError)
                (update_protocol conn (set_timedout true) s)).2
           = update_protocol conn
               (set_disconnect_timer (Some (next_id s)) ∘ set_timedout true) s1).
  { unfold s1, callLater. cbn [snd]. unfold_state. f_equal.
    apply alter_alter_eq. }
  rewrite Heq. apply healthy_update; [by apply healthy_later|].
  intros p Hp. cbn. split; [done|]. split; [done|]. split; [done|].
  split; [done|]. split; [done|]. split; [by eexists|].
  intros t [= <-]. split; [cbn; lia|]. intros d c. subst s1. unfold callLater.
  cbn [snd]. unfold_state. rewrite lookup_insert_eq. by intros [= _ <-].
Qed.

(** A change of the reactor and of [cleanup_timers]. *)
Lemma healthy_timers s s' :
  healthy s →
  relays s' = relays s → protocols s' = protocols s → next_id s ≤ next_id s' →
  (∀ t c, timer_for s t c → timer_for s' t c) →
  (∀ t, is_Some (reactor s' !! t) → t < next_id s') →
  (∀ t d conn seq, reactor s' !! t = Some (d, CallTimeout conn seq) →
     reactor s !! t = Some (d, CallTimeout conn seq)) →
  (∀ t d addr, reactor s' !! t = Some (d, CallDoCleanup addr) →
     cleanup_timers s' !! addr = Some t) →
  (∀ addr t, cleanup_timers s' !! addr = Some t → timer_for s' t (CallDoCleanup addr)) →
  (shutting_down s' = false → ∀ addr t, cleanup_timers s' !! addr = Some t →
     is_Some (reactor s' !! t) ∧ relays s !! addr = None) →
  healthy s'.
Proof.
  intros Hh Hr Hp Hn Hmono Hid Htimeout Hcleanup Hct Harmed. constructor.
  - intros addr conn. rewrite Hr, Hp. apply (h_registry _ Hh).
  - intros conn. rewrite Hp. intros Hx. apply (h_conn_id _ Hh) in Hx. lia.
  - done.
  - intros conn p. rewrite Hp. apply (h_seq _ Hh).
  - intros t d conn seq Hx. rewrite Hp. eapply (h_timeout _ Hh), Htimeout, Hx.
  - intros conn p seq e. rewrite Hp. intros Hc1 Hc2.
    by eapply Hmono, (h_pending _ Hh).
  - done.
  - done.
  - intros Hs addr t Hx. rewrite Hr. by apply Harmed.
  - intros conn p. rewrite Hp. apply (h_timedout _ Hh).
  - intros conn p t. rewrite Hp. intros Hc1 Hc2. by eapply Hmono, (h_disconnect _ Hh).
Qed.

Lemma healthy_register s conn p :
  healthy s →
  protocols s !! conn = Some p → authenticated p = true →
  (shutting_down s = false → cleanup_timers s !! ip p = None) →
  healthy (with_relays <[ip p := conn]> s).
Proof.
  intros Hh Hp Hauth Hnone. constructor; try apply Hh.
  - intros addr c. unfold_state. rewrite lookup_insert_Some.
    intros [[<- <-]|[_ Hr]]; [by exists p|]. by apply (h_registry _ Hh).
  - intros Hs addr t Hx. destruct (h_armed _ Hh Hs addr t Hx) as [Hr Hn].
    split; [done|]. unfold_state. rewrite lookup_insert_ne; [done|].
    intros <-. pose proof (Hnone Hs) as Hz.
    change (cleanup_timers s !! ip p = Some t) in Hx. congruence.
Qed.

Lemma healthy_unregister s addr : healthy s → healthy (with_relays (delete addr) s).
Proof.
  intros Hh. constructor; try apply Hh.
  - intros a c. unfold_state. rewrite lookup_delete_Some. intros [_ Hr].
    by apply (h_registry _ Hh).
  - intros Hs a t Hx. destruct (h_armed _ Hh Hs a t Hx) as [Hr Hn].
    split; [done|]. unfold_state. apply lookup_delete_None. by right.
Qed.

Lemma healthy_cleanup s addr :
  healthy s →
  healthy (with_cleanup_timers (delete addr)
             (from_option (λ t, cancel t s) s (cleanup_timers s !! addr))).
Proof.
  intros Hh. destruct (cleanup_timers s !! addr) as [t|] eqn:Ht; cbn [from_option].
  - assert (Hsub : ∀ t' x, reactor (cancel t s) !! t' = Some x →
              t' ≠ t ∧ reactor s !! t' = Some x).
    { intros t' x. unfold_state. rewrite lookup_delete_Some. by intros [? ?]. }
    assert (Hmono : ∀ t' c, timer_for s t' c →
              timer_for (with_cleanup_timers (delete addr) (cancel t s)) t' c).
    { intros t' c Hc. eapply timer_for_weaken; [done|done|]. intros x Hx.
      by apply Hsub in Hx as [_ ?]. }
    apply (healthy_timers s); try done.
    + intros t' [x [_ Hx]%Hsub]. apply (h_timer_id _ Hh). by exists x.
    + intros t' d conn seq [_ Hx]%Hsub. done.
    + intros t' d a [Hne Hx]%Hsub. unfold_state. rewrite lookup_delete_ne.
      * by apply (h_cleanup _ Hh t' d).
      * intros <-. apply (h_cleanup _ Hh) in Hx. by simplify_eq.
    + intros a t'. unfold_state. rewrite lookup_delete_Some. intros [_ Hx].
      by apply Hmono, (h_cleanup_timer _ Hh).
    + intros Hs a t'. unfold_state. rewrite lookup_delete_Some. intros [Hne Hx].
      destruct (h_armed _ Hh Hs a t' Hx) as [[[d c] Hr] Hn]. split; [|done].
      rewrite lookup_delete_ne; [by eexists|]. intros <-.
      destruct (h_cleanup_timer _ Hh a t Hx) as [_ Hc].
      destruct (h_cleanup_timer _ Hh addr t Ht) as [_ Hc'].
      pose proof (Hc _ _ Hr). pose proof (Hc' _ _ Hr). congruence.
  - apply (healthy_timers s); try done.
    + apply (h_timer_id _ Hh).
    + intros t d a Hx. unfold_state. rewrite lookup_delete_ne.
      * by apply (h_cleanup _ Hh t d).
      * intros <-. apply (h_cleanup _ Hh) in Hx. congruence.
    + intros a t. unfold_state. rewrite lookup_delete_Some. intros [_ Hx].
      by apply (h_cleanup_timer _ Hh).
    + intros Hs a t. unfold_state. rewrite lookup_delete_Some. intros [_ Hx].
      by apply (h_armed _ Hh Hs).
Qed.

Lemma healthy_arm s addr :
  healthy s →
  cleanup_timers s !! addr = None → relays s !! addr = None →
  healthy (with_cleanup_timers <[addr := next_id s]>
             (callLater (cleanup_dead_relays_after config) (CallDoCleanup addr) s).2).
Proof.
  intros Hh Hnone Hr.
  set (s' := with_cleanup_timers _ _).
  assert (Hre : ∀ t x, reactor s' !! t = Some x →
            (t = next_id s ∧ x = (cleanup_dead_relays_after config, CallDoCleanup addr))
            ∨ (t ≠ next_id s ∧ reactor s !! t = Some x)).
  { intros t x. apply lookup_callLater. }
  assert (Hmono : ∀ t c, timer_for s t c → timer_for s' t c).
  { intros t c. apply timer_for_callLater. }
  apply (healthy_timers s); try done.
  - cbn. lia.
  - intros t [x [[-> _]|[_ Hx]]%Hre]; [cbn; lia|].
    assert (t < next_id s) by (apply (h_timer_id _ Hh); by exists x). cbn. lia.
  - intros t d conn seq [[_ [=]]|[_ Hx]]%Hre. done.
  - intros t d a [[-> [= _ <-]]|[Hne Hx]]%Hre; subst s'; unfold_state.
    + by rewrite lookup_insert_eq.
    + rewrite lookup_insert_ne; [by apply (h_cleanup _ Hh t d)|].
      intros <-. apply (h_cleanup _ Hh) in Hx. congruence.
  - intros a t. subst s'. unfold_state. rewrite lookup_insert_Some.
    intros [[<- <-]|[_ Hx]].
    + split; [cbn; lia|]. intros d c. cbn [snd reactor callLater with_next_id with_reactor].
      rewrite lookup_insert_eq. by intros [= _ <-].
    + by apply Hmono, (h_cleanup_timer _ Hh).
  - intros Hs a t. subst s'. unfold_state. rewrite lookup_insert_Some.
    intros [[<- <-]|[_ Hx]].
    + split; [|done]. cbn [snd reactor callLater with_next_id with_reactor].
      rewrite lookup_insert_eq. by eexists.
    + destruct (h_armed _ Hh Hs a t Hx) as [[x Hx'] Hn]. split; [|done].
      cbn [snd reactor callLater with_next_id with_reactor].
      rewrite lookup_insert_ne; [by eexists|]. intros <-.
      assert (next_id s < next_id s); [|lia]. apply (h_timer_id _ Hh). by exists x.
Qed.

Lemma healthy_new_protocol s addr :
  healthy s →
  healthy (with_next_id (S (next_id s))
             (with_protocols <[next_id s := RelayServerProtocol_init addr]> s)).
Proof.
  intros Hh.
  assert (Hnew : protocols s !! next_id s = None).
  { destruct (protocols s !! next_id s) as [p|] eqn:Hp; [|done].
    assert (next_id s < next_id s); [|lia]. apply (h_conn_id _ Hh). by exists p. }
  assert (Hlook : ∀ c p',
            <[next_id s := RelayServerProtocol_init addr]> (protocols s) !! c = Some p' →
            (c = next_id s ∧ p' = RelayServerProtocol_init addr)
            ∨ (c ≠ next_id s ∧ protocols s !! c = Some p')).
  { intros c p'. rewrite lookup_insert_Some.
    intros [[<- <-]|[? ?]]; [by left|right; by split]. }
  assert (Hmono : ∀ t c, timer_for s t c →
            timer_for (with_next_id (S (next_id s))
              (with_protocols <[next_id s := RelayServerProtocol_init addr]> s)) t c).
  { intros t c Hc. eapply timer_for_weaken; [done|cbn; lia|done]. }
  constructor; unfold_state.
  - intros a c Hr. destruct (h_registry _ Hh a c Hr) as (p & Hp & Hip & Hauth).
    exists p. unfold_state. rewrite lookup_insert_ne; [done|]. intros <-. congruence.
  - intros c [p' [[-> _]|[_ Hx]]%Hlook]; [lia|].
    assert (c < next_id s) by (apply (h_conn_id _ Hh); by exists p'). lia.
  - intros t Hx. apply (h_timer_id _ Hh) in Hx. lia.
  - intros c p' [[-> ->]|[_ Hx]]%Hlook; [|by apply (h_seq _ Hh _ _ Hx)].
    intros k [e He]. done.
  - intros t d c sq Hx. destruct (h_timeout _ Hh t d c sq Hx) as (p & e & Hp & He & Ht).
    exists p, e. rewrite lookup_insert_ne; [done|]. intros <-. congruence.
  - intros c p' sq e [[-> ->]|[_ Hx]]%Hlook He; [done|].
    by apply Hmono, (h_pending _ Hh _ _ _ _ Hx).
  - apply (h_cleanup _ Hh).
  - intros a t Hx. by apply Hmono, (h_cleanup_timer _ Hh).
  - apply (h_armed _ Hh).
  - intros c p' [[-> ->]|[_ Hx]]%Hlook; [done|]. by apply (h_timedout _ Hh _ _ Hx).
  - intros c p' t [[-> ->]|[_ Hx]]%Hlook Hd; [done|].
    by apply Hmono, (h_disconnect _ Hh _ _ _ Hx).
Qed.

Lemma healthy_build s addr : healthy s → healthy (buildProtocol addr s).2.
Proof.
  intros Hh. unfold buildProtocol. cbv zeta. cbn [snd].
  apply (healthy_new_protocol (log DEBUG (LogConnectionFrom addr) s)).
  by apply (healthy_frame s); [|repeat split; auto].
Qed.

(** The state changes keep the state healthy. *)
Lemma moves_healthy st s : healthy st → moves st s → healthy s.
Proof.
  intros Hh Hm. induction Hm.
  - done.
  - by eapply healthy_frame.
  - by apply healthy_issue.
  - by apply healthy_cancel.
  - by apply healthy_drop.
  - by apply healthy_alter.
  - by apply healthy_suspend.
  - by apply healthy_later.
  - by apply healthy_register.
  - by apply healthy_unregister.
  - by apply healthy_cleanup.
  - by apply healthy_arm.
  - by apply healthy_build.
Qed.

Lemma moves_trans st s s' : moves st s → moves s s' → moves st s'.
Proof.
  intros Hm Hm'. induction Hm'.
  - done.
  - by eapply moves_frame.
  - by apply moves_issue.
  - by apply moves_cancel.
  - by apply moves_drop.
  - by apply moves_alter.
  - by apply moves_suspend.
  - by apply moves_later.
  - by eapply moves_register.
  - by apply moves_unregister.
  - by apply moves_cleanup.
  - by apply moves_arm.
  - by apply moves_build.
Qed.

(** ** How the protocol objects and the delayed calls change *)

Lemma evolves_refl p : evolves p p.
Proof. by repeat split. Qed.

Lemma evolves_trans p p' p'' : evolves p p' → evolves p' p'' → evolves p p''.
Proof.
  intros (Hip & Ha & Hh & Hs) (Hip' & Ha' & Hh' & Hs').
  split; [congruence|]. split; [auto|]. split; [auto|]. lia.
Qed.

Lemma advances_refl st : advances st st.
Proof. split; [done|]. split; [|done]. intros conn p Hp. exists p. split; [done|apply evolves_refl]. Qed.

Lemma advances_trans st s s' : advances st s → advances s s' → advances st s'.
Proof.
  intros (Hn & Hp & Hr) (Hn' & Hp' & Hr'). split; [lia|]. split.
  - intros conn p Hx. destruct (Hp conn p Hx) as (p' & Hx' & He).
    destruct (Hp' conn p' Hx') as (p'' & Hx'' & He').
    exists p''. split; [done|by eapply evolves_trans].
  - intros t x Ht Hx. apply Hr; [done|]. apply Hr'; [lia|done].
Qed.

(** The protocol objects stay as they are. *)
Lemma advances_same s s' :
  protocols s' = protocols s → next_id s ≤ next_id s' →
  (∀ t x, t < next_id s → reactor s' !! t = Some x → reactor s !! t = Some x) →
  advances s s'.
Proof.
  intros Hp Hn Hr. split; [done|]. split; [|done].
  intros conn p Hx. exists p. rewrite Hp. split; [done|apply evolves_refl].
Qed.

Lemma advances_update s conn f :
  (∀ p, protocols s !! conn = Some p → evolves p (f p)) →
  advances s (update_protocol conn f s).
Proof.
  intros Hf. split; [done|]. split; [|done].
  intros c p Hp. unfold_state. rewrite lookup_alter. case_decide as Hc.
  - subst c. rewrite Hp. exists (f p). split; [done|by apply Hf].
  - exists p. split; [done|apply evolves_refl].
Qed.

Lemma advances_callLater d call s : advances s (callLater d call s).2.
Proof.
  apply advances_same; [done|cbn; lia|].
  intros t x Ht [[-> _]|[_ Hx]]%lookup_callLater; [lia|done].
Qed.

Lemma advances_cancel t s : advances s (cancel t s).
Proof.
  apply advances_same; [done|done|].
  intros t' x _. unfold_state. rewrite lookup_delete_Some. by intros [_ ?].
Qed.

Lemma advances_issue conn command defer s :
  advances s (relay_send_command conn command defer s).
Proof.
  destruct (protocols s !! conn) as [p|] eqn:Hp;
    [|unfold relay_send_command; rewrite Hp; apply advances_refl].
  rewrite (relay_send_command_sent _ _ _ _ _ Hp). unfold sent.
  split; [cbn; lia|]. split.
  - intros c p0 Hp0. cbn [protocols]. destruct (decide (c = conn)) as [->|Hne].
    + rewrite lookup_insert_eq. eexists. split; [done|].
      rewrite Hp in Hp0. injection Hp0 as <-.
      split; [done|]. split; [done|]. split; [done|]. cbn. lia.
    + rewrite lookup_insert_ne by done. exists p0. split; [done|apply evolves_refl].
  - intros t x Ht. cbn [reactor]. rewrite lookup_insert_ne by lia. done.
Qed.

Lemma calm_evolves p p' : calm p p' → evolves p p'.
Proof.
  intros (Hip & _ & Hs & Ha & Hh & _). split; [done|]. split; [done|]. split; [done|].
  rewrite Hs. lia.
Qed.

Lemma advances_build addr s : healthy s → advances s (buildProtocol addr s).2.
Proof.
  intros Hh. unfold buildProtocol. cbv zeta. cbn [snd]. split; [cbn; lia|].
  split; [|done].
  intros c p Hp. exists p. unfold_state. split; [|apply evolves_refl].
  rewrite lookup_insert_ne; [done|]. intros <-.
  assert (next_id s < next_id s); [|lia]. apply (h_conn_id _ Hh). by exists p.
Qed.

(** From a healthy state, the state changes only advance. *)
Lemma moves_advances st s : healthy st → moves st s → advances st s.
Proof.
  intros Hh Hm. induction Hm as
    [|s s' Hm IH Hf|s conn command defer Hm IH|s t Hm IH Hx|s conn seq Hm IH Hx
     |s conn f Hm IH Hf|s conn Hm IH|s d conn reason Hm IH|s conn p Hm IH Hp Ha Hc
     |s addr Hm IH|s addr Hm IH|s addr Hm IH Hc Hr|s addr Hm IH].
  - apply advances_refl.
  - apply (advances_trans _ _ _ IH). destruct Hf as (_ & _ & Hp & Hre & Hn & _).
    apply advances_same; [done|done|]. intros t x _. by rewrite Hre.
  - apply (advances_trans _ _ _ IH), advances_issue.
  - apply (advances_trans _ _ _ IH), advances_cancel.
  - apply (advances_trans _ _ _ IH), advances_update. intros p Hp.
    split; [done|]. split; [done|]. split; [done|]. cbn. lia.
  - apply (advances_trans _ _ _ IH), advances_update. intros p Hp.
    by apply calm_evolves, Hf.
  - apply (advances_trans _ _ _ IH).
    eapply advances_trans; [|eapply advances_trans].
    + apply (advances_update _ conn (set_timedout true)). intros p Hp.
      split; [done|]. split; [done|]. split; [done|]. cbn. lia.
    + apply advances_callLater.
    + apply advances_update. intros p Hp.
      split; [done|]. split; [done|]. split; [done|]. cbn. lia.
  - apply (advances_trans _ _ _ IH), advances_callLater.
  - apply (advances_trans _ _ _ IH). by apply advances_same.
  - apply (advances_trans _ _ _ IH). by apply advances_same.
  - apply (advances_trans _ _ _ IH).
    destruct (cleanup_timers s !! addr) as [t|]; cbn [from_option].
    + apply (advances_trans _ (cancel t s)); [apply advances_cancel|].
      by apply advances_same.
    + by apply advances_same.
  - apply (advances_trans _ _ _ IH).
    apply (advances_trans _
             (callLater (cleanup_dead_relays_after config) (CallDoCleanup addr) s).2);
      [apply advances_callLater|by apply advances_same].
  - apply (advances_trans _ _ _ IH), advances_build. by eapply moves_healthy.
Qed.

(** ** The handlers are made of the state changes *)

Lemma moves_same st s s' :
  moves st s →
  relays s' = relays s → cleanup_timers s' = cleanup_timers s →
  protocols s' = protocols s → reactor s' = reactor s →
  shutting_down s' = shutting_down s → next_id s ≤ next_id s' →
  moves st s'.
Proof. intros Hm ??????. apply (moves_frame st s); [done|]. repeat split; auto. Qed.

Lemma moves_with_trace f st s : moves st s → moves st (with_trace f s).
Proof. intros Hm. by apply (moves_same st s). Qed.

Lemma moves_with_sessions f st s : moves st s → moves st (with_sessions f s).
Proof. intros Hm. by apply (moves_same st s). Qed.

Lemma moves_with_gathers f st s : moves st s → moves st (with_gathers f s).
Proof. intros Hm. by apply (moves_same st s). Qed.

Lemma moves_with_state_file f st s : moves st s → moves st (with_state_file f s).
Proof. intros Hm. by apply (moves_same st s). Qed.

Lemma moves_with_next_id n st s :
  next_id s ≤ n → moves st s → moves st (with_next_id n s).
Proof. intros Hn Hm. by apply (moves_same st s). Qed.

Lemma moves_shutting_down st s : moves st s → moves st (with_shutting_down true s).
Proof.
  intros Hm. apply (moves_frame st s); [done|]. repeat split; auto.
Qed.

End Invariants.

(** The goal is [moves st0 _]: peel off the changes of single fields and
    the requests that are issued. *)
Ltac moving :=
  unfold client_failure, client_reply, relay_reply, log, emit, _save_state;
  cbv beta iota zeta;
  repeat first
    [ assumption
    | apply moves_refl
    | apply moves_issue | apply moves_later | apply moves_unregister
    | apply moves_build
    | apply moves_with_trace | apply moves_with_sessions | apply moves_with_gathers
    | apply moves_with_state_file | apply moves_with_next_id; [cbn; lia|] ].

Section Handlers.

Context `{Collaborators}.

Variable st0 : DState.

Lemma moves_DeferredList_result g index r st :
  moves st0 st → moves st0 (DeferredList_result g index r st).
Proof.
  intros Hm. unfold DeferredList_result. repeat case_match; moving.
Qed.

Lemma moves_try_next L command client st :
  moves st0 st → moves st0 (_try_next L command client st).2.
Proof.
  intros Hm. destruct L; [done|]. by apply moves_issue.
Qed.

Lemma moves_add_session L command st :
  moves st0 st → moves st0 (_add_session L command st).2.
Proof. intros Hm. unfold _add_session. repeat case_match; moving. Qed.

Lemma moves_cb_purge_sessions result relay st :
  moves st0 st → moves st0 (_cb_purge_sessions result relay st).2.
Proof.
  intros Hm. unfold _cb_purge_sessions, bind, lift, run.
  repeat case_match; simplify_eq; try done. cbn [snd].
  match goal with |- moves _ (fold_left ?f ?l _) => generalize l end.
  intros l. revert st Hm. induction l as [|[k s] l IH]; intros st Hm; [done|].
  cbn [fold_left]. apply IH. repeat case_match; moving.
Qed.

Lemma moves_errback defer e st :
  moves st0 st → moves st0 (errback defer e st).
Proof.
  intros Hm. destruct defer; cbn [errback].
  - moving.
  - unfold _relay_error, bind, run. destruct try_relays as [|failed L]; [moving|].
    pose proof (moves_try_next L command client
                  (log WARNING (LogRelayFailed failed e) st)) as Ht.
    destruct (_try_next L command client _) as [[] st']; cbn [snd] in Ht;
      [apply Ht|apply moves_with_trace, moves_with_trace, Ht]; moving.
  - moving.
  - apply moves_DeferredList_result. moving.
  - by apply moves_DeferredList_result.
Qed.

Lemma moves_callback defer result st :
  moves st0 st → moves st0 (callback defer result st).
Proof.
  intros Hm. destruct defer; cbn [callback].
  - moving.
  - pose proof (moves_add_session try_relays command st Hm) as Ha.
    destruct (_add_session try_relays command st) as [[] st']; cbn [snd] in Ha;
      moving.
  - pose proof (moves_cb_purge_sessions result relay st Hm) as Hp.
    destruct (_cb_purge_sessions result relay st) as [[] st']; cbn [snd] in Hp;
      moving.
  - by apply moves_DeferredList_result.
  - by apply moves_DeferredList_result.
Qed.

Lemma moves_do_accounting sinks : ∀ i stats st,
  moves st0 st → moves st0 (do_accounting_from i sinks stats st).
Proof.
  induction sinks as [|sink sinks IH]; intros i stats st Hm; [done|].
  cbn [do_accounting_from]. apply IH. destruct (sink stats); moving.
Qed.

Lemma moves_update_statistics stats st :
  moves st0 st → moves st0 (update_statistics stats st).2.
Proof.
  intros Hm. unfold update_statistics, bind, run, lift, ret.
  repeat case_match; simplify_eq; cbn [snd];
    try apply moves_do_accounting; moving.
Qed.

Lemma moves_expired self now stats st :
  moves st0 st → moves st0 (expired self now stats st).2.
Proof.
  intros Hm. unfold expired, bind, lift, run.
  repeat (case_match; simplify_eq; try done); cbn [snd]; try moving;
    match goal with
    | Hu : update_statistics ?s ?x = (_, ?d) |- moves _ ?d =>
        pose proof (moves_update_statistics s x) as Hcu;
        rewrite Hu in Hcu; apply Hcu; moving
    end.
Qed.

Lemma moves_removed stats st :
  moves st0 st → moves st0 (removed stats st).2.
Proof.
  intros Hm. unfold removed, bind, lift, run, raise.
  repeat (case_match; simplify_eq; try done); cbn [snd]; try moving;
    match goal with
    | Hu : update_statistics ?s ?x = (_, ?d) |- _ =>
        pose proof (moves_update_statistics s x) as Hcu;
        rewrite Hu in Hcu; cbn [snd] in Hcu; specialize (Hcu Hm); moving
    end.
Qed.

Hypothesis Hh0 : healthy st0.

(** A flag of a protocol object is set. *)
Lemma moves_flag conn f st :
  moves st0 st →
  (∀ p, ip (f p) = ip p ∧ commands (f p) = commands p
        ∧ sequence_number (f p) = sequence_number p
        ∧ (authenticated p = true → authenticated (f p) = true)
        ∧ (halting p = true → halting (f p) = true)
        ∧ timedout (f p) = timedout p
        ∧ disconnect_timer (f p) = disconnect_timer p) →
  moves st0 (update_protocol conn f st).
Proof.
  intros Hm Hf. apply moves_alter; [done|]. intros p Hp.
  pose proof (moves_healthy _ _ Hh0 Hm) as Hh.
  destruct (Hf p) as (Hip & Hc & Hs & Ha & Hha & Ht & Hd).
  split; [done|]. split; [done|]. split; [done|]. split; [done|]. split; [done|].
  rewrite Ht, Hd. split; [apply (h_timedout _ Hh _ _ Hp)|done].
Qed.

(** The pending request [seq] of [conn] is taken out of [commands], and its
    timer is cancelled. *)
Lemma moves_pop conn self seq e st :
  moves st0 st →
  protocols st !! conn = Some self → commands self !! seq = Some e →
  moves st0 (cancel (p_timer e) (update_protocol conn (set_commands (delete seq)) st)).
Proof.
  intros Hm Hself He. pose proof (moves_healthy _ _ Hh0 Hm) as Hh.
  change (moves st0 (update_protocol conn (set_commands (delete seq))
                       (cancel (p_timer e) st))).
  apply moves_drop; [apply moves_cancel; [done|]|].
  - intros d addr Hx.
    destruct (h_pending _ Hh _ _ _ _ Hself He) as [_ Hc]. by specialize (Hc _ _ Hx).
  - intros t d. unfold_state. rewrite lookup_delete_Some. intros [Hne Hx].
    destruct (h_timeout _ Hh _ _ _ _ Hx) as (p & e' & Hp & He' & Ht).
    rewrite Hself in Hp. injection Hp as <-. rewrite He in He'. injection He' as <-.
    done.
Qed.

(** The connection [conn] is heard of again, or is lost: it is not timed
    out any more, and its disconnect timer is cancelled. *)
Lemma moves_resume conn self st :
  moves st0 st → protocols st !! conn = Some self →
  ∃ st', (if timedout self then
            bind (run (update_protocol conn (set_timedout false)))
              (λ _, bind (match disconnect_timer self with
                          | None => raise AttributeError
                          | Some t =>
                              run (λ st, if timer_active t st then cancel t st else st)
                          end)
                      (λ _, run (update_protocol conn (set_disconnect_timer None))))
          else ret tt) st = (Ret tt, st')
         ∧ moves st0 st'
         ∧ ∃ self', protocols st' !! conn = Some self' ∧ timedout self' = false
                    ∧ disconnect_timer self'
                      = (if timedout self then None else disconnect_timer self)
                    ∧ ip self' = ip self ∧ authenticated self' = authenticated self
                    ∧ halting self' = halting self.
Proof.
  intros Hm Hself. pose proof (moves_healthy _ _ Hh0 Hm) as Hh.
  destruct (timedout self) eqn:Htimedout.
  - destruct (h_timedout _ Hh _ _ Hself Htimedout) as [t Ht]. rewrite Ht.
    unfold bind, run. eexists. split; [done|]. split.
    + assert (Hm1 : moves st0 (update_protocol conn (set_timedout false) st)).
      { apply moves_alter; [done|]. intros p Hp. by repeat split. }
      assert (Hm2 : moves st0
                (if timer_active t (update_protocol conn (set_timedout false) st)
                 then cancel t (update_protocol conn (set_timedout false) st)
                 else update_protocol conn (set_timedout false) st)).
      { destruct (timer_active _ _); [|done]. apply moves_cancel; [done|].
        intros d addr Hx. destruct (h_disconnect _ Hh _ _ _ Hself Ht) as [_ Hc].
        by specialize (Hc _ _ Hx). }
      apply moves_alter; [done|]. intros p Hp.
      assert (timedout p = false) as Hp'.
      { revert Hp. destruct (timer_active _ _); unfold_state;
          rewrite lookup_alter_eq, Hself; by intros [= <-]. }
      split; [done|]. split; [done|]. split; [done|]. split; [done|]. split; [done|].
      split; [|done]. cbn. congruence.
    + eexists. split.
      { destruct (timer_active _ _); unfold_state;
          by rewrite !lookup_alter_eq, Hself. }
      done.
  - eexists. split; [done|]. split; [done|]. by exists self.
Qed.

Lemma moves_lineReceived conn now line st :
  moves st0 st → moves st0 (lineReceived conn now line st).2.
Proof.
  intros Hm. unfold lineReceived.
  destruct (protocols st !! conn) as [self|] eqn:Hself; [|done].
  destruct (match PyStr.split1 " " line with Some p => p | None => _ end)
    as [first rest].
  destruct (String.eqb first "expired").
  { destruct (cjson_decode rest); [by apply moves_expired|moving]. }
  destruct (String.eqb first "ping").
  { destruct (moves_resume conn self st Hm Hself) as (st' & Heq & Hm' & _).
    unfold bind at 1. rewrite Heq. cbn [snd run]. moving. }
  destruct (commands self !! first) as [[command defer timer]|] eqn:He; [|moving].
  pose proof (moves_pop conn self first _ st Hm Hself He) as Hm1. cbn [p_timer] in Hm1.
  destruct (String.eqb rest "error"); [by apply moves_errback|].
  destruct (String.eqb rest "halting").
  { apply moves_errback. cbn [fst snd]. by apply moves_flag. }
  destruct (String.eqb (name command) "remove"); [|by apply moves_callback].
  destruct (cjson_decode rest) as [stats|].
  - pose proof (moves_removed stats _ Hm1) as Hr.
    destruct (removed stats _) as [[] st']; cbn [snd] in Hr |- *; [|done].
    by apply moves_callback.
  - apply moves_callback. moving.
Qed.

Lemma moves_connection_lost relay st :
  moves st0 st → moves st0 (connection_lost relay st).
Proof.
  intros Hm. pose proof (moves_healthy _ _ Hh0 Hm) as Hh. unfold connection_lost.
  destruct (protocols st !! relay) as [protocol|] eqn:Hp; [|done].
  case_bool_decide as Hin; [|done].
  apply elem_of_itervalues in Hin as [addr Hr].
  destruct (h_registry _ Hh _ _ Hr) as (p & Hp' & Hip & Hauth).
  rewrite Hp in Hp'. injection Hp' as <-. subst addr. rewrite Hauth.
  set (s1 := with_relays (delete (ip protocol)) st).
  assert (Hm1 : moves st0 s1) by (subst s1; moving).
  destruct (shutting_down s1) eqn:Hsd.
  - case_bool_decide; moving.
  - apply (moves_arm st0 s1 (ip protocol)); [done| |].
    + destruct (cleanup_timers st !! ip protocol) as [t|] eqn:Ht; [|done].
      destruct (h_armed _ Hh Hsd _ _ Ht) as [_ Hn]. congruence.
    + subst s1. unfold_state. by rewrite lookup_delete_eq.
Qed.

End Handlers.

Section Events.

Context `{Collaborators}.

(** The pending requests of a lost connection fail, one after the other. *)
Lemma moves_fail_pending addr (l : list pending) : ∀ st0 st,
  healthy st0 → moves st0 st →
  (∀ e, e ∈ l → p_timer e < next_id st
     ∧ ∀ d c, reactor st !! p_timer e = Some (d, c) → ∃ conn seq, c = CallTimeout conn seq) →
  moves st0
    (fold_left
       (λ st (p : pending),
          errback (p_defer p) (RelayDisconnected (name (p_command p)) addr)
                  (cancel (p_timer p) st))
       l st).
Proof.
  induction l as [|e l IH]; intros st0 st Hh0 Hm Hl; [done|].
  cbn [fold_left]. pose proof (moves_healthy _ _ Hh0 Hm) as Hh.
  assert (Hm1 : moves st (errback (p_defer e)
                  (RelayDisconnected (name (p_command e)) addr) (cancel (p_timer e) st))).
  { apply moves_errback, moves_cancel; [apply moves_refl|]. intros d a Hx.
    destruct (Hl e (list_elem_of_here _ _)) as [_ Hc].
    destruct (Hc _ _ Hx) as (c & sq & [=]). }
  apply IH; [done|by eapply moves_trans|].
  intros e' He'. destruct (Hl e' (list_elem_of_further _ _ _ He')) as [Hlt Hc].
  destruct (moves_advances _ _ Hh Hm1) as (Hn & _ & Hr).
  split; [lia|]. intros d c Hx. apply (Hc d c). by apply Hr.
Qed.

Lemma moves_connectionLost conn reason st0 st :
  healthy st0 → moves st0 st →
  ∃ st', connectionLost conn reason st = (Ret tt, st') ∧ moves st0 st'.
Proof.
  intros Hh0 Hm. pose proof (moves_healthy _ _ Hh0 Hm) as Hh. unfold connectionLost.
  destruct (protocols st !! conn) as [self|] eqn:Hself; [|by eexists].
  set (st1 := log _ _ st).
  set (st2 := fold_left _ _ st1).
  assert (Hm2 : moves st0 st2).
  { apply moves_fail_pending; [done|subst st1; moving|].
    intros e [[seq e'] [-> He]]%list_elem_of_fmap. apply elem_of_map_to_list in He.
    destruct (h_pending _ Hh _ _ _ _ Hself He) as [Hlt Hc]. split; [done|].
    intros d c Hx. exists conn, seq. by eapply Hc. }
  destruct (protocols st2 !! conn) as [self2|] eqn:Hself2; [|by eexists].
  destruct (moves_resume st0 Hh0 conn self2 st2 Hm2 Hself2) as (st3 & Heq & Hm3 & _).
  unfold bind at 1. rewrite Heq. eexists. split; [done|]. cbn [snd].
  by apply moves_connection_lost.
Qed.

(** The reactor makes a delayed call: it does not raise. *)
Lemma moves_fire t st0 st :
  healthy st0 → moves st0 st →
  ∃ st', fire t st = (Ret tt, st') ∧ moves st0 st'.
Proof.
  intros Hh0 Hm. pose proof (moves_healthy _ _ Hh0 Hm) as Hh. unfold fire.
  destruct (reactor st !! t) as [[d call]|] eqn:Ht; [|by eexists].
  change (with_reactor (delete t) st) with (cancel t st).
  destruct call as [conn seq|conn reason|addr].
  - (* the timer of a request *)
    assert (Hm1 : moves st0 (cancel t st)).
    { apply moves_cancel; [done|]. intros d' a. rewrite Ht. by intros [=]. }
    destruct (h_timeout _ Hh _ _ _ _ Ht) as (self & e & Hself & He & Hte).
    unfold _timeout. change (protocols (cancel t st)) with (protocols st).
    rewrite Hself, He. destruct e as [command defer timer]. cbn [p_timer] in Hte.
    set (st2 := update_protocol conn (set_commands (delete seq)) (cancel t st)).
    assert (Hm2 : moves st0 st2).
    { apply moves_drop; [done|]. intros t' d'. unfold_state.
      rewrite lookup_delete_Some. intros [Hne Hx].
      destruct (h_timeout _ Hh _ _ _ _ Hx) as (p & e' & Hp & He' & Ht').
      rewrite Hself in Hp. injection Hp as <-. rewrite He in He'. injection He' as <-.
      cbn [p_timer] in Ht'. congruence. }
    set (st3 := errback _ _ st2).
    assert (Hm3 : moves st0 st3) by by apply moves_errback.
    destruct (timedout <$> protocols st3 !! conn) as [[]|]; [by eexists| |by eexists].
    exists (update_protocol conn (set_disconnect_timer (Some (next_id st3)))
              (callLater (relay_recover_interval config)
                 (CallConnectionLost conn TCPTimedOutError)
                 (update_protocol conn (set_timedout true) st3)).2).
    split; [done|]. by apply moves_suspend.
  - (* the connection is given up, or was replaced *)
    apply moves_connectionLost; [done|]. apply moves_cancel; [done|].
    intros d' a. rewrite Ht. by intros [=].
  - (* the cleanup for a relay that is gone *)
    pose proof (h_cleanup _ Hh _ _ _ Ht) as Hc.
    unfold _do_cleanup. change (cleanup_timers (log _ _ (cancel t st)))
      with (cleanup_timers st). rewrite Hc. eexists. split; [done|].
    apply (moves_same st0 (with_cleanup_timers (delete addr)
             (from_option (λ t, cancel t st) st (cleanup_timers st !! addr))));
      [by apply moves_cleanup|by rewrite Hc..].
Qed.

Lemma moves_new_relay relay st0 st :
  healthy st0 → moves st0 st →
  (∀ p, protocols st !! relay = Some p → authenticated p = true) →
  moves st0 (new_relay relay st).
Proof.
  intros Hh0 Hm Hauth. unfold new_relay.
  destruct (protocols st !! relay) as [protocol|] eqn:Hp; [|done].
  specialize (Hauth _ eq_refl).
  set (s2 := match relays st !! ip protocol with Some _ => _ | None => _ end).
  assert (Hm2 : moves st0 s2).
  { subst s2. destruct (relays st !! ip protocol); moving. }
  assert (Hp2 : protocols s2 = protocols st).
  { subst s2. by destruct (relays st !! ip protocol). }
  apply moves_issue.
  set (s3 := with_cleanup_timers (delete (ip protocol))
               (from_option (λ t, cancel t s2) s2 (cleanup_timers s2 !! ip protocol))).
  assert (Hm3 : moves st0 s3) by by apply moves_cleanup.
  assert (Hfinal : moves st0 (with_relays <[ip protocol := relay]> s3)).
  { apply moves_register; [done| |done|].
    - subst s3. destruct (cleanup_timers s2 !! ip protocol); cbn; by rewrite Hp2.
    - intros _. subst s3. unfold_state. by rewrite lookup_delete_eq. }
  subst s3. change (cleanup_timers (with_relays <[ip protocol:=relay]> s2))
    with (cleanup_timers s2).
  by destruct (cleanup_timers s2 !! ip protocol).
Qed.

Lemma moves_connectionMade conn accepted st0 st :
  healthy st0 → moves st0 st → moves st0 (connectionMade conn accepted st).
Proof.
  intros Hh0 Hm. unfold connectionMade. destruct accepted; [|moving].
  apply moves_new_relay; [done|by apply moves_flag|].
  intros p. unfold_state. rewrite lookup_alter_eq.
  destruct (protocols st !! conn); [|done]. by intros [= <-].
Qed.

Lemma moves_remove_expired_sessions now st0 st :
  moves st0 st → moves st0 (_remove_expired_sessions now st).
Proof. intros Hm. unfold _remove_expired_sessions. case_bool_decide; moving. Qed.

Lemma moves_fan_out nm mk items st0 : ∀ st,
  moves st0 st → moves st0 (fan_out nm mk items st).
Proof.
  unfold fan_out. generalize (imap (λ (i : nat) (x : string * nat), (i, x)) items).
  intros l. induction l as [|[i [addr relay]] l IH]; intros st Hm; [done|].
  cbn [fold_left]. apply IH. by apply moves_issue.
Qed.

Lemma moves_get_summary client st0 st :
  moves st0 st → moves st0 (get_summary client st).
Proof.
  intros Hm. unfold get_summary, DeferredList. cbv zeta.
  destruct (map_to_list (relays st)); [moving|].
  apply moves_fan_out. moving.
Qed.

Lemma moves_get_statistics client st0 st :
  moves st0 st → moves st0 (get_statistics client st).
Proof.
  intros Hm. unfold get_statistics, DeferredList. cbv zeta.
  destruct (map_to_list (relays st)); [moving|].
  apply moves_fan_out. moving.
Qed.

Lemma moves_management_lineReceived client line st0 st :
  moves st0 st → moves st0 (management_lineReceived client line st).
Proof.
  intros Hm. unfold management_lineReceived.
  repeat case_match; try done;
    [by apply moves_get_summary|by apply moves_get_statistics|moving..].
Qed.

Lemma moves_shutdown st0 st : moves st0 st → moves st0 (shutdown st).
Proof.
  intros Hm. unfold shutdown. destruct (shutting_down st); [done|].
  set (s1 := with_shutting_down true st).
  assert (Hm1 : moves st0 s1) by by apply moves_shutting_down.
  assert (Hc : ∀ l s, moves st0 s → shutting_down s = true →
            moves st0 (fold_left (λ st t, cancel t st) l s)
            ∧ shutting_down (fold_left (λ st t, cancel t st) l s) = true
            ∧ relays (fold_left (λ st t, cancel t st) l s) = relays s).
  { induction l as [|t l IH]; intros s Hs Hsd; [done|]. cbn [fold_left].
    destruct (IH (cancel t s)) as (? & ? & ?); [by apply moves_cancel|done|done]. }
  destruct (Hc ((map_to_list (cleanup_timers s1)).*2) s1 Hm1 eq_refl) as (Hm2 & _ & Hr).
  case_bool_decide; [moving|].
  match goal with |- moves _ (fold_left _ ?l ?s) => generalize l; revert Hm2; generalize s end.
  intros s Hs l. revert s Hs. induction l as [|c l IH]; intros s Hs; [done|].
  cbn [fold_left]. apply IH. moving.
Qed.

Lemma moves_RelayFactory_send_command rnd client command st0 st :
  moves st0 st → moves st0 (RelayFactory_send_command rnd client command st).2.
Proof.
  intros Hm. unfold RelayFactory_send_command. cbv zeta.
  repeat (case_match; simplify_eq; try done); cbn [snd]; try moving;
    match goal with
    | Hu : _try_next ?l ?c ?cl ?x = (_, ?d) |- moves _ ?d =>
        pose proof (moves_try_next st0 l c cl x) as Hcu;
        rewrite Hu in Hcu; apply Hcu; moving
    end.
Qed.

Lemma moves_request_received rnd client request_lines st0 st :
  moves st0 st → moves st0 (request_received rnd client request_lines st).
Proof.
  intros Hm. unfold request_received.
  assert (Hr : moves st0 (handle_request rnd client request_lines st).2).
  { unfold handle_request. destruct request_lines as [|nm hdrs]; [done|].
    unfold bind, lift, raise. destruct (Command_init nm hdrs) as [command|]; [|done].
    destruct (call_id command); [|done].
    by apply moves_RelayFactory_send_command. }
  destruct (handle_request rnd client request_lines st) as [[[]|] st'];
    cbn [snd] in Hr; moving.
Qed.

(** ** From the start *)

Lemma healthy_empty file : healthy (mkState ∅ ∅ ∅ false ∅ ∅ ∅ 0 file []).
Proof.
  constructor; cbn; intros; by simplify_map_eq.
Qed.

Lemma moves_arm_all st0 (l : list string) : ∀ st,
  NoDup l → moves st0 st →
  (∀ addr, addr ∈ l → cleanup_timers st !! addr = None) → relays st = ∅ →
  moves st0
    (fold_left
       (λ st addr,
          let '(t, st) := callLater (cleanup_dead_relays_after config)
                            (CallDoCleanup addr) st in
          with_cleanup_timers <[addr := t]> st)
       l st).
Proof.
  induction l as [|addr l IH]; intros st Hnd Hm Hl Hr; [done|].
  apply NoDup_cons in Hnd as [Hnotin Hnd]. cbn [fold_left]. apply IH; [done| | |done].
  - apply (moves_arm st0 st addr); [done| |].
    + apply Hl. by left.
    + by rewrite Hr, lookup_empty.
  - intros a Ha. unfold callLater. unfold_state. rewrite lookup_insert_ne.
    + apply Hl. by right.
    + intros <-. done.
Qed.

Lemma healthy_RelayFactory_init file : healthy (RelayFactory_init file).
Proof.
  unfold RelayFactory_init.
  set (st := mkState ∅ ∅ ∅ false ∅ ∅ ∅ 0 file []).
  apply (moves_healthy st); [apply healthy_empty|].
  cbv zeta. destruct (file ≫= pickle_loads) as [loaded|]; [|moving].
  apply moves_with_trace, moves_with_state_file, moves_arm_all.
  - apply NoDup_elements.
  - moving.
  - intros addr _. apply lookup_empty.
  - done.
Qed.

(** ** One turn of the event loop *)

Lemma moves_step ev w :
  healthy (dispatcher w) → moves (dispatcher w) (dispatcher (step ev w)).
Proof.
  intros Hh. pose proof (moves_refl (dispatcher w)) as Hm. unfold step. cbv zeta.
  destruct ev as [client rnd request_lines|client line|addr accepted|conn now line
                 |conn reason|t|now|]; cbn [dispatcher].
  - by apply moves_request_received.
  - by apply moves_management_lineReceived.
  - destruct (shutting_down (dispatcher w)); [done|]. cbn [dispatcher].
    apply moves_connectionMade; [done|]. by apply (moves_build _ _ addr).
  - destruct (is_open w conn); [|done].
    pose proof (moves_lineReceived _ Hh conn now line _ Hm) as Hl.
    destruct (lineReceived conn now line (dispatcher w)) as [[[]|e] st']; cbn [snd] in Hl;
      [done|]. unfold lose. cbn [dispatcher].
    destruct (moves_connectionLost conn OtherReason _ (log ERROR (LogFailure e) st') Hh)
      as (st'' & -> & Hm''); [moving|done].
  - destruct (is_open w conn); [|done]. unfold lose. cbn [dispatcher].
    by destruct (moves_connectionLost conn reason _ _ Hh Hm) as (st'' & -> & Hm'').
  - destruct (moves_fire t _ _ Hh Hm) as (st'' & Heq & Hm'').
    destruct (reactor (dispatcher w) !! t) as [[d [| |]]|] eqn:Ht; cbn [dispatcher];
      try (rewrite Heq; done).
    destruct (is_open w conn); cbn [dispatcher]; [by rewrite Heq|].
    apply moves_cancel; [done|]. intros d' a. rewrite Ht. by intros [=].
  - by apply moves_remove_expired_sessions.
  - by apply moves_shutdown.
Qed.

Lemma healthy_step ev w : healthy (dispatcher w) → healthy (dispatcher (step ev w)).
Proof. intros Hh. by apply (moves_healthy (dispatcher w)), moves_step. Qed.

Lemma healthy_run_events file events : healthy (dispatcher (run_events file events)).
Proof.
  unfold run_events. assert (Hh : healthy (dispatcher (start file)))
    by apply healthy_RelayFactory_init.
  revert Hh. generalize (start file). induction events as [|ev events IH]; intros w Hh;
    [done|].
  cbn [fold_left]. by apply IH, healthy_step.
Qed.


End Events.

(** * Further properties of the dispatcher *)

Section Reached.

Context `{Collaborators}.

Lemma run_events_app file events more :
  run_events file (events ++ more)
  = fold_left (λ w ev, step ev w) more (run_events file events).
Proof. unfold run_events. by rewrite fold_left_app. Qed.

Lemma advances_step ev w :
  healthy (dispatcher w) → advances (dispatcher w) (dispatcher (step ev w)).
Proof. intros Hh. by apply moves_advances, moves_step. Qed.

Lemma advances_steps more : ∀ w,
  healthy (dispatcher w) →
  advances (dispatcher w) (dispatcher (fold_left (λ w ev, step ev w) more w)).
Proof.
  induction more as [|ev more IH]; intros w Hh; [apply advances_refl|].
  cbn [fold_left]. eapply advances_trans; [by apply advances_step|].
  by apply IH, healthy_step.
Qed.

Lemma evolves_run_events file events more conn p :
  protocols (dispatcher (run_events file events)) !! conn = Some p →
  ∃ p', protocols (dispatcher (run_events file (events ++ more))) !! conn = Some p'
        ∧ evolves p p'.
Proof.
  intros Hp. rewrite run_events_app.
  destruct (advances_steps more _ (healthy_run_events file events)) as (_ & Ha & _).
  destruct (Ha conn p Hp) as (p' & Hp' & He). by exists p'.
Qed.

(** X1.  Whatever events the dispatcher has handled since its start, every
    entry of the registry [relays] maps an address to a connection that
    exists, comes from that address and is authenticated. *)
Theorem reachable_registry file events :
  registry_wf (dispatcher (run_events file events)).
Proof. apply (h_registry _ (healthy_run_events file events)). Qed.

(** X2.  Whatever events the dispatcher has handled, the pending requests of
    every relay connection are filed under the decimal forms of sequence
    numbers below the next sequence number of the connection; so the next
    request that [send_command] files replaces no pending one. *)
Theorem reachable_sequence_numbers file events :
  map_Forall
    (λ _ p, (∀ k, is_Some (commands p !! k) →
               ∃ n : N, (n < sequence_number p)%N ∧ k = pretty n)
            ∧ commands p !! pretty (sequence_number p) = None)
    (protocols (dispatcher (run_events file events))).
Proof.
  intros conn p Hp.
  pose proof (h_seq _ (healthy_run_events file events) _ _ Hp) as Hs.
  split; [done|by apply seq_fresh].
Qed.

(** X3.  Whatever events the dispatcher has handled, a delayed call that
    the reactor makes does not raise: [_timeout] finds its request in
    [commands], [_do_cleanup] finds its entry in [cleanup_timers], and
    [connectionLost] finds the disconnect timer of a connection that is
    timed out. *)
Theorem delayed_calls_never_raise file events t :
  (fire t (dispatcher (run_events file events))).1 = Ret tt.
Proof.
  pose proof (healthy_run_events file events) as Hh.
  destruct (moves_fire t _ _ Hh (moves_refl _)) as (st' & -> & _). done.
Qed.

(** X4.  Whatever events the dispatcher has handled, as long as it is not
    shutting down every entry of [cleanup_timers] is a delayed call to
    [_do_cleanup] for its address that the reactor still holds, and no relay
    is registered for that address. *)
Theorem reachable_cleanup_timers file events :
  let st := dispatcher (run_events file events) in
  shutting_down st = false →
  map_Forall
    (λ addr t, (∃ d, reactor st !! t = Some (d, CallDoCleanup addr))
               ∧ relays st !! addr = None)
    (cleanup_timers st).
Proof.
  intros st Hs addr t Ht. pose proof (healthy_run_events file events) as Hh.
  fold st in Hh. destruct (h_armed _ Hh Hs _ _ Ht) as [[[d c] Hr] Hn].
  split; [|done]. exists d.
  destruct (h_cleanup_timer _ Hh _ _ Ht) as [_ Hc]. by rewrite (Hc _ _ Hr) in Hr.
Qed.

(** X5.  Whatever events the dispatcher handles, a protocol object only
    evolves: its address stays the same, it stays authenticated and halting
    once it is, and its sequence number does not decrease. *)
Theorem protocols_evolve file events more conn p :
  protocols (dispatcher (run_events file events)) !! conn = Some p →
  ∃ p', protocols (dispatcher (run_events file (events ++ more))) !! conn = Some p'
        ∧ ip p' = ip p
        ∧ (authenticated p = true → authenticated p' = true)
        ∧ (halting p = true → halting p' = true)
        ∧ (sequence_number p ≤ sequence_number p')%N.
Proof.
  intros Hp. destruct (evolves_run_events file events more conn p Hp) as (p' & Hp' & He).
  by exists p'.
Qed.

(** X6.  A relay connection that has answered [halting] is left out of
    every list of candidates that [send_command] builds afterwards, whatever
    events happened in between: it is neither among the shuffled connections
    nor accepted as the preferred relay.  A placement that is under way is
    another matter: when the relay that it waits for fails, [_relay_error]
    and [_try_next] send the [update] to the next connection of the list
    that was built at the start, without a test of [active], also when that
    connection has answered [halting] in the meantime. *)
Theorem halting_relay_placement file events more conn p rnd command :
  protocols (dispatcher (run_events file events)) !! conn = Some p →
  halting p = true →
  let st := dispatcher (run_events file (events ++ more)) in
  (conn ∉ candidates rnd command st)
  ∧ ∃ p', protocols st !! conn = Some p' ∧ halting p' = true ∧ active p' = false
      ∧ ∀ e failed L upd client,
          errback (WPlace (failed :: conn :: L) upd client) e st
          = sent conn upd (WPlace (conn :: L) upd client) p'
              (log WARNING (LogRelayFailed failed e) st).
Proof.
  intros Hp Hhalt st.
  destruct (evolves_run_events file events more conn p Hp) as (p' & Hp' & _ & _ & Hh' & _).
  specialize (Hh' Hhalt). fold st in Hp'. split.
  - destruct (candidates_spec rnd command _
                (h_registry _ (healthy_run_events file (events ++ more)))) as [_ Hiff].
    intros (addr & p'' & _ & Hp'' & Hact)%Hiff. fold st in Hp''.
    rewrite Hp' in Hp''. injection Hp'' as <-.
    unfold active in Hact. by rewrite Hh' in Hact.
  - exists p'. split; [done|]. split; [done|].
    split; [unfold active; by rewrite Hh'|].
    intros e failed L upd client. clearbody st.
    unfold errback, _relay_error, bind, run, _try_next.
    apply (relay_send_command_sent conn upd _ (log WARNING (LogRelayFailed failed e) st)).
    exact Hp'.
Qed.

End Reached.

Section Cleaning.

Context `{Collaborators}.

(** X7.  When the cleanup timer of a relay address fires, in any state that
    the dispatcher has reached, [_do_cleanup] does not raise, and it removes
    exactly the sessions pinned to that address, expired or not; it ends no
    dialog and does no accounting, and the timer is gone from
    [cleanup_timers] and from the reactor. *)
Theorem cleanup_timer_fires file events t d addr :
  let st := dispatcher (run_events file events) in
  reactor st !! t = Some (d, CallDoCleanup addr) →
  ∃ st', fire t st = (Ret tt, st')
    ∧ (∀ k s, sessions st' !! k = Some s
              ↔ sessions st !! k = Some s ∧ relay_ip s ≠ addr)
    ∧ cleanup_timers st' = delete addr (cleanup_timers st)
    ∧ reactor st' = delete t (reactor st)
    ∧ relays st' = relays st
    ∧ trace st' = trace st ++ [Log DEBUG (LogCleanup addr)].
Proof.
  intros st Ht. pose proof (healthy_run_events file events) as Hh. fold st in Hh.
  pose proof (h_cleanup _ Hh _ _ _ Ht) as Hc.
  unfold fire. rewrite Ht. unfold _do_cleanup.
  change (cleanup_timers (log _ _ (with_reactor (delete t) st)))
    with (cleanup_timers st). rewrite Hc.
  eexists. split; [done|]. unfold_state. split; [|done].
  intros k s. by rewrite map_lookup_filter_Some.
Qed.

(** X8.  [_remove_expired_sessions] removes exactly the sessions whose
    [expire_time] is set, is not zero, and lies at least
    [cleanup_expired_sessions_after] seconds back; a session that is not
    expired is never removed.  Nothing else changes, except that a warning
    with the number of removed sessions is logged when there is one. *)
Theorem remove_expired_sessions_spec now st :
  let st' := _remove_expired_sessions now st in
  (∀ k s, sessions st' !! k = Some s
          ↔ sessions st !! k = Some s
            ∧ ∀ t, expire_time s = Some t →
                   (t = 0 ∨ now - t < cleanup_expired_sessions_after config)%Z)
  ∧ relays st' = relays st ∧ protocols st' = protocols st
  ∧ cleanup_timers st' = cleanup_timers st ∧ reactor st' = reactor st
  ∧ ∃ n, n = size (filter (λ kv, obsolete now kv.2 = true) (sessions st))
       ∧ trace st' = trace st ++ (if decide (n = 0) then []
                                  else [Log WARNING (LogExpiredSessions n)]).
Proof.
  intros st'.
  assert (Hobs : ∀ s, obsolete now s ≠ true
            ↔ ∀ t, expire_time s = Some t →
                   (t = 0 ∨ now - t < cleanup_expired_sessions_after config)%Z).
  { intros s. unfold obsolete. destruct (expire_time s) as [t|]; [|by split].
    rewrite not_true_iff_false, andb_false_iff, negb_false_iff, Z.eqb_eq,
      Z.leb_gt. split.
    - intros Ht t' [= <-]. done.
    - intros Ht. by apply Ht. }
  subst st'. unfold _remove_expired_sessions. case_bool_decide as Hsize.
  - split.
    + intros k s. rewrite <- Hobs. split; [|by intros [? _]].
      intros Hk. split; [done|]. intros Ho.
      apply map_size_empty_iff in Hsize.
      assert (filter (λ kv, obsolete now kv.2 = true) (sessions st) !! k = Some s)
        as Hf by by apply map_lookup_filter_Some.
      rewrite Hsize in Hf. done.
    + do 4 (split; [done|]). eexists. split; [done|].
      rewrite decide_True by done. by rewrite app_nil_r.
  - split.
    + intros k s. unfold_state. rewrite map_lookup_filter_Some. by rewrite <- Hobs.
    + do 4 (split; [done|]). eexists. split; [done|]. by rewrite decide_False.
Qed.

(** X9.  Running [_remove_expired_sessions] again at the same time finds
    nothing more to remove: the second run changes nothing and logs
    nothing. *)
Theorem remove_expired_sessions_idempotent now st :
  _remove_expired_sessions now (_remove_expired_sessions now st)
  = _remove_expired_sessions now st.
Proof.
  assert (Hnone : ∀ s : DState,
            filter (λ kv, obsolete now kv.2 = true)
              (filter (λ kv : string * RelaySession, obsolete now kv.2 ≠ true)
                 (sessions s)) = ∅).
  { intros s. apply map_eq. intros k. rewrite lookup_empty.
    apply map_lookup_filter_None. right. intros x Hx Ho.
    apply map_lookup_filter_Some in Hx as [_ Hx]. done. }
  unfold _remove_expired_sessions at 2. case_bool_decide as Hsize.
  - unfold _remove_expired_sessions. by rewrite bool_decide_true.
  - unfold _remove_expired_sessions. unfold_state. rewrite Hnone.
    rewrite bool_decide_true by apply map_size_empty.
    by rewrite bool_decide_false.
Qed.

End Cleaning.

Section Reconciliation.

Context `{Collaborators}.

Lemma purge_fold relay ids (l : list (string * RelaySession)) : ∀ st,
  NoDup l.*1 →
  let st' :=
    fold_left
      (λ st (entry : string * RelaySession),
         let (session_id, session) := entry in
         if bool_decide (expire_time session = None)
            && String.eqb (relay_ip session) relay
            && negb (existsb (λ v, json_eq_str v session_id) ids)
         then
           let st := log WARNING (LogNoLongerOnRelay session_id relay) st in
           let st := match dialog_id session with
                     | Some d => emit (EndDialog d) st
                     | None => st
                     end in
           with_sessions (delete session_id) st
         else st)
      l st in
  (∀ k, (∀ s, (k, s) ∈ l → no_longer_on relay ids (k, s) = false) →
        sessions st' !! k = sessions st !! k)
  ∧ (∀ k s, (k, s) ∈ l → no_longer_on relay ids (k, s) = true →
            sessions st' !! k = None)
  ∧ trace st' = trace st ++ concat (purge_effects relay ids <$> l)
  ∧ relays st' = relays st ∧ protocols st' = protocols st
  ∧ cleanup_timers st' = cleanup_timers st ∧ reactor st' = reactor st.
Proof.
  induction l as [|[k0 s0] l IH]; intros st Hnd st'.
  { subst st'. cbn. split; [done|]. split; [by intros k s ?%elem_of_nil|].
    by rewrite app_nil_r. }
  cbn [fmap list_fmap fst] in Hnd. apply NoDup_cons in Hnd as [Hk0 Hnd].
  subst st'. cbn [fold_left].
  change (bool_decide (expire_time s0 = None) && String.eqb (relay_ip s0) relay
          && negb (existsb (λ v, json_eq_str v k0) ids))
    with (no_longer_on relay ids (k0, s0)).
  set (st1 := if no_longer_on relay ids (k0, s0) then _ else st).
  destruct (IH st1 Hnd) as (Hkeep & Hdrop & Htrace & Hr & Hp & Hc & Hre).
  assert (Hst1 : (∀ k, k ≠ k0 ∨ no_longer_on relay ids (k0, s0) = false →
                       sessions st1 !! k = sessions st !! k)
                 ∧ (no_longer_on relay ids (k0, s0) = true → sessions st1 !! k0 = None)
                 ∧ trace st1 = trace st ++ purge_effects relay ids (k0, s0)
                 ∧ relays st1 = relays st ∧ protocols st1 = protocols st
                 ∧ cleanup_timers st1 = cleanup_timers st ∧ reactor st1 = reactor st).
  { subst st1. unfold purge_effects.
    destruct (no_longer_on relay ids (k0, s0)); cbn [fst snd].
    - split.
      { intros k [Hne|?]; [|done]. destruct (dialog_id s0); unfold_state;
          by rewrite lookup_delete_ne. }
      split.
      { intros _. destruct (dialog_id s0); unfold_state; by rewrite lookup_delete_eq. }
      destruct (dialog_id s0); unfold_state; by rewrite <- ?app_assoc.
    - by rewrite app_nil_r. }
  destruct Hst1 as (Hkeep1 & Hdrop1 & Htrace1 & Hr1 & Hp1 & Hc1 & Hre1).
  split; [|split; [|split]].
  - intros k Hall. rewrite Hkeep.
    + apply Hkeep1. destruct (decide (k = k0)) as [->|]; [right|by left].
      apply Hall. by left.
    + intros s Hs. apply Hall. by right.
  - intros k s [[= -> ->]|Hin]%elem_of_cons Hyes.
    + rewrite Hkeep; [by apply Hdrop1|].
      intros s Hs. exfalso. apply Hk0. apply list_elem_of_fmap. by exists (k0, s).
    + by apply (Hdrop k s).
  - etrans; [exact Htrace|]. rewrite Htrace1. cbn [fmap list_fmap concat].
    by rewrite app_assoc.
  - split; [by etrans; [exact Hr|]|]. split; [by etrans; [exact Hp|]|].
    split; [by etrans; [exact Hc|]|by etrans; [exact Hre|]].
Qed.

Lemma comprehension_Forall2 {A B} (f : A → outcome B) l ys :
  Forall2 (λ x y, f x = Ret y) l ys → comprehension f l = Ret ys.
Proof.
  induction 1 as [|x y l ys Hx _ IH]; [done|]. cbn. by rewrite Hx, IH.
Qed.

Lemma end_dialogs_app a b : end_dialogs (a ++ b) = end_dialogs a ++ end_dialogs b.
Proof. unfold end_dialogs. by rewrite omap_app. Qed.

Lemma purge_effects_spec relay ids (l : list (string * RelaySession)) :
  end_dialogs (concat (purge_effects relay ids <$> l))
  = omap (λ item, if no_longer_on relay ids item then dialog_id item.2 else None) l
  ∧ accounting_calls (concat (purge_effects relay ids <$> l)) = []
  ∧ relay_writes (concat (purge_effects relay ids <$> l)) = [].
Proof.
  induction l as [|item l (IH1 & IH2 & IH3)]; [done|].
  cbn [fmap list_fmap concat omap list_omap].
  unfold accounting_calls, relay_writes in *. rewrite end_dialogs_app, !omap_app, IH1, IH2, IH3.
  unfold purge_effects. destruct (no_longer_on relay ids item); [|done].
  by destruct (dialog_id item.2).
Qed.

(** X10.  When a relay answers the [sessions] request that [new_relay] sent
    it with a list of sessions, [_cb_purge_sessions] removes from the table
    exactly the sessions that are not expired, are pinned to that relay and
    whose call-id is not in the list; it asks OpenSIPS to end the dialog of
    each removed session that has a dialog id, in the order of the table, and
    does no accounting.  Expired sessions and the sessions of other relays
    stay. *)
Theorem sessions_probe_answer conn self now (n : N) rest relay timer items ids st :
  protocols st !! conn = Some self →
  commands self !! pretty n
    = Some (mkPending (mkCommand "sessions" [] ∅) (WPurge relay) timer) →
  rest ≠ "error" → rest ≠ "halting" →
  cjson_decode rest = Some (JArr items) →
  Forall2 (λ item id, subscript item "call_id" = Ret id) items ids →
  ∃ st' new,
    lineReceived conn now (pretty n +:+ " " +:+ rest) st = (Ret tt, st')
    ∧ (∀ k s, sessions st' !! k = Some s
              ↔ sessions st !! k = Some s ∧ no_longer_on relay ids (k, s) = false)
    ∧ trace st' = trace st ++ new
    ∧ end_dialogs new
      = omap (λ item, if no_longer_on relay ids item then dialog_id item.2 else None)
             (map_to_list (sessions st))
    ∧ accounting_calls new = []
    ∧ relay_writes new = []
    ∧ relays st' = relays st.
Proof.
  intros Hself He Herr Hhalt Hdec Hids.
  rewrite (lineReceived_response _ _ _ _ _ _ _ _ _ Hself He). cbv zeta.
  apply String.eqb_neq in Herr, Hhalt. rewrite Herr, Hhalt. cbn [name String.eqb Ascii.eqb].
  set (st1 := cancel timer _).
  cbn [callback]. unfold _cb_purge_sessions, bind, lift, run. rewrite Hdec.
  cbn [py_iter]. rewrite (comprehension_Forall2 _ _ _ Hids).
  destruct (purge_fold relay ids (map_to_list (sessions st1)) st1)
    as (Hkeep & Hdrop & Htrace & Hr & _); [apply NoDup_fst_map_to_list|].
  destruct (purge_effects_spec relay ids (map_to_list (sessions st1))) as (Hd & Ha & Hw).
  eexists _, _. split; [done|]. split; [|split; [exact Htrace|]].
  - assert (Hs1 : sessions st1 = sessions st) by done.
    intros k s.
    assert (Hall : ∀ s', sessions st !! k = Some s' →
              no_longer_on relay ids (k, s') = false →
              ∀ s2, (k, s2) ∈ map_to_list (sessions st1) →
                    no_longer_on relay ids (k, s2) = false).
    { intros s' Hs' Hno s2 Hs2%elem_of_map_to_list. rewrite Hs1 in Hs2. congruence. }
    split.
    + intros Hk. destruct (sessions st !! k) as [s'|] eqn:Hs'.
      * destruct (no_longer_on relay ids (k, s')) eqn:Hno.
        { assert ((k, s') ∈ map_to_list (sessions st1)) as Hin
            by by apply elem_of_map_to_list.
          pose proof (eq_trans (eq_sym (Hdrop k s' Hin Hno)) Hk). done. }
        pose proof (eq_trans (eq_sym (Hkeep k (Hall s' eq_refl Hno))) Hk) as Hk'.
        rewrite Hs1, Hs' in Hk'. by injection Hk' as <-.
      * assert (∀ s2, (k, s2) ∈ map_to_list (sessions st1) →
                      no_longer_on relay ids (k, s2) = false) as Hnone.
        { intros s2 Hs2%elem_of_map_to_list. rewrite Hs1 in Hs2. congruence. }
        pose proof (eq_trans (eq_sym (Hkeep k Hnone)) Hk) as Hk'.
        rewrite Hs1, Hs' in Hk'. done.
    + intros [Hk Hno]. etrans; [exact (Hkeep k (Hall s Hk Hno))|]. by rewrite Hs1.
  - split; [exact Hd|]. split; [exact Ha|]. split; [exact Hw|].
    etrans; [exact Hr|done].
Qed.

(** X11.  When the answer of a relay to the [sessions] request of
    [new_relay] is not JSON, or is a list with an item that has no
    [call_id], the exception stays in the deferred: it is only logged, no
    session is removed and no dialog is ended. *)
Theorem sessions_probe_malformed conn self now (n : N) rest relay timer st :
  protocols st !! conn = Some self →
  commands self !! pretty n
    = Some (mkPending (mkCommand "sessions" [] ∅) (WPurge relay) timer) →
  rest ≠ "error" → rest ≠ "halting" →
  (cjson_decode rest = None
   ∨ ∃ items e, cjson_decode rest = Some (JArr items)
                ∧ comprehension (λ session, subscript session "call_id") items
                  = Raise e) →
  ∃ st' e,
    lineReceived conn now (pretty n +:+ " " +:+ rest) st = (Ret tt, st')
    ∧ sessions st' = sessions st
    ∧ trace st' = trace st ++ [Log ERROR (LogUnhandledInDeferred e)].
Proof.
  intros Hself He Herr Hhalt Hbad.
  rewrite (lineReceived_response _ _ _ _ _ _ _ _ _ Hself He). cbv zeta.
  apply String.eqb_neq in Herr, Hhalt. rewrite Herr, Hhalt. cbn [name String.eqb Ascii.eqb].
  cbn [callback]. unfold _cb_purge_sessions, bind, lift, run.
  destruct Hbad as [->|(items & e & -> & Hc)].
  - by eexists _, _.
  - cbn [py_iter]. rewrite Hc. by eexists _, _.
Qed.

End Reconciliation.

Section Ingress.

Context `{Collaborators}.

Lemma split1_colon key value :
  ":"%char ∉ list_ascii_of_string key →
  PyStr.split1 ": " (key +:+ ": " +:+ value) = Some (key, value).
Proof.
  induction key as [|c key IH]; intros Hc.
  - cbn. by destruct value.
  - cbn [list_ascii_of_string] in Hc. apply not_elem_of_cons in Hc as [Hne Hc].
    change (String c key +:+ ": " +:+ value) with (String c (key +:+ ": " +:+ value)).
    cbn [PyStr.split1 PyStr.strip_prefix].
    destruct (Ascii.eqb_spec ":" c) as [Heq|_]; [by destruct Hne|].
    by rewrite (IH Hc).
Qed.

Lemma dict_of_pairs_snoc l k v : dict_of_pairs (l ++ [(k, v)]) !! k = Some v.
Proof.
  unfold dict_of_pairs. rewrite fold_left_app. cbn. by rewrite lookup_insert_eq.
Qed.

Lemma dict_of_pairs_None l k :
  Forall (λ kv : string * string, kv.1 ≠ k) l → dict_of_pairs l !! k = None.
Proof.
  unfold dict_of_pairs. generalize (∅ : gmap string string) (lookup_empty (A:=string) k).
  induction l as [|[k' v'] l IH]; intros m Hm Hl; [done|].
  apply Forall_cons in Hl as [Hk Hl]. cbn [fold_left]. apply IH; [|done].
  by rewrite lookup_insert_ne.
Qed.

(** X12.  [Command.__init__] accepts the headers exactly when every header
    contains [': ']; otherwise it raises CommandError.  Of two headers with
    the same name the later one counts, and a header is cut at its first
    [': '], so that its value may contain [': '] itself. *)
Theorem Command_init_spec nm hdrs :
  (Forall (λ h, is_Some (PyStr.split1 ": " h)) hdrs
   → ∃ c, Command_init nm hdrs = Ret c ∧ name c = nm ∧ headers c = hdrs)
  ∧ (Exists (λ h, PyStr.split1 ": " h = None) hdrs
     → Command_init nm hdrs = Raise (CommandError CouldNotParseHeaders))
  ∧ (∀ key value c,
       ":"%char ∉ list_ascii_of_string key →
       Command_init nm (hdrs ++ [key +:+ ": " +:+ value]) = Ret c →
       parsed_headers c !! key = Some value).
Proof.
  unfold Command_init. split; [|split].
  - intros Hall. destruct (mapM (PyStr.split1 ": ") hdrs) as [pairs|] eqn:Hm;
      [by eexists|].
    apply mapM_None in Hm. apply Exists_exists in Hm as (h & Hin & Hh).
    rewrite Forall_forall in Hall. destruct (Hall h Hin) as [? ?]. congruence.
  - intros Hex. destruct (mapM (PyStr.split1 ": ") hdrs) as [pairs|] eqn:Hm; [|done].
    apply mapM_Some in Hm. apply Exists_exists in Hex as (h & Hin & Hh).
    apply list_elem_of_lookup in Hin as [i Hi].
    destruct (Forall2_lookup_l _ _ _ _ _ Hm Hi) as (y & _ & Hy). congruence.
  - intros key value c Hkey.
    destruct (mapM _ _) as [pairs|] eqn:Hm; [|done]. intros [= <-]. cbn [parsed_headers].
    apply mapM_Some, Forall2_app_inv_l in Hm as (pre & last & Hpre & Hlast & ->).
    apply Forall2_cons_inv_l in Hlast as (kv & rest & Hkv & Hrest & ->).
    apply Forall2_nil_inv_l in Hrest as ->.
    rewrite (split1_colon _ _ Hkey) in Hkv. injection Hkv as <-.
    apply dict_of_pairs_snoc.
Qed.

(** X13.  A request from OpenSIPS one of whose headers has no [': '], or
    that has no [call_id] header, is answered [error]: the failure is
    logged, no relay is written to, and the dispatcher state is otherwise
    as before. *)
Theorem malformed_request rnd client nm hdrs st :
  Exists (λ h, PyStr.split1 ": " h = None) hdrs
  ∨ Forall (λ h, ∀ value, PyStr.split1 ": " h ≠ Some ("call_id", value)) hdrs →
  ∃ e, request_received rnd client (nm :: hdrs) st
       = client_reply client "error" (log ERROR (LogFailure (CommandError e)) st).
Proof.
  intros Hbad. unfold request_received, handle_request, bind, lift, raise.
  unfold Command_init.
  destruct (mapM (PyStr.split1 ": ") hdrs) as [pairs|] eqn:Hm; [|by eexists].
  assert (call_id (mkCommand nm hdrs (dict_of_pairs pairs)) = None) as ->;
    [|by eexists].
  apply mapM_Some in Hm. destruct Hbad as [Hex|Hall].
  - apply Exists_exists in Hex as (h & Hin & Hh).
    apply list_elem_of_lookup in Hin as [i Hi].
    destruct (Forall2_lookup_l _ _ _ _ _ Hm Hi) as (y & _ & Hy). congruence.
  - unfold call_id. cbn [parsed_headers]. apply dict_of_pairs_None.
    apply Forall_forall. intros [k v] Hin Hk. cbn in Hk. subst k.
    apply list_elem_of_lookup in Hin as [i Hi].
    destruct (Forall2_lookup_r _ _ _ _ _ Hm Hi) as (h & Hh & Hsplit).
    rewrite Forall_forall in Hall. apply (Hall h) with v; [|done].
    by apply list_elem_of_lookup_2 in Hh.
Qed.

Lemma opensips_fold lines : ∀ buffer blocks,
  fold_left
    (λ (acc : list string * list (list string)) line,
       let '(buffer, blocks) := acc in
       match opensips_lineReceived buffer line with
       | (buffer', Some block) => (buffer', blocks ++ [block])
       | (buffer', None) => (buffer', blocks)
       end) lines (buffer, blocks)
  = ((opensips_lines lines buffer).1, blocks ++ (opensips_lines lines buffer).2).
Proof.
  unfold opensips_lines. induction lines as [|line lines IH]; intros buffer blocks.
  { cbn. by rewrite app_nil_r. }
  cbn [fold_left]. destruct (opensips_lineReceived buffer line) as [b [block|]].
  - rewrite IH, (IH b ([] ++ [block])). cbn [fst snd app]. by rewrite <- app_assoc.
  - by rewrite IH, (IH b []).
Qed.

Lemma opensips_lines_app lines more buffer :
  opensips_lines (lines ++ more) buffer
  = ((opensips_lines more (opensips_lines lines buffer).1).1,
     (opensips_lines lines buffer).2
     ++ (opensips_lines more (opensips_lines lines buffer).1).2).
Proof.
  unfold opensips_lines at 1. rewrite fold_left_app.
  fold (opensips_lines lines buffer).
  destruct (opensips_lines lines buffer) as [b bl]. apply opensips_fold.
Qed.

(** X14.  The OpenSIPS protocol collects the lines of a request until an
    empty line: the block that goes to [handle_request] consists of the
    lines received since the last block, in order, without those that end
    with [': '] (headers without a value); the buffer is empty afterwards,
    and an empty line that follows no line starts no request. *)
Theorem request_block lines buffer :
  Forall (λ line, line ≠ "") lines →
  let block := buffer ++ filter (λ line, endswith line ": " = false) lines in
  opensips_lines (lines ++ [""]) buffer
  = match block with
    | [] => ([], [])
    | _ => ([], [block])
    end.
Proof.
  intros Hlines block. rewrite opensips_lines_app.
  assert (Hbody : opensips_lines lines buffer = (block, [])).
  { subst block. unfold opensips_lines. revert buffer.
    induction Hlines as [|line lines Hline _ IH]; intros buffer.
    { cbn. by rewrite app_nil_r. }
    cbn [fold_left]. unfold opensips_lineReceived at 2.
    apply String.eqb_neq in Hline. rewrite Hline.
    rewrite filter_cons. destruct (endswith line ": ") eqn:He; cbn [negb].
    - rewrite decide_False by done. apply IH.
    - rewrite decide_True by done. rewrite IH. by rewrite <- app_assoc. }
  rewrite Hbody. cbn [fst snd]. unfold opensips_lines. cbn. by destruct block.
Qed.

End Ingress.

Section Silence.

Context `{Collaborators}.

Lemma alter_insert_same {A} (f : A → A) (m : gmap nat A) i x :
  alter f i (<[i := x]> m) = <[i := f x]> m.
Proof.
  rewrite (alter_lookup_Some f _ i x (lookup_insert_eq _ _ _)). apply insert_insert_eq.
Qed.

Lemma timeout_fires conn command client p st :
  healthy st →
  protocols st !! conn = Some p → timedout p = false →
  fire (next_id st) (relay_send_command conn command (WReply client) st)
  = (Ret tt, timed_out conn command client p st).
Proof.
  intros Hh Hp Htimedout.
  assert (Hn : reactor st !! next_id st = None).
  { destruct (reactor st !! next_id st) as [x|] eqn:Hx; [|done].
    assert (next_id st < next_id st); [|lia]. apply (h_timer_id _ Hh). by exists x. }
  pose proof (seq_fresh p (h_seq _ Hh _ _ Hp)) as Hfresh.
  rewrite (relay_send_command_sent _ _ _ _ _ Hp). unfold fire, sent.
  cbn [reactor]. rewrite lookup_insert_eq. cbv iota beta zeta. unfold _timeout.
  unfold_state. rewrite lookup_insert_eq. cbn [commands]. rewrite lookup_insert_eq.
  cbn [errback]. unfold_state. rewrite alter_insert_same, lookup_insert_eq.
  unfold set_commands. cbn [ip commands halting timedout disconnect_timer
    sequence_number authenticated fmap option_fmap option_map].
  rewrite Htimedout. unfold callLater. cbn [snd]. unfold_state.
  rewrite !alter_insert_same.
  unfold set_timedout, set_disconnect_timer. cbn [ip commands halting timedout
    disconnect_timer sequence_number authenticated name].
  rewrite (delete_insert_id _ _ _ Hfresh), (delete_insert_id _ _ _ Hn).
  unfold timed_out. by rewrite <- !app_assoc.
Qed.

(** X15.  In any state that the dispatcher has reached, when a relay
    connection that is not timed out does not answer a request within
    [relay_timeout], the client of the request is answered [error], the
    request is forgotten, the connection is marked as timed out (so it is
    not active any more), and its disconnect timer is started with
    [relay_recover_interval]. *)
Theorem request_times_out file events conn command client p :
  let st := dispatcher (run_events file events) in
  protocols st !! conn = Some p → timedout p = false →
  fire (next_id st) (relay_send_command conn command (WReply client) st)
  = (Ret tt, timed_out conn command client p st).
Proof. intros st. apply timeout_fires, healthy_run_events. Qed.

(** X16.  The answer of a relay that arrives after its request has timed
    out is only logged as unexpected: the client, which was answered [error]
    when the timer expired, is not answered a second time, and nothing else
    changes. *)
Theorem late_response_dropped file events conn command client p now body :
  let st := dispatcher (run_events file events) in
  let st1 := relay_send_command conn command (WReply client) st in
  let st2 := (fire (next_id st) st1).2 in
  let line := pretty (sequence_number p) +:+ " " +:+ body in
  protocols st !! conn = Some p → timedout p = false →
  trace st2 = trace st1 ++ [Log ERROR (LogFailure
                                        (RelayError (RelayTimedOut (name command) (ip p))));
                            Reply client "error"]
  ∧ lineReceived conn now line st2
    = (Ret tt, log ERROR (LogUnexpectedResponse (ip p) line) st2).
Proof.
  intros st st1 st2 line Hp Htimedout.
  pose proof (healthy_run_events file events) as Hh. fold st in Hh.
  subst st2 st1. rewrite (timeout_fires _ _ _ _ _ Hh Hp Htimedout). cbn [snd].
  split.
  { rewrite (relay_send_command_sent _ _ _ _ _ Hp). unfold timed_out, sent.
    cbn [trace]. by rewrite <- app_assoc. }
  pose proof (seq_fresh p (h_seq _ Hh _ _ Hp)) as Hfresh.
  destruct (response_line (sequence_number p) body) as (Hsplit & Hexp & Hping).
  unfold lineReceived, timed_out. cbn [protocols]. rewrite lookup_insert_eq.
  fold line in Hsplit. rewrite Hsplit, Hexp, Hping. cbn [commands]. by rewrite Hfresh.
Qed.

(** X17.  A [ping] from a relay whose request has timed out makes the
    connection active again unless it is halting: it is no longer timed
    out, its disconnect timer is cancelled, and [pong] is written to it.
    After the request, the timeout and the ping the reactor holds the same
    delayed calls as before the request. *)
Theorem ping_after_timeout file events conn command client p now :
  let st := dispatcher (run_events file events) in
  let st2 := (fire (next_id st)
                (relay_send_command conn command (WReply client) st)).2 in
  protocols st !! conn = Some p → timedout p = false →
  ∃ st',
    lineReceived conn now "ping" st2 = (Ret tt, st')
    ∧ protocols st'
      = <[conn := mkRelay (ip p) (commands p) (halting p) false None
                    (sequence_number p + 1) (authenticated p)]> (protocols st)
    ∧ reactor st' = reactor st
    ∧ sessions st' = sessions st ∧ relays st' = relays st
    ∧ trace st' = trace st2 ++ [RelayWrite conn ("pong" +:+ delimiter)].
Proof.
  intros st st2 Hp Htimedout.
  pose proof (healthy_run_events file events) as Hh. fold st in Hh.
  subst st2. rewrite (timeout_fires _ _ _ _ _ Hh Hp Htimedout). cbn [snd].
  assert (Hn : reactor st !! S (next_id st) = None).
  { destruct (reactor st !! S (next_id st)) as [x|] eqn:Hx; [|done].
    assert (S (next_id st) < next_id st); [|lia]. apply (h_timer_id _ Hh). by exists x. }
  unfold lineReceived, timed_out. cbn [protocols]. rewrite lookup_insert_eq.
  cbn [PyStr.split1 PyStr.strip_prefix Ascii.eqb Bool.eqb String.eqb
       timedout disconnect_timer].
  unfold bind, run, timer_active. unfold_state. rewrite lookup_insert_eq.
  rewrite bool_decide_true by by eexists.
  eexists. split; [done|]. unfold_state.
  rewrite !alter_insert_same. rewrite (delete_insert_id _ _ _ Hn). done.
Qed.

(** X18.  When the disconnect timer of a relay whose request has timed out
    fires, and the relay is registered, has no other pending request, and the
    dispatcher is not shutting down, the connection is given up: the relay leaves the
    registry, and a cleanup timer of [cleanup_dead_relays_after] seconds is
    started for its address.  The sessions stay in the table until that
    timer fires. *)
Theorem grace_period_over file events conn command client p :
  let st := dispatcher (run_events file events) in
  let st2 := (fire (next_id st)
                (relay_send_command conn command (WReply client) st)).2 in
  protocols st !! conn = Some p → timedout p = false → commands p = ∅ →
  relays st !! ip p = Some conn → shutting_down st = false →
  ∃ st',
    fire (S (next_id st)) st2 = (Ret tt, st')
    ∧ relays st' = delete (ip p) (relays st)
    ∧ cleanup_timers st' = <[ip p := S (S (next_id st))]> (cleanup_timers st)
    ∧ reactor st'
      = <[S (S (next_id st)) := (cleanup_dead_relays_after config,
                                 CallDoCleanup (ip p))]> (reactor st)
    ∧ sessions st' = sessions st
    ∧ trace st' = trace st2 ++ [Log ERROR (LogConnectionLost (ip p) TCPTimedOutError)].
Proof.
  intros st st2 Hp Htimedout Hcommands Hr Hsd.
  pose proof (healthy_run_events file events) as Hh. fold st in Hh.
  subst st2. rewrite (timeout_fires _ _ _ _ _ Hh Hp Htimedout). cbn [snd].
  assert (Hn : reactor st !! S (next_id st) = None).
  { destruct (reactor st !! S (next_id st)) as [x|] eqn:Hx; [|done].
    assert (S (next_id st) < next_id st); [|lia]. apply (h_timer_id _ Hh). by exists x. }
  destruct (h_registry _ Hh _ _ Hr) as (p' & Hp' & _ & Hauth).
  rewrite Hp in Hp'. injection Hp' as <-.
  unfold fire, timed_out. cbn [reactor]. rewrite lookup_insert_eq. cbv iota beta.
  unfold connectionLost. unfold_state. rewrite lookup_insert_eq.
  cbn [commands ip]. rewrite Hcommands, map_to_list_empty. cbn [fmap list_fmap fold_left].
  unfold_state. rewrite lookup_insert_eq. cbn [timedout disconnect_timer].
  unfold bind, run, timer_active. unfold_state.
  rewrite (delete_insert_id _ _ _ Hn), Hn.
  rewrite bool_decide_false by by intros [? ?].
  rewrite !alter_insert_same. unfold connection_lost. unfold_state.
  rewrite !alter_insert_same, lookup_insert_eq.
  rewrite bool_decide_true by (apply elem_of_itervalues; by exists (ip p)).
  unfold set_timedout, set_disconnect_timer.
  cbn [ip commands halting timedout disconnect_timer sequence_number authenticated].
  rewrite Hauth. unfold_state. rewrite Hsd. unfold callLater. unfold_state.
  eexists. split; [done|]. done.
Qed.


End Silence.

Section Reconnect.

Context `{Collaborators}.

Lemma relay_send_command_quiet conn command defer st :
  quiet st (relay_send_command conn command defer st).
Proof. unfold quiet, relay_send_command. by destruct (protocols st !! conn). Qed.

Lemma DeferredList_result_quiet g index r st :
  quiet st (DeferredList_result g index r st).
Proof. unfold quiet, DeferredList_result. by repeat case_match. Qed.

Lemma errback_quiet defer e st : quiet st (errback defer e st).
Proof.
  destruct defer as [client|try_relays command client|relay|g index addr|g index];
    cbn [errback]; try done.
  - unfold _relay_error, bind, run. destruct try_relays as [|failed L]; [done|].
    destruct L as [|next L]; [done|]. cbn [_try_next run].
    apply (relay_send_command_quiet next command _
             (log WARNING (LogRelayFailed failed e) st)).
  - apply (DeferredList_result_quiet _ _ _ (log ERROR (LogQueryError addr e) st)).
  - apply DeferredList_result_quiet.
Qed.

Lemma fail_pending_quiet addr (l : list pending) : ∀ st,
  quiet st
    (fold_left
       (λ st (p : pending),
          errback (p_defer p) (RelayDisconnected (name (p_command p)) addr)
                  (cancel (p_timer p) st))
       l st).
Proof.
  induction l as [|e l IH]; intros st; [done|]. cbn [fold_left].
  destruct (IH (errback (p_defer e) (RelayDisconnected (name (p_command e)) addr)
                  (cancel (p_timer e) st))) as (Ha & Hb & Hc & Hd).
  destruct (errback_quiet (p_defer e) (RelayDisconnected (name (p_command e)) addr)
              (cancel (p_timer e) st)) as (Ha' & Hb' & Hc' & Hd').
  unfold quiet. rewrite Ha, Hb, Hc, Hd. done.
Qed.

(** [connectionLost] of a connection comes down to [connection_lost] in a
    healthy state with the same sessions, registry and cleanup timers. *)
Lemma connectionLost_shape conn reason self st :
  healthy st → protocols st !! conn = Some self →
  ∃ st_c, connectionLost conn reason st = (Ret tt, connection_lost conn st_c)
    ∧ healthy st_c ∧ quiet st st_c.
Proof.
  intros Hh Hself. unfold connectionLost. rewrite Hself.
  set (st1 := log _ _ st).
  set (st2 := fold_left _ _ st1).
  assert (Hm2 : moves st st2).
  { apply (moves_fail_pending _ _ st st1 Hh); [subst st1; moving|].
    intros e [[seq e'] [-> He]]%list_elem_of_fmap. apply elem_of_map_to_list in He.
    destruct (h_pending _ Hh _ _ _ _ Hself He) as [Hlt Hc]. split; [done|].
    intros d c Hx. exists conn, seq. by eapply Hc. }
  assert (Hq2 : quiet st st2).
  { exact (fail_pending_quiet (ip self) ((map_to_list (commands self)).*2) st1). }
  destruct (moves_advances _ _ Hh Hm2) as (_ & Hadv & _).
  destruct (Hadv conn self Hself) as (self2 & Hself2 & _). rewrite Hself2.
  destruct (moves_resume st Hh conn self2 st2 Hm2 Hself2) as (st3 & Heq & Hm3 & _).
  unfold bind at 1. rewrite Heq. exists st3. split; [done|].
  split; [by eapply moves_healthy|].
  unfold quiet. destruct Hq2 as (<- & <- & <- & <-). revert Heq.
  destruct (timedout self2); [|by intros [= <-]].
  unfold bind, run, raise. destruct (disconnect_timer self2) as [t|]; [|done].
  intros [= <-]. by destruct (timer_active _ _).
Qed.

(** What [new_relay] does to the registry and to the cleanup timers. *)
Lemma new_relay_registers relay p st :
  protocols st !! relay = Some p →
  sessions (new_relay relay st) = sessions st
  ∧ relays (new_relay relay st) = <[ip p := relay]> (delete (ip p) (relays st))
  ∧ cleanup_timers (new_relay relay st) = delete (ip p) (cleanup_timers st)
  ∧ shutting_down (new_relay relay st) = shutting_down st.
Proof.
  intros Hp. unfold new_relay. rewrite Hp.
  set (s2 := match relays st !! ip p with Some _ => _ | None => _ end).
  assert (Hs2 : quiet (with_relays (delete (ip p)) st) s2).
  { subst s2. by destruct (relays st !! ip p). }
  destruct Hs2 as (Hs & Hr & Hc & Hd). cbv zeta.
  match goal with
  | |- context [relay_send_command ?c ?cmd ?d ?s] =>
      destruct (relay_send_command_quiet c cmd d s) as (-> & -> & -> & ->)
  end.
  change (cleanup_timers (with_relays <[ip p := relay]> s2)) with (cleanup_timers s2).
  destruct (cleanup_timers s2 !! ip p);
    (split; [exact Hs|]; split; [exact (f_equal _ Hr)|];
     split; [exact (f_equal _ Hc)|exact Hd]).
Qed.

(** X19.  A relay that is lost and connects again before its cleanup timer
    fires keeps its sessions.  When the connection is lost, the sessions
    stay in the table, the relay leaves the registry, and a cleanup timer is
    started for its address; when the relay connects again, the new
    connection is registered, the cleanup timer is cancelled and forgotten,
    and the sessions are still in the table. *)
Theorem reconnect_keeps_sessions file events conn reason addr :
  let w := run_events file events in
  is_open w conn = true →
  relays (dispatcher w) !! addr = Some conn →
  shutting_down (dispatcher w) = false →
  let w1 := step (Lost conn reason) w in
  let w2 := step (Connect addr true) w1 in
  sessions (dispatcher w1) = sessions (dispatcher w)
  ∧ relays (dispatcher w1) !! addr = None
  ∧ cleanup_armed (dispatcher w1) addr
  ∧ sessions (dispatcher w2) = sessions (dispatcher w)
  ∧ relays (dispatcher w2) !! addr = Some (next_id (dispatcher w1))
  ∧ cleanup_timers (dispatcher w2) !! addr = None
  ∧ ∀ t d, reactor (dispatcher w2) !! t ≠ Some (d, CallDoCleanup addr).
Proof.
  intros w Hopen Hr Hsd w1 w2.
  pose proof (healthy_run_events file events) as Hh. fold w in Hh.
  assert (Hh2 : healthy (dispatcher w2)) by by apply healthy_step, healthy_step.
  destruct (h_registry _ Hh _ _ Hr) as (self & Hself & Hip & Hauth).
  destruct (connectionLost_shape conn reason self _ Hh Hself)
    as (st_c & Hlost & Hhc & Hs & Hrel & Hct & Hsdc).
  assert (Hw1 : dispatcher w1 = connection_lost conn st_c).
  { subst w1. unfold step. cbv zeta. rewrite Hopen. unfold lose. cbn [dispatcher].
    by rewrite Hlost. }
  rewrite <- Hrel in Hr. rewrite <- Hsdc in Hsd.
  destruct (h_registry _ Hhc _ _ Hr) as (pc & Hpc & Hipc & Hauthc).
  assert (Hst1 : connection_lost conn st_c
                 = with_cleanup_timers <[addr := next_id st_c]>
                     (callLater (cleanup_dead_relays_after config) (CallDoCleanup addr)
                        (with_relays (delete addr) st_c)).2).
  { unfold connection_lost. rewrite Hpc.
    rewrite bool_decide_true by (apply elem_of_itervalues; by exists addr).
    rewrite Hauthc, Hipc. unfold_state. by rewrite Hsd. }
  rewrite Hst1 in Hw1. clearbody w1.
  assert (Hsd1 : shutting_down (dispatcher w1) = false) by by rewrite Hw1.
  assert (Hw2 : dispatcher w2
                = new_relay (next_id (dispatcher w1))
                    (update_protocol (next_id (dispatcher w1)) (set_authenticated true)
                       (buildProtocol addr (dispatcher w1)).2)).
  { subst w2. unfold step. cbv zeta. by rewrite Hsd1. }
  clearbody w2. clearbody w.
  destruct (new_relay_registers (next_id (dispatcher w1))
              (set_authenticated true (RelayServerProtocol_init addr))
              (update_protocol (next_id (dispatcher w1)) (set_authenticated true)
                 (buildProtocol addr (dispatcher w1)).2))
    as (Hs2 & Hr2 & Hc2 & _).
  { unfold buildProtocol. cbn [snd]. unfold update_protocol.
    cbn [protocols with_protocols with_next_id].
    by rewrite lookup_alter_eq, lookup_insert_eq. }
  rewrite <- Hw2 in Hs2, Hr2, Hc2.
  change (ip (set_authenticated true (RelayServerProtocol_init addr))) with addr
    in Hr2, Hc2.
  change (sessions (update_protocol _ _ _)) with (sessions (dispatcher w1)) in Hs2.
  change (relays (update_protocol _ _ _)) with (relays (dispatcher w1)) in Hr2.
  change (cleanup_timers (update_protocol _ _ _))
    with (cleanup_timers (dispatcher w1)) in Hc2.
  rewrite Hs2, Hr2, Hc2, Hw1. unfold cleanup_armed, callLater.
  cbn [snd sessions relays cleanup_timers reactor next_id with_cleanup_timers
       with_next_id with_reactor with_relays].
  split; [done|]. split; [by rewrite lookup_delete_eq|]. split.
  { exists (next_id st_c). by rewrite !lookup_insert_eq. }
  split; [done|]. split; [by rewrite lookup_insert_eq|].
  split; [by rewrite lookup_delete_eq|].
  intros t d Ht. apply (h_cleanup _ Hh2) in Ht. rewrite Hc2, lookup_delete_eq in Ht.
  done.
Qed.

(** The delayed call that [new_relay] makes for the connection that it
    replaces. *)
Lemma new_relay_replaces relay p old st :
  protocols st !! relay = Some p →
  relays st !! ip p = Some old →
  cleanup_timers st !! ip p = None →
  reactor (new_relay relay st) !! next_id st
  = Some (0%Z, CallConnectionLost old ConnectionReplaced).
Proof.
  intros Hp Hold Hc. unfold new_relay. rewrite Hp, Hold. cbv zeta.
  set (s2 := (callLater 0 (CallConnectionLost old ConnectionReplaced) _).2).
  change (cleanup_timers (with_relays <[ip p := relay]> s2)) with (cleanup_timers st).
  rewrite Hc.
  set (s3 := with_cleanup_timers _ _).
  assert (Hp3 : protocols s3 !! relay = Some p) by exact Hp.
  rewrite (relay_send_command_sent _ _ _ _ _ Hp3). unfold sent. cbn [reactor].
  change (next_id s3) with (S (next_id st)).
  rewrite lookup_insert_ne by lia.
  change (reactor s3) with (<[next_id st := (0%Z, CallConnectionLost old ConnectionReplaced)]>
                              (reactor st)).
  by rewrite lookup_insert_eq.
Qed.

(** X20.  When a relay connects again while its old connection is still
    registered, the new connection takes the place of the old one in the
    registry at once, and a delayed call is made to drop the old one.  When
    that call fires, the old connection is closed, and this neither removes
    the new connection from the registry nor starts a cleanup timer; the
    sessions of the relay stay in the table. *)
Theorem replaced_connection file events old addr :
  let w := run_events file events in
  is_open w old = true →
  relays (dispatcher w) !! addr = Some old →
  shutting_down (dispatcher w) = false →
  let new := next_id (dispatcher w) in
  let w1 := step (Connect addr true) w in
  let w2 := step (Timer (S new)) w1 in
  relays (dispatcher w1) = <[addr := new]> (relays (dispatcher w))
  ∧ reactor (dispatcher w1) !! S new
    = Some (0%Z, CallConnectionLost old ConnectionReplaced)
  ∧ is_open w1 old = true
  ∧ is_open w2 old = false
  ∧ relays (dispatcher w2) = <[addr := new]> (relays (dispatcher w))
  ∧ cleanup_timers (dispatcher w2) = cleanup_timers (dispatcher w)
  ∧ sessions (dispatcher w2) = sessions (dispatcher w).
Proof.
  intros w Hopen Hr Hsd new w1 w2.
  pose proof (healthy_run_events file events) as Hh. fold w in Hh.
  assert (Hh1 : healthy (dispatcher w1)) by by apply healthy_step.
  destruct (h_registry _ Hh _ _ Hr) as (self & Hself & Hip & Hauth).
  assert (Hlt : old < new) by (apply (h_conn_id _ Hh); by rewrite Hself).
  assert (Hct : cleanup_timers (dispatcher w) !! addr = None).
  { destruct (cleanup_timers (dispatcher w) !! addr) as [t|] eqn:Ht; [|done].
    destruct (h_armed _ Hh Hsd _ _ Ht) as [_ Hnone]. by rewrite Hnone in Hr. }
  set (s0 := update_protocol new (set_authenticated true)
               (buildProtocol addr (dispatcher w)).2).
  assert (Hw1 : dispatcher w1 = new_relay new s0).
  { subst w1. unfold step. cbv zeta. by rewrite Hsd. }
  assert (Hclosed1 : closed w1 = closed w).
  { subst w1. unfold step. cbv zeta. by rewrite Hsd. }
  assert (Hp0 : protocols s0 !! new
                = Some (set_authenticated true (RelayServerProtocol_init addr))).
  { subst s0. unfold buildProtocol. cbn [snd]. unfold update_protocol.
    cbn [protocols with_protocols with_next_id].
    by rewrite lookup_alter_eq, lookup_insert_eq. }
  destruct (new_relay_registers new _ s0 Hp0) as (Hs1 & Hr1 & Hc1 & Hsd1).
  pose proof (new_relay_replaces new _ old s0 Hp0 Hr Hct) as Hre1.
  rewrite <- Hw1 in Hs1, Hr1, Hc1, Hsd1, Hre1.
  change (ip (set_authenticated true (RelayServerProtocol_init addr))) with addr
    in Hr1, Hc1.
  change (sessions s0) with (sessions (dispatcher w)) in Hs1.
  change (relays s0) with (relays (dispatcher w)) in Hr1.
  change (cleanup_timers s0) with (cleanup_timers (dispatcher w)) in Hc1.
  change (next_id s0) with (S new) in Hre1.
  rewrite insert_delete_eq in Hr1. rewrite delete_id in Hc1 by done.
  pose proof (moves_step (Connect addr true) w Hh) as Hm. fold w1 in Hm.
  destruct (moves_advances _ _ Hh Hm) as (_ & Hadv & _).
  destruct (Hadv old self Hself) as (self1 & Hself1 & _).
  assert (Hopen1 : is_open w1 old = true).
  { unfold is_open in *. rewrite Hclosed1, Hself1.
    apply andb_true_iff in Hopen as [_ ->]. by rewrite bool_decide_true. }
  clearbody w1 s0. clearbody w.
  split; [done|]. split; [done|]. split; [done|].
  set (st1 := cancel (S new) (dispatcher w1)).
  assert (Hhc : healthy st1).
  { apply (moves_healthy (dispatcher w1)); [done|]. apply moves_cancel; [apply moves_refl|].
    intros d a. rewrite Hre1. by intros [=]. }
  destruct (connectionLost_shape old ConnectionReplaced self1 st1 Hhc Hself1)
    as (st_c & Hlost & _ & Hsc & Hrc & Hcc & _).
  assert (Hnot : old ∉ itervalues st_c).
  { rewrite elem_of_itervalues. intros [a Ha]. rewrite Hrc in Ha.
    change (relays st1) with (relays (dispatcher w1)) in Ha. rewrite Hr1 in Ha.
    destruct (decide (a = addr)) as [->|Hne].
    - rewrite lookup_insert_eq in Ha. injection Ha as Ha. lia.
    - rewrite lookup_insert_ne in Ha by done.
      destruct (h_registry _ Hh _ _ Ha) as (self' & Hself' & Hip' & _).
      rewrite Hself in Hself'. injection Hself' as <-. congruence. }
  assert (Hw2 : w2 = mkProcess st_c ({[old]} ∪ closed w1)).
  { subst w2. unfold step. cbv zeta. rewrite Hre1, Hopen1. unfold fire. rewrite Hre1.
    cbv zeta. change (with_reactor (delete (S new)) (dispatcher w1)) with st1.
    rewrite Hlost. unfold logged, connection_lost.
    destruct (protocols st_c !! old); [|done]. by rewrite bool_decide_false. }
  rewrite Hw2. unfold is_open. cbn [dispatcher closed].
  split.
  { apply andb_false_iff. right. apply bool_decide_eq_false. intros Hn. apply Hn.
    apply elem_of_union_l, elem_of_singleton. done. }
  rewrite Hrc, Hcc, Hsc.
  change (relays st1) with (relays (dispatcher w1)).
  change (cleanup_timers st1) with (cleanup_timers (dispatcher w1)).
  change (sessions st1) with (sessions (dispatcher w1)).
  by rewrite Hr1, Hc1, Hs1.
Qed.

End Reconnect.

Section Routing.

Context `{Collaborators}.

(** X21.  A request other than [update] whose call-id has no session is
    answered [error]: the failure is logged, no relay is written to, and the
    dispatcher state is otherwise as before. *)
Theorem unknown_session_refused rnd client nm hdrs command k st :
  Command_init nm hdrs = Ret command →
  call_id command = Some k →
  sessions st !! k = None →
  nm ≠ "update" →
  request_received rnd client (nm :: hdrs) st
  = client_reply client "error"
      (log ERROR (LogFailure (RelayError (UnknownSession nm k))) st).
Proof.
  intros Hinit Hk Hnone Hnm.
  assert (Hname : name command = nm).
  { unfold Command_init in Hinit. destruct (mapM _ _); [|done]. by injection Hinit as <-. }
  unfold request_received, handle_request, bind, lift. rewrite Hinit, Hk.
  unfold RelayFactory_send_command. rewrite Hk. cbn [mbind option_bind]. rewrite Hnone.
  rewrite Hname. apply String.eqb_neq in Hnm. rewrite Hnm.
  rewrite andb_false_r. done.
Qed.

(** X22.  When a relay answers [halting] to a request that was forwarded for
    a session, the client is answered [error], the session stays in the
    table, and the connection is marked as halting, so that it is not active
    any more. *)
Theorem halting_answer conn self now (n : N) command client timer st :
  protocols st !! conn = Some self →
  commands self !! pretty n = Some (mkPending command (WReply client) timer) →
  ∃ st' p',
    lineReceived conn now (pretty n +:+ " " +:+ "halting") st = (Ret tt, st')
    ∧ protocols st' !! conn = Some p'
    ∧ halting p' = true ∧ active p' = false
    ∧ commands p' = delete (pretty n) (commands self)
    ∧ reactor st' = delete timer (reactor st)
    ∧ sessions st' = sessions st
    ∧ trace st' = trace st ++ [Log ERROR (LogFailure (RelayError (RelayShuttingDown (ip self))));
                               Reply client "error"].
Proof.
  intros Hself He.
  rewrite (lineReceived_response _ _ _ _ _ _ _ _ _ Hself He). cbv zeta.
  cbn [String.eqb Ascii.eqb Bool.eqb errback]. unfold_state.
  eexists _, _. split; [done|]. cbn [protocols reactor sessions trace].
  rewrite !lookup_alter_eq, Hself. cbn [fmap option_fmap option_map].
  split; [done|]. unfold active, set_halting, set_commands. cbn.
  by rewrite <- app_assoc.
Qed.

(** X23.  An [update] for a call-id whose session is live goes to the relay
    of the session and nowhere else, and the answer of that relay goes back
    to the client as it is; afterwards the session table, the pending
    requests of the connection and the delayed calls of the reactor are as
    before the request. *)
Theorem pinned_update_round_trip file events rnd client command k s conn p now body :
  let st := dispatcher (run_events file events) in
  name command = "update" →
  call_id command = Some k →
  sessions st !! k = Some s → expire_time s = None →
  relays st !! relay_ip s = Some conn →
  protocols st !! conn = Some p →
  body ≠ "error" → body ≠ "halting" →
  ∃ st1 st2,
    RelayFactory_send_command rnd client command st = (Ret None, st1)
    ∧ lineReceived conn now (pretty (sequence_number p) +:+ " " +:+ body) st1
      = (Ret tt, st2)
    ∧ trace st2 = trace st ++ [Log DEBUG (LogIssuing "update" (ip p));
                               RelayWrite conn
                                 (request_text command (pretty (sequence_number p)));
                               Reply client body]
    ∧ sessions st2 = sessions st
    ∧ reactor st2 = reactor st
    ∧ protocols st2
      = <[conn := set_sequence_number (sequence_number p + 1) p]> (protocols st).
Proof.
  intros st Hname Hk Hs Hlive Hr Hp Herr Hhalt.
  pose proof (healthy_run_events file events) as Hh. fold st in Hh. clearbody st.
  assert (Hn : reactor st !! next_id st = None).
  { destruct (reactor st !! next_id st) as [x|] eqn:Hx; [|done].
    assert (next_id st < next_id st); [|lia]. apply (h_timer_id _ Hh). by exists x. }
  pose proof (seq_fresh p (h_seq _ Hh _ _ Hp)) as Hfresh.
  unfold RelayFactory_send_command. rewrite Hk. cbn [mbind option_bind]. rewrite Hs.
  destruct s as [relay dialog expire]. cbn [expire_time relay_ip] in Hlive, Hr.
  subst expire. rewrite Hr. eexists _, _. split; [done|].
  rewrite (relay_send_command_sent _ _ _ _ _ Hp).
  assert (Hp1 : protocols (sent conn command (WReply client) p st) !! conn
                = Some (mkRelay (ip p)
                          (<[pretty (sequence_number p)
                             := mkPending command (WReply client) (next_id st)]>
                             (commands p))
                          (halting p) (timedout p) (disconnect_timer p)
                          (sequence_number p + 1) (authenticated p))).
  { unfold sent. cbn [protocols]. by rewrite lookup_insert_eq. }
  rewrite (lineReceived_response _ _ _ _ _ _ _ _ _ Hp1 (lookup_insert_eq _ _ _)).
  cbv zeta. apply String.eqb_neq in Herr, Hhalt. rewrite Herr, Hhalt, Hname.
  cbn [String.eqb Ascii.eqb Bool.eqb callback]. split; [done|].
  unfold sent. unfold_state. rewrite alter_insert_same.
  unfold set_commands, set_sequence_number.
  cbn [ip commands halting timedout disconnect_timer sequence_number authenticated].
  rewrite (delete_insert_id _ _ _ Hfresh), (delete_insert_id _ _ _ Hn), Hname.
  by rewrite <- app_assoc.
Qed.

End Routing.

Section Stopping.

Context `{Collaborators}.

Lemma cancel_all (l : list nat) : ∀ st,
  let st' := fold_left (λ st t, cancel t st) l st in
  (∀ t x, reactor st' !! t = Some x ↔ (t ∉ l) ∧ reactor st !! t = Some x)
  ∧ sessions st' = sessions st ∧ relays st' = relays st
  ∧ shutting_down st' = shutting_down st ∧ trace st' = trace st
  ∧ state_file st' = state_file st.
Proof.
  induction l as [|t0 l IH]; intros st.
  { cbn. split; [|done]. intros t x. split; [|by intros [_ ?]].
    intros Hx. split; [apply not_elem_of_nil|done]. }
  cbn [fold_left]. destruct (IH (cancel t0 st)) as (Hre & -> & -> & -> & -> & ->).
  split; [|done]. intros t x. rewrite Hre. unfold_state.
  rewrite lookup_delete_Some, not_elem_of_cons. naive_solver.
Qed.

Lemma lose_all (l : list nat) : ∀ st,
  let st' := fold_left (λ st conn, emit (LoseConnection conn) st) l st in
  trace st' = trace st ++ (LoseConnection <$> l)
  ∧ reactor st' = reactor st ∧ sessions st' = sessions st ∧ relays st' = relays st
  ∧ shutting_down st' = shutting_down st ∧ state_file st' = state_file st.
Proof.
  induction l as [|c l IH]; intros st.
  { cbn. by rewrite app_nil_r. }
  cbn [fold_left]. destruct (IH (emit (LoseConnection c) st)) as (-> & -> & -> & -> & -> & ->).
  split; [|done]. unfold_state. by rewrite <- app_assoc.
Qed.

(** X24.  In any state that the dispatcher has reached, [shutdown] calls off
    every cleanup: afterwards the reactor holds no delayed call to
    [_do_cleanup], so that the sessions of the relays that are gone are not
    removed before the state is saved.  The session table stays as it is;
    every registered relay is asked to close its connection, and when no
    relay is registered the session table is saved at once. *)
Theorem shutdown_calls_off_cleanups file events :
  let st := dispatcher (run_events file events) in
  shutting_down st = false →
  let st' := shutdown st in
  shutting_down st' = true
  ∧ (∀ t d addr, reactor st' !! t ≠ Some (d, CallDoCleanup addr))
  ∧ sessions st' = sessions st ∧ relays st' = relays st
  ∧ trace st' = trace st ++ (LoseConnection <$> itervalues st)
  ∧ state_file st'
    = (if decide (relays st = ∅) then Some (pickle_dumps (sessions st))
       else state_file st).
Proof.
  intros st Hsd st'. pose proof (healthy_run_events file events) as Hh. fold st in Hh.
  clearbody st. subst st'. unfold shutdown. rewrite Hsd.
  set (s1 := with_shutting_down true st).
  destruct (cancel_all ((map_to_list (cleanup_timers s1)).*2) s1)
    as (Hre & Hs & Hr & Hsd' & Htr & Hsf).
  set (s2 := fold_left _ _ s1) in *.
  assert (Hnone : ∀ t d addr, reactor s2 !! t ≠ Some (d, CallDoCleanup addr)).
  { intros t d addr [Hnotin Hx]%Hre. apply Hnotin.
    apply (h_cleanup _ Hh) in Hx. apply list_elem_of_fmap. exists (addr, t).
    split; [done|]. by apply elem_of_map_to_list. }
  case_bool_decide as Hsize.
  - rewrite Hr in Hsize. apply map_size_empty_iff in Hsize.
    change (relays s1) with (relays st) in Hsize.
    unfold _save_state. unfold_state. rewrite Hsd', Hs, Hr, Htr.
    rewrite decide_True by done. unfold itervalues. rewrite Hsize, map_to_list_empty.
    cbn. by rewrite app_nil_r.
  - destruct (lose_all (itervalues s2) s2) as (-> & -> & -> & -> & -> & ->).
    rewrite Hsd', Hs, Hr, Htr, Hsf. unfold itervalues. rewrite Hr.
    rewrite decide_False; [done|].
    intros Hempty. apply Hsize. rewrite Hr. apply map_size_empty_iff. done.
Qed.

End Stopping.

(** * Instances of the properties on the sample data *)

Lemma active_iff_witness :
  authenticated (Sample.idle Sample.relay_A) = true
  ∧ (active (Sample.idle Sample.relay_A) = true ↔
     authenticated (Sample.idle Sample.relay_A) = true
     ∧ halting (Sample.idle Sample.relay_A) = false
     ∧ timedout (Sample.idle Sample.relay_A) = false).
Proof.
  split; [reflexivity|].
  apply (proj2 (active_iff (Sample.idle Sample.relay_A))). reflexivity.
Defined.

(** C7 as stated fails: a connection whose certificate was not accepted is
    not authenticated, and [active] holds of it all the same. *)
Lemma active_ignores_authenticated :
  ¬ (∀ c : RelayServerProtocol,
       active c = true ↔
       authenticated c = true ∧ halting c = false ∧ timedout c = false).
Proof.
  intros Hclaim.
  destruct (proj1 (Hclaim (RelayServerProtocol_init Sample.relay_A)) eq_refl)
    as [Hauth _].
  discriminate Hauth.
Qed.

Lemma pinned_routing_witness :
  call_id Sample.remove_x = Some "x"
  ∧ sessions Sample.state !! "x"
    = Some (mkSession Sample.relay_A (Some "dialog-1") None)
  ∧ ∃ st', RelayFactory_send_command (H:=Sample.env) id 7 Sample.remove_x Sample.state
           = (Ret None, st')
      ∧ sessions st' = sessions Sample.state.
Proof.
  split; [reflexivity|]. split; [reflexivity|].
  pose proof (@pinned_routing Sample.env id 7 Sample.remove_x Sample.state "x" _
                eq_refl eq_refl eq_refl) as Hw.
  change (relays Sample.state !! _) with (Some 0) in Hw.
  destruct Hw as (st' & Hsend & Hsessions & _).
  exists st'. split; assumption.
Defined.

Lemma expired_session_routing_witness :
  call_id Sample.remove_x = Some "x"
  ∧ sessions Sample.expired_state !! "x"
    = Some (mkSession Sample.relay_A (Some "dialog-1") (Some 100%Z))
  ∧ RelayFactory_send_command (H:=Sample.env) id 7 Sample.remove_x Sample.expired_state
    = (Ret (Some "removed"), with_sessions (delete "x") Sample.expired_state).
Proof.
  split; [reflexivity|]. split; [reflexivity|].
  exact (@expired_session_routing Sample.env id 7 Sample.remove_x Sample.expired_state
           "x" _ eq_refl eq_refl ltac:(discriminate)).
Defined.

(** C2 as stated fails: an [update] for a call-id whose session is expired
    is written to a relay (here to the very relay of the expired session). *)
Lemma expired_session_update_forwarded :
  ¬ (∀ command (st : DState) k s,
       call_id command = Some k →
       sessions st !! k = Some s →
       expire_time s ≠ None →
       relay_writes (trace (RelayFactory_send_command (H:=Sample.env) id 7 command st).2)
       = relay_writes (trace st)).
Proof.
  intros Hclaim.
  specialize (Hclaim Sample.update_x Sample.expired_state "x" _ eq_refl eq_refl
                ltac:(discriminate)).
  vm_compute in Hclaim. discriminate Hclaim.
Qed.



Lemma update_then_remove_witness :
  let rest := "{call_id:x,start_time:123}" in
  protocols Sample.placing_state !! 0
  = Some (mkRelay Sample.relay_A
            {[ "0" := mkPending Sample.update_x (WPlace [0; 1] Sample.update_x 7) 2 ]}
            false false None 1%N true)
  ∧ relays Sample.placing_state !! Sample.relay_A = Some 0
  ∧ ∃ st1 st2 st3,
      lineReceived (H:=Sample.env) 0 10 ("0 " +:+ "sdp-1") Sample.placing_state
      = (Ret tt, st1)
      ∧ RelayFactory_send_command (H:=Sample.env) id 8 Sample.remove_x st1
        = (Ret None, st2)
      ∧ lineReceived (H:=Sample.env) 0 20 ("1 " +:+ rest) st2 = (Ret tt, st3)
      ∧ sessions st3 !! "x" = None.
Proof.
  intros rest. split; [reflexivity|]. split; [reflexivity|].
  destruct (@update_then_remove Sample.env 0 _ 10 20 0%N "sdp-1" Sample.update_x
              Sample.remove_x [1] 7 8 2 id "x" rest
              [("call_id", JStr "x"); ("start_time", JNum 123)] (JNum 123)
              Sample.placing_state eq_refl eq_refl eq_refl eq_refl eq_refl
              ltac:(discriminate) ltac:(discriminate) eq_refl eq_refl
              ltac:(discriminate) ltac:(discriminate) eq_refl eq_refl eq_refl)
    as (st1 & st2 & st3 & acc & H1 & _ & H2 & _ & H3 & _ & _ & _ & _ & _ & Hgone).
  exists st1, st2, st3. repeat split; assumption.
Defined.

(** C5 as stated fails: the session [x] is placed on relay A and a [remove]
    for it is routed to relay A; relay A answers the [remove] with an object
    that names no call-id.  The handler raises KeyError: the session stays
    in the table and the caller of the [remove] is not answered. *)
Lemma remove_response_not_validated :
  ¬ (∀ rest st1 st2,
       rest ≠ "error" → rest ≠ "halting" →
       lineReceived (H:=Sample.env) 0 10 ("0 " +:+ "sdp-1") Sample.placing_state
       = (Ret tt, st1) →
       RelayFactory_send_command (H:=Sample.env) id 8 Sample.remove_x st1
       = (Ret None, st2) →
       ∃ st3, lineReceived (H:=Sample.env) 0 20 ("1 " +:+ rest) st2 = (Ret tt, st3)
         ∧ sessions st3 !! "x" = None
         ∧ last (trace st3) = Some (Reply 8 "removed")).
Proof.
  intros Hclaim.
  destruct (Hclaim "{}" _ _ ltac:(discriminate) ltac:(discriminate) eq_refl eq_refl)
    as (st3 & Hline & _).
  vm_compute in Hline. discriminate Hline.
Qed.

Lemma malformed_line_witness :
  protocols Sample.state !! 0 = Some (Sample.idle Sample.relay_A)
  ∧ cjson_decode (Collaborators:=Sample.env) "{not json" = None
  ∧ lineReceived (H:=Sample.env) 0 0 ("expired " +:+ "{not json") Sample.state
    = (Ret tt, log ERROR (LogDecodeError Sample.relay_A) Sample.state).
Proof.
  split; [reflexivity|]. split; [reflexivity|].
  exact (proj1 (@malformed_line Sample.env 0 (Sample.idle Sample.relay_A) 0
                  "{not json" Sample.state eq_refl eq_refl)).
Defined.

(** C9 as stated fails: an [expired] payload that decodes to an object
    without [call_id] is not logged and dropped, the handler raises. *)
Lemma expired_without_call_id_raises :
  ¬ (∀ rest d (st : DState),
       cjson_decode (Collaborators:=Sample.env) rest = Some (JObj d) →
       PyDict.get "call_id" d = None →
       ∃ st', lineReceived (H:=Sample.env) 0 0 ("expired " +:+ rest) st = (Ret tt, st')
         ∧ sessions st' = sessions st).
Proof.
  intros Hclaim.
  destruct (Hclaim "{}" [] Sample.state eq_refl eq_refl) as (st' & Hline & _).
  vm_compute in Hline. discriminate Hline.
Qed.

Lemma shutdown_then_startup_witness :
  pickle_loads (Collaborators:=Sample.env)
    (pickle_dumps (Collaborators:=Sample.env) (sessions Sample.state))
  = Some (sessions Sample.state)
  ∧ sessions (RelayFactory_init (H:=Sample.env)
                (state_file (_save_state (H:=Sample.env) Sample.state)))
    = sessions Sample.state
  ∧ cleanup_armed (H:=Sample.env)
      (RelayFactory_init (H:=Sample.env)
         (state_file (_save_state (H:=Sample.env) Sample.state)))
      Sample.relay_A.
Proof.
  split; [reflexivity|].
  destruct (@shutdown_then_startup Sample.env Sample.state)
    as (_ & _ & _ & Hstart & _).
  destruct (Hstart eq_refl) as (Hs & _ & _ & _ & Htimers).
  split; [exact Hs|].
  apply Htimers. exists "x", (mkSession Sample.relay_A (Some "dialog-1") None).
  split; reflexivity.
Defined.

Lemma idle_state_wf : registry_wf Sample.idle_state.
Proof.
  intros addr conn Hr. cbn [relays Sample.idle_state] in Hr.
  apply lookup_insert_Some in Hr as [[<- <-]|[_ Hr]].
  - exists (Sample.idle Sample.relay_A). by repeat split.
  - apply lookup_singleton_Some in Hr as [<- <-].
    exists (Sample.idle Sample.relay_B). by repeat split.
Qed.

(** Relay A answers [error], relay B answers [sdp-3]: the session is pinned
    to B and the client gets [sdp-3]. *)
Lemma update_placement_witness :
  name Sample.update_x = "update"
  ∧ call_id Sample.update_x = Some "x"
  ∧ sessions Sample.idle_state !! "x" = None
  ∧ registry_wf Sample.idle_state
  ∧ ∃ st0,
      RelayFactory_send_command (H:=Sample.env) id 7 Sample.update_x Sample.idle_state
      = (Ret None, st0)
      ∧ sessions (failover (H:=Sample.env) 0 [Error; Body "sdp-3"] [0; 1] st0)
        = {[ "x" := mkSession Sample.relay_B (Some "dialog-1") None ]}
      ∧ last (trace (failover (H:=Sample.env) 0 [Error; Body "sdp-3"] [0; 1] st0))
        = Some (Reply 7 "sdp-3").
Proof.
  split; [reflexivity|]. split; [reflexivity|]. split; [reflexivity|].
  split; [exact idle_state_wf|].
  assert (HL : candidates id Sample.update_x Sample.idle_state = [0; 1])
    by (vm_compute; reflexivity).
  assert (Hwarned : warned Sample.update_x Sample.idle_state = Sample.idle_state)
    by reflexivity.
  pose proof (@update_placement Sample.env id 7 Sample.update_x "x" Sample.idle_state
                eq_refl eq_refl ltac:(discriminate) idle_state_wf) as Hw.
  cbv zeta in Hw. rewrite HL, Hwarned in Hw.
  destruct Hw as (_ & _ & _ & _ & _ & _ & _ & _ & Hsend & _ & _ & Hok & _).
  exists (relay_send_command (H:=Sample.env) 0 Sample.update_x
            (WPlace [0; 1] Sample.update_x 7) Sample.idle_state).
  split; [exact Hsend|].
  destruct (Hok 0%Z [0] 1 [] [Error] "sdp-3" eq_refl eq_refl
              ltac:(repeat constructor) ltac:(discriminate) ltac:(discriminate))
    as (p & Hp & Hs & Ht & _).
  assert (Hp' : protocols Sample.idle_state !! 1 = Some (Sample.idle Sample.relay_B))
    by reflexivity.
  rewrite Hp' in Hp. injection Hp as <-.
  split; [exact Hs|exact Ht].
Defined.

Lemma halting_state_wf : registry_wf Sample.halting_state.
Proof.
  intros addr conn Hr. cbn [relays Sample.halting_state] in Hr.
  apply lookup_singleton_Some in Hr as [<- <-].
  eexists. by repeat split.
Qed.

(** C8 as stated fails: [summary] is also sent to a relay that announced it
    is shutting down, as long as it is connected. *)
Lemma summary_sent_to_halting_relay :
  ¬ (∀ (st : DState) client conn,
       registry_wf st →
       conn ∈ written (get_summary (H:=Sample.env) client st) →
       registered_active st conn).
Proof.
  intros Hclaim.
  destruct (Hclaim Sample.halting_state 9 0 halting_state_wf)
    as (addr & p & _ & Hp & Ha).
  - vm_compute. apply list_elem_of_here.
  - vm_compute in Hp. injection Hp as <-. discriminate Ha.
Qed.

(** Relay A fails and relay B answers [{b}] to a [summary]. *)
Lemma aggregation_witness :
  registry_wf Sample.idle_state
  ∧ last (trace (answer_all (H:=Sample.env) 0 [Error; Body "{b}"] [0; 1]
                   (get_summary (H:=Sample.env) 9 Sample.idle_state)))
    = Some (Reply 9 "[{status:error,ip:10.0.0.1}, {b}]").
Proof.
  split; [exact idle_state_wf|].
  assert (Hitems : map_to_list (relays Sample.idle_state)
                   = [(Sample.relay_A, 0); (Sample.relay_B, 1)])
    by (vm_compute; reflexivity).
  pose proof (@aggregation Sample.env GSummary 9 Sample.idle_state idle_state_wf)
    as Hw.
  cbv zeta in Hw. rewrite Hitems in Hw.
  destruct Hw as (_ & _ & _ & Hall).
  destruct (Hall 0%Z [Error; Body "{b}"] ltac:(discriminate) eq_refl
              ltac:(repeat constructor; discriminate))
    as [Hlast _].
  exact Hlast.
Defined.

(** * Instances of the further properties *)

Lemma reachable_cleanup_timers_witness :
  let st := dispatcher (run_events (H:=Sample.env) (Some "pickle:x") []) in
  shutting_down st = false
  ∧ map_Forall
      (λ addr t, (∃ d, reactor st !! t = Some (d, CallDoCleanup addr))
                 ∧ relays st !! addr = None)
      (cleanup_timers st).
Proof.
  intros st. split; [vm_compute; reflexivity|].
  apply (@reachable_cleanup_timers Sample.env (Some "pickle:x") []).
  vm_compute. reflexivity.
Defined.

Lemma protocols_evolve_witness :
  let p := mkRelay Sample.relay_A
             {[ "0" := mkPending (mkCommand "sessions" [] ∅) (WPurge Sample.relay_A) 1 ]}
             false false None 1%N true in
  protocols (dispatcher (run_events (H:=Sample.env) None [Connect Sample.relay_A true]))
    !! 0 = Some p
  ∧ ∃ p', protocols
            (dispatcher (run_events (H:=Sample.env) None
                           ([Connect Sample.relay_A true] ++ [Line 0 0 "0 halting"])))
            !! 0 = Some p'
          ∧ ip p' = ip p.
Proof.
  intros p. split; [vm_compute; reflexivity|].
  destruct (@protocols_evolve Sample.env None [Connect Sample.relay_A true]
              [Line 0 0 "0 halting"] 0 p ltac:(vm_compute; reflexivity))
    as (p' & Hp' & Hip & _).
  exists p'. split; assumption.
Defined.

Lemma halting_relay_placement_witness :
  let p := mkRelay Sample.relay_A ∅ true false None 1%N true in
  let events := [Connect Sample.relay_A true; Connect Sample.relay_B true;
                 Line 0 0 "0 halting"] in
  let st := dispatcher (run_events (H:=Sample.env) None (events ++ [Sweep 0])) in
  protocols (dispatcher (run_events (H:=Sample.env) None events)) !! 0 = Some p
  ∧ halting p = true
  ∧ (0 ∉ candidates id Sample.update_x st)
  ∧ relay_writes
      (trace (errback (H:=Sample.env) (WPlace [2; 0] Sample.update_x 7)
                (RelayReturnedError Sample.relay_B "update") st))
    = relay_writes (trace st) ++ [(0, request_text Sample.update_x "1")].
Proof.
  intros p events st. split; [vm_compute; reflexivity|]. split; [reflexivity|].
  destruct (@halting_relay_placement Sample.env None events [Sweep 0%Z] 0 p id
              Sample.update_x ltac:(vm_compute; reflexivity) eq_refl)
    as (Hnot & p' & Hp' & _ & _ & Hsent).
  split; [exact Hnot|].
  fold st in Hsent. rewrite (Hsent (RelayReturnedError Sample.relay_B "update") 2 [] _ 7).
  vm_compute in Hp'. injection Hp' as <-. vm_compute. reflexivity.
Defined.

Lemma cleanup_timer_fires_witness :
  let st := dispatcher (run_events (H:=Sample.env) (Some "pickle:x") []) in
  reactor st !! 0 = Some (3600%Z, CallDoCleanup Sample.relay_A)
  ∧ ∃ st', fire (H:=Sample.env) 0 st = (Ret tt, st')
      ∧ cleanup_timers st' = delete Sample.relay_A (cleanup_timers st).
Proof.
  intros st. split; [vm_compute; reflexivity|].
  destruct (@cleanup_timer_fires Sample.env (Some "pickle:x") [] 0 3600%Z Sample.relay_A
              ltac:(vm_compute; reflexivity))
    as (st' & Hfire & _ & Hc & _).
  exists st'. split; assumption.
Defined.

Lemma sessions_probe_answer_witness :
  protocols Probe.state !! 0
  = Some (mkRelay Sample.relay_A
            {[ "0" := mkPending (mkCommand "sessions" [] ∅) (WPurge Sample.relay_A) 1 ]}
            false false None 1%N true)
  ∧ cjson_decode (Collaborators:=Probe.env) "[{call_id:y}]"
    = Some (JArr [JObj [("call_id", JStr "y")]])
  ∧ ∃ st' new,
      lineReceived (H:=Probe.env) 0 0 ("0" +:+ " " +:+ "[{call_id:y}]") Probe.state
      = (Ret tt, st')
      ∧ trace st' = trace Probe.state ++ new
      ∧ end_dialogs new
        = omap (λ item, if no_longer_on Sample.relay_A [JStr "y"] item
                        then dialog_id item.2 else None)
               (map_to_list (sessions Probe.state)).
Proof.
  split; [reflexivity|]. split; [reflexivity|].
  destruct (@sessions_probe_answer Probe.env 0 _ 0%Z 0%N "[{call_id:y}]" Sample.relay_A 1
              [JObj [("call_id", JStr "y")]] [JStr "y"] Probe.state
              eq_refl eq_refl ltac:(discriminate) ltac:(discriminate) eq_refl
              ltac:(repeat constructor))
    as (st' & new & Hline & _ & Htrace & Hend & _).
  exists st', new. split; [exact Hline|]. split; assumption.
Defined.

Lemma sessions_probe_malformed_witness :
  protocols Probe.state !! 0
  = Some (mkRelay Sample.relay_A
            {[ "0" := mkPending (mkCommand "sessions" [] ∅) (WPurge Sample.relay_A) 1 ]}
            false false None 1%N true)
  ∧ cjson_decode (Collaborators:=Probe.env) "{not json" = None
  ∧ ∃ st' e,
      lineReceived (H:=Probe.env) 0 0 ("0" +:+ " " +:+ "{not json") Probe.state
      = (Ret tt, st')
      ∧ sessions st' = sessions Probe.state
      ∧ trace st' = trace Probe.state ++ [Log ERROR (LogUnhandledInDeferred e)].
Proof.
  split; [reflexivity|]. split; [reflexivity|].
  exact (@sessions_probe_malformed Probe.env 0 _ 0%Z 0%N "{not json" Sample.relay_A 1
           Probe.state eq_refl eq_refl ltac:(discriminate) ltac:(discriminate)
           (or_introl eq_refl)).
Defined.

Lemma malformed_request_witness :
  Forall (λ h, ∀ value, PyStr.split1 ": " h ≠ Some ("call_id", value))
         ["dialog_id: dialog-1"]
  ∧ ∃ e, request_received (H:=Sample.env) id 7 ["update"; "dialog_id: dialog-1"]
           Sample.state
         = client_reply 7 "error" (log ERROR (LogFailure (CommandError e)) Sample.state).
Proof.
  assert (Hno : Forall (λ h, ∀ value, PyStr.split1 ": " h ≠ Some ("call_id", value))
                  ["dialog_id: dialog-1"]).
  { repeat constructor. intros value. vm_compute. discriminate. }
  split; [exact Hno|].
  exact (@malformed_request Sample.env id 7 "update" ["dialog_id: dialog-1"] Sample.state
           (or_intror Hno)).
Defined.

Lemma request_block_witness :
  Forall (λ line, line ≠ "") ["update"; "call_id: x"; "from_tag: "]
  ∧ opensips_lines (["update"; "call_id: x"; "from_tag: "] ++ [""]) []
    = ([], [["update"; "call_id: x"]]).
Proof.
  assert (Hlines : Forall (λ line, line ≠ "") ["update"; "call_id: x"; "from_tag: "])
    by (repeat constructor; discriminate).
  split; [exact Hlines|].
  exact (request_block ["update"; "call_id: x"; "from_tag: "] [] Hlines).
Defined.

Lemma request_times_out_witness :
  let st := dispatcher (run_events (H:=Sample.env) None [Connect Sample.relay_A true]) in
  let p := mkRelay Sample.relay_A
             {[ "0" := mkPending (mkCommand "sessions" [] ∅) (WPurge Sample.relay_A) 1 ]}
             false false None 1%N true in
  protocols st !! 0 = Some p
  ∧ timedout p = false
  ∧ fire (H:=Sample.env) (next_id st)
      (relay_send_command (H:=Sample.env) 0 Sample.update_x (WReply 7) st)
    = (Ret tt, timed_out (H:=Sample.env) 0 Sample.update_x 7 p st).
Proof.
  intros st p. split; [vm_compute; reflexivity|]. split; [reflexivity|].
  apply (@request_times_out Sample.env None [Connect Sample.relay_A true] 0
           Sample.update_x 7 p); [vm_compute; reflexivity|reflexivity].
Defined.

Lemma late_response_dropped_witness :
  let st := dispatcher (run_events (H:=Sample.env) None [Connect Sample.relay_A true]) in
  let p := mkRelay Sample.relay_A
             {[ "0" := mkPending (mkCommand "sessions" [] ∅) (WPurge Sample.relay_A) 1 ]}
             false false None 1%N true in
  let st2 := (fire (H:=Sample.env) (next_id st)
                (relay_send_command (H:=Sample.env) 0 Sample.update_x (WReply 7) st)).2 in
  let line := pretty (sequence_number p) +:+ " " +:+ "sdp-1" in
  protocols st !! 0 = Some p
  ∧ timedout p = false
  ∧ lineReceived (H:=Sample.env) 0 30 line st2
    = (Ret tt, log ERROR (LogUnexpectedResponse (ip p) line) st2).
Proof.
  intros st p st2 line. split; [vm_compute; reflexivity|]. split; [reflexivity|].
  apply (@late_response_dropped Sample.env None [Connect Sample.relay_A true] 0
           Sample.update_x 7 p 30%Z "sdp-1"); [vm_compute; reflexivity|reflexivity].
Defined.

Lemma ping_after_timeout_witness :
  let st := dispatcher (run_events (H:=Sample.env) None [Connect Sample.relay_A true]) in
  let p := mkRelay Sample.relay_A
             {[ "0" := mkPending (mkCommand "sessions" [] ∅) (WPurge Sample.relay_A) 1 ]}
             false false None 1%N true in
  let st2 := (fire (H:=Sample.env) (next_id st)
                (relay_send_command (H:=Sample.env) 0 Sample.update_x (WReply 7) st)).2 in
  protocols st !! 0 = Some p
  ∧ timedout p = false
  ∧ ∃ st', lineReceived (H:=Sample.env) 0 30 "ping" st2 = (Ret tt, st')
      ∧ reactor st' = reactor st.
Proof.
  intros st p st2. split; [vm_compute; reflexivity|]. split; [reflexivity|].
  destruct (@ping_after_timeout Sample.env None [Connect Sample.relay_A true] 0
              Sample.update_x 7 p 30%Z ltac:(vm_compute; reflexivity) eq_refl)
    as (st' & Hline & _ & Hreactor & _).
  exists st'. split; assumption.
Defined.

Lemma grace_period_over_witness :
  let st := dispatcher (run_events (H:=Sample.env) None
                          [Connect Sample.relay_A true; Line 0 0 "0 []"]) in
  let p := mkRelay Sample.relay_A ∅ false false None 1%N true in
  let st2 := (fire (H:=Sample.env) (next_id st)
                (relay_send_command (H:=Sample.env) 0 Sample.update_x (WReply 7) st)).2 in
  protocols st !! 0 = Some p
  ∧ timedout p = false
  ∧ commands p = ∅
  ∧ relays st !! ip p = Some 0
  ∧ shutting_down st = false
  ∧ ∃ st', fire (H:=Sample.env) (S (next_id st)) st2 = (Ret tt, st')
      ∧ relays st' = delete (ip p) (relays st).
Proof.
  intros st p st2. split; [vm_compute; reflexivity|]. split; [reflexivity|].
  split; [reflexivity|].
  split; [vm_compute; reflexivity|]. split; [vm_compute; reflexivity|].
  destruct (@grace_period_over Sample.env None
              [Connect Sample.relay_A true; Line 0 0%Z "0 []"] 0 Sample.update_x 7 p
              ltac:(vm_compute; reflexivity) eq_refl eq_refl
              ltac:(vm_compute; reflexivity) ltac:(vm_compute; reflexivity))
    as (st' & Hfire & Hrelays & _).
  exists st'. split; assumption.
Defined.

Lemma reconnect_keeps_sessions_witness :
  let w := run_events (H:=Sample.env) (Some "pickle:x") [Connect Sample.relay_A true] in
  let w2 := step (H:=Sample.env) (Connect Sample.relay_A true)
              (step (H:=Sample.env) (Lost 1 ConnectionDone) w) in
  is_open w 1 = true
  ∧ relays (dispatcher w) !! Sample.relay_A = Some 1
  ∧ shutting_down (dispatcher w) = false
  ∧ sessions (dispatcher w2) = sessions (dispatcher w)
  ∧ cleanup_timers (dispatcher w2) !! Sample.relay_A = None.
Proof.
  intros w w2. split; [vm_compute; reflexivity|]. split; [vm_compute; reflexivity|].
  split; [vm_compute; reflexivity|].
  destruct (@reconnect_keeps_sessions Sample.env (Some "pickle:x")
              [Connect Sample.relay_A true] 1 ConnectionDone Sample.relay_A
              ltac:(vm_compute; reflexivity) ltac:(vm_compute; reflexivity)
              ltac:(vm_compute; reflexivity))
    as (_ & _ & _ & Hs & _ & Hc & _).
  split; assumption.
Defined.

Lemma reachable_registry_witness :
  let st := dispatcher (run_events (H:=Sample.env) None [Connect Sample.relay_A true]) in
  relays st !! Sample.relay_A = Some 0
  ∧ ∃ p, protocols st !! 0 = Some p ∧ ip p = Sample.relay_A ∧ authenticated p = true.
Proof.
  intros st. split; [vm_compute; reflexivity|].
  apply (@reachable_registry Sample.env None [Connect Sample.relay_A true]
           Sample.relay_A 0).
  vm_compute. reflexivity.
Defined.

Lemma reachable_sequence_numbers_witness :
  let st := dispatcher (run_events (H:=Sample.env) None [Connect Sample.relay_A true]) in
  let p := mkRelay Sample.relay_A
             {[ "0" := mkPending (mkCommand "sessions" [] ∅) (WPurge Sample.relay_A) 1 ]}
             false false None 1%N true in
  protocols st !! 0 = Some p
  ∧ commands p !! pretty (sequence_number p) = None.
Proof.
  intros st p. split; [vm_compute; reflexivity|].
  apply (@reachable_sequence_numbers Sample.env None [Connect Sample.relay_A true] 0 p).
  vm_compute. reflexivity.
Defined.

Lemma unknown_session_refused_witness :
  Command_init "remove" ["call_id: x"] = Ret Sample.remove_x
  ∧ call_id Sample.remove_x = Some "x"
  ∧ sessions Sample.idle_state !! "x" = None
  ∧ request_received (H:=Sample.env) id 7 ["remove"; "call_id: x"] Sample.idle_state
    = client_reply 7 "error"
        (log ERROR (LogFailure (RelayError (UnknownSession "remove" "x")))
           Sample.idle_state).
Proof.
  split; [vm_compute; reflexivity|]. split; [vm_compute; reflexivity|].
  split; [vm_compute; reflexivity|].
  apply (@unknown_session_refused Sample.env id 7 "remove" ["call_id: x"] Sample.remove_x
           "x" Sample.idle_state);
    [vm_compute; reflexivity|vm_compute; reflexivity|vm_compute; reflexivity|discriminate].
Defined.

Lemma halting_answer_witness :
  let st := relay_send_command (H:=Sample.env) 0 Sample.update_x (WReply 7) Sample.state in
  let self := mkRelay Sample.relay_A
                {[ "0" := mkPending Sample.update_x (WReply 7) 2 ]}
                false false None 1%N true in
  protocols st !! 0 = Some self
  ∧ commands self !! pretty 0%N = Some (mkPending Sample.update_x (WReply 7) 2)
  ∧ ∃ st' p',
      lineReceived (H:=Sample.env) 0 0 (pretty 0%N +:+ " " +:+ "halting") st = (Ret tt, st')
      ∧ protocols st' !! 0 = Some p'
      ∧ halting p' = true
      ∧ sessions st' = sessions st.
Proof.
  intros st self. split; [vm_compute; reflexivity|]. split; [vm_compute; reflexivity|].
  destruct (@halting_answer Sample.env 0 self 0%Z 0%N Sample.update_x 7 2 st
              ltac:(vm_compute; reflexivity) ltac:(vm_compute; reflexivity))
    as (st' & p' & Hline & Hp' & Hhalting & _ & _ & _ & Hs & _).
  exists st', p'. repeat split; assumption.
Defined.

Lemma pinned_update_round_trip_witness :
  let st := dispatcher (run_events (H:=Sample.env) (Some "pickle:x")
                          [Connect Sample.relay_A true]) in
  let s := mkSession Sample.relay_A (Some "dialog-1") None in
  let p := mkRelay Sample.relay_A
             {[ "0" := mkPending (mkCommand "sessions" [] ∅) (WPurge Sample.relay_A) 2 ]}
             false false None 1%N true in
  name Sample.update_x = "update"
  ∧ call_id Sample.update_x = Some "x"
  ∧ sessions st !! "x" = Some s
  ∧ expire_time s = None
  ∧ relays st !! relay_ip s = Some 1
  ∧ protocols st !! 1 = Some p
  ∧ ∃ st1 st2,
      RelayFactory_send_command (H:=Sample.env) id 7 Sample.update_x st = (Ret None, st1)
      ∧ lineReceived (H:=Sample.env) 1 0 (pretty (sequence_number p) +:+ " " +:+ "sdp-1") st1
        = (Ret tt, st2)
      ∧ sessions st2 = sessions st
      ∧ reactor st2 = reactor st.
Proof.
  intros st s p. split; [reflexivity|]. split; [vm_compute; reflexivity|].
  split; [vm_compute; reflexivity|]. split; [reflexivity|].
  split; [vm_compute; reflexivity|]. split; [vm_compute; reflexivity|].
  destruct (@pinned_update_round_trip Sample.env (Some "pickle:x")
              [Connect Sample.relay_A true] id 7 Sample.update_x "x" s 1 p 0%Z "sdp-1"
              eq_refl ltac:(vm_compute; reflexivity) ltac:(vm_compute; reflexivity) eq_refl
              ltac:(vm_compute; reflexivity) ltac:(vm_compute; reflexivity)
              ltac:(discriminate) ltac:(discriminate))
    as (st1 & st2 & Hsend & Hline & _ & Hs & Hr & _).
  exists st1, st2. repeat split; assumption.
Defined.

Lemma shutdown_calls_off_cleanups_witness :
  let st := dispatcher (run_events (H:=Sample.env) (Some "pickle:x") []) in
  shutting_down st = false
  ∧ reactor st !! 0 = Some (3600%Z, CallDoCleanup Sample.relay_A)
  ∧ shutting_down (shutdown (H:=Sample.env) st) = true
  ∧ sessions (shutdown (H:=Sample.env) st) = sessions st
  ∧ state_file (shutdown (H:=Sample.env) st) = Some "pickle:x".
Proof.
  intros st. split; [vm_compute; reflexivity|]. split; [vm_compute; reflexivity|].
  destruct (@shutdown_calls_off_cleanups Sample.env (Some "pickle:x") []
              ltac:(vm_compute; reflexivity))
    as (Hsd & _ & Hs & _ & _ & Hf).
  split; [exact Hsd|]. split; [exact Hs|].
  etrans; [exact Hf|]. vm_compute. reflexivity.
Defined.

Lemma replaced_connection_witness :
  let w := run_events (H:=Sample.env) None [Connect Sample.relay_A true] in
  let w1 := step (H:=Sample.env) (Connect Sample.relay_A true) w in
  let w2 := step (H:=Sample.env) (Timer 3) w1 in
  is_open w 0 = true
  ∧ relays (dispatcher w) !! Sample.relay_A = Some 0
  ∧ shutting_down (dispatcher w) = false
  ∧ next_id (dispatcher w) = 2
  ∧ is_open w2 0 = false
  ∧ relays (dispatcher w2) = <[Sample.relay_A := 2]> (relays (dispatcher w))
  ∧ cleanup_timers (dispatcher w2) = cleanup_timers (dispatcher w).
Proof.
  intros w w1 w2. split; [vm_compute; reflexivity|]. split; [vm_compute; reflexivity|].
  split; [vm_compute; reflexivity|]. split; [vm_compute; reflexivity|].
  destruct (@replaced_connection Sample.env None [Connect Sample.relay_A true] 0
              Sample.relay_A ltac:(vm_compute; reflexivity) ltac:(vm_compute; reflexivity)
              ltac:(vm_compute; reflexivity))
    as (_ & _ & _ & Hclosed & Hr & Hc & _).
  split; [exact Hclosed|]. split; [exact Hr|exact Hc].
Defined.
